(** * pm2-io: metric probes and transport factory

    A shallow embedding of

    - [src/lib/services/transport.ts]  (the transport factory [createTransport]),
    - [src/lib/metrics/v8.ts]          (the [V8Metric] heap probe),
    - the runtime probe [RuntimeMetrics] (GC pauses, context switches, page
      faults),

    together with the two collaborators the probes and the factory drive but
    whose code is not part of the sources at hand: the histogram accumulator
    and the buffering transport channel.

    JavaScript numbers are IEEE 754 binary64 values ([spec_float] with
    precision 53 and maximal exponent 1024), objects used as dictionaries are
    finite maps, mutable objects that are shared (gauges, histograms, timers,
    listeners) live in explicit stores and are referred to by their index. *)

From Stdlib Require Import ZArith QArith List Sorted String Ascii Lia Bool.
From Stdlib Require Import SpecFloat DecimalString DecimalN Qround Lqa.
From stdpp Require Import base option list gmap strings.

Local Open Scope Z_scope.

(** ** JavaScript numbers *)

Module Number.

Definition prec : Z := 53.
Definition emax : Z := 1024.

Definition number : Type := spec_float.

Definition NaN : number := S754_nan.

Definition div (x y : number) : number := SFdiv prec emax x y.
Definition mul (x y : number) : number := SFmul prec emax x y.

(** The number nearest to the integer [n] (ties to even). *)
Definition of_Z (n : Z) : number := binary_normalize prec emax n 0 false.

(** The number nearest to [(-1)^neg * p / q], for [0 <= p] and [0 < q]. *)
Definition of_ratio (neg : bool) (p q : Z) : number :=
  if p =? 0 then S754_zero neg
  else
    let '(mz, ez, lz) := SFdiv_core_binary prec emax p 0 q 0 in
    binary_round_aux prec emax neg mz ez lz.

Definition is_finite (x : number) : bool :=
  match x with
  | S754_zero _ | S754_finite _ _ _ => true
  | _ => false
  end.

(** The exact value of a finite number. *)
Definition to_Q (x : number) : option Q :=
  match x with
  | S754_zero _ => Some (0 # 1)%Q
  | S754_finite s m e =>
      let v := if 0 <=? e then inject_Z (Zpos m * 2 ^ e)
               else (Zpos m # Z.to_pos (2 ^ (- e)))%Q in
      Some (if s then Qopp v else v)
  | _ => None
  end.

(** Magnitude of a finite non-zero number as a fraction [p / q]. *)
Definition magnitude (m : positive) (e : Z) : Z * Z :=
  if 0 <=? e then (Zpos m * 2 ^ e, 1) else (Zpos m, 2 ^ (- e)).

Definition digits_of_Z (n : Z) : string :=
  NilZero.string_of_uint (N.to_uint (Z.to_N n)).

Fixpoint zeros (k : nat) : string :=
  match k with
  | O => EmptyString
  | S k' => String "0" (zeros k')
  end.

(** *** Number::toString (radix 10)

    [shortest] looks for the least number of digits [k] and the digit
    string [s] such that [s * 10^(n-k)] reads back as the same number. *)

(** The [n] with [10^(n-1) <= p/q < 10^n]. *)
Fixpoint scale_up (fuel : nat) (p q n : Z) : Z :=
  match fuel with
  | O => n
  | S fuel' => if p <? q then scale_up fuel' (10 * p) q (n - 1) else n
  end.

Definition decimal_exponent (p q : Z) : Z :=
  if q <=? p then Z.of_nat (String.length (digits_of_Z (p / q)))
  else scale_up 400 (10 * p) q 0.

(** [s * 10^k] as a fraction. *)
Definition decimal (s k : Z) : Z * Z :=
  if 0 <=? k then (s * 10 ^ k, 1) else (s, 10 ^ (- k)).

Definition reads_back (x : number) (s k : Z) : bool :=
  let '(p, q) := decimal s k in
  match SFcompare (of_ratio false p q) x with
  | Some Eq => true
  | _ => false
  end.

(** Candidates with [k] digits around [p/q]; the result is [(s, n)]. *)
Definition candidates (x : number) (p q n : Z) (k : Z) : option (Z * Z) :=
  let '(sp, sq) := decimal 1 (n - k) in
  (* p/q / (sp/sq) = (p * sq) / (q * sp) *)
  let lo := (p * sq) / (q * sp) in
  let rem2 := 2 * ((p * sq) mod (q * sp)) in
  let hi := lo + 1 in
  let norm s := if s =? 10 ^ k then (10 ^ (k - 1), n + 1) else (s, n) in
  let ok s := (10 ^ (k - 1) <=? s) && reads_back x s (n - k) in
  match ok lo, ok hi with
  | true, true =>
      match rem2 ?= q * sp with
      | Lt => Some (norm lo)
      | Gt => Some (norm hi)
      | Eq => Some (norm (if Z.even lo then lo else hi))
      end
  | true, false => Some (norm lo)
  | false, true => Some (norm hi)
  | false, false => None
  end.

Fixpoint shortest (fuel : nat) (x : number) (p q n k : Z) : Z * Z * Z :=
  match fuel with
  | O => (0, k, n)
  | S fuel' =>
      match candidates x p q n k with
      | Some (s, n') => (s, k, n')
      | None => shortest fuel' x p q n (k + 1)
      end
  end.

Definition substring_from (i : nat) (s : string) : string :=
  String.substring i (String.length s - i) s.

Definition exponent_part (n : Z) : string :=
  if 0 <=? n - 1 then "e+" +:+ digits_of_Z (n - 1)
  else "e-" +:+ digits_of_Z (1 - n).

Definition to_string_pos (x : number) (m : positive) (e : Z) : string :=
  let '(p, q) := magnitude m e in
  let '(s, k, n) := shortest 17 x p q (decimal_exponent p q) 1 in
  let ds := digits_of_Z s in
  if (k <=? n) && (n <=? 21) then ds +:+ zeros (Z.to_nat (n - k))
  else if (0 <? n) && (n <=? 21) then
    String.substring 0 (Z.to_nat n) ds +:+ "." +:+ substring_from (Z.to_nat n) ds
  else if (-6 <? n) && (n <=? 0) then
    "0." +:+ zeros (Z.to_nat (- n)) +:+ ds
  else if k =? 1 then ds +:+ exponent_part n
  else String.substring 0 1 ds +:+ "." +:+ substring_from 1 ds +:+ exponent_part n.

Definition to_string (x : number) : string :=
  match x with
  | S754_nan => "NaN"
  | S754_zero _ => "0"
  | S754_infinity false => "Infinity"
  | S754_infinity true => "-Infinity"
  | S754_finite false m e => to_string_pos x m e
  | S754_finite true m e => "-" +:+ to_string_pos (S754_finite false m e) m e
  end.

(** *** Number.prototype.toFixed *)

(** The integer [n] for which [n / 10^f - m * 2^e] is as close to zero as
    possible, the larger one when there are two. *)
Definition scaled_round (f : nat) (m : positive) (e : Z) : Z :=
  let p := Zpos m * 10 ^ Z.of_nat f in
  if 0 <=? e then p * 2 ^ e else (2 * p + 2 ^ (- e)) / 2 ^ (1 - e).

Definition fixed_digits (f : nat) (n : Z) : string :=
  let ds := digits_of_Z n in
  let ds := if (String.length ds <=? f)%nat
            then zeros (f + 1 - String.length ds) +:+ ds else ds in
  let k := String.length ds in
  if (f =? 0)%nat then ds
  else String.substring 0 (k - f) ds +:+ "." +:+ substring_from (k - f) ds.

Definition ge_1e21 (m : positive) (e : Z) : bool :=
  let '(p, q) := magnitude m e in 10 ^ 21 * q <=? p.

Definition toFixed (f : nat) (x : number) : string :=
  match x with
  | S754_nan | S754_infinity _ => to_string x
  | S754_zero _ => fixed_digits f 0
  | S754_finite s m e =>
      (if s then "-" else "") +:+
      (if ge_1e21 m e then to_string (S754_finite false m e)
       else fixed_digits f (scaled_round f m e))
  end.

(** *** parseFloat

    The longest prefix that is a [StrDecimalLiteral], after leading white
    space; [NaN] when there is none. *)

Definition digit_of (c : ascii) : option Z :=
  let n := Z.of_N (N_of_ascii c) in
  if (48 <=? n) && (n <=? 57) then Some (n - 48) else None.

Definition is_space (c : ascii) : bool :=
  let n := Z.of_N (N_of_ascii c) in
  (n =? 32) || ((9 <=? n) && (n <=? 13)).

Fixpoint skip_spaces (s : string) : string :=
  match s with
  | String c rest => if is_space c then skip_spaces rest else s
  | EmptyString => s
  end.

(** Reads decimal digits: the value read after [acc], how many digits were
    read, and the rest of the input. *)
Fixpoint read_digits (s : string) (acc : Z) (count : nat) : Z * nat * string :=
  match s with
  | String c rest =>
      match digit_of c with
      | Some d => read_digits rest (10 * acc + d) (S count)
      | None => (acc, count, s)
      end
  | EmptyString => (acc, count, s)
  end.

Definition read_sign (s : string) : bool * string :=
  match s with
  | String "-" rest => (true, rest)
  | String "+" rest => (false, rest)
  | _ => (false, s)
  end.

Definition read_exponent (s : string) : Z :=
  match s with
  | String c rest =>
      if (Ascii.eqb c "e" || Ascii.eqb c "E")%bool then
        let '(neg, rest') := read_sign rest in
        let '(v, count, _) := read_digits rest' 0 0%nat in
        if (count =? 0)%nat then 0 else if neg then - v else v
      else 0
  | EmptyString => 0
  end.

Definition parseFloat (input : string) : number :=
  let '(neg, s) := read_sign (skip_spaces input) in
  if String.prefix "Infinity" s then S754_infinity neg
  else
    let '(ip, icount, s1) := read_digits s 0 0%nat in
    let '(digits, fcount, s2) :=
      match s1 with
      | String "." rest => read_digits rest ip 0%nat
      | _ => (ip, 0%nat, s1)
      end in
    if ((icount + fcount)%nat =? 0)%nat then NaN
    else
      let '(p, q) := decimal digits (read_exponent s2 - Z.of_nat fcount) in
      of_ratio neg p q.

(** *** Digit strings

    The strings made of decimal digits only, and the integer such a string
    denotes when read after [acc]. *)

Fixpoint all_digits (s : string) : bool :=
  match s with
  | String c rest =>
      match digit_of c with
      | Some _ => all_digits rest
      | None => false
      end
  | EmptyString => true
  end.

Fixpoint value_of (s : string) (acc : Z) : Z :=
  match s with
  | String c rest =>
      match digit_of c with
      | Some d => value_of rest (10 * acc + d)
      | None => acc
      end
  | EmptyString => acc
  end.

(** The integer a [Decimal.uint] denotes when read after [acc]. *)
Fixpoint uint_value (d : Decimal.uint) (acc : Z) : Z :=
  match d with
  | Decimal.Nil => acc
  | Decimal.D0 l => uint_value l (10 * acc)
  | Decimal.D1 l => uint_value l (10 * acc + 1)
  | Decimal.D2 l => uint_value l (10 * acc + 2)
  | Decimal.D3 l => uint_value l (10 * acc + 3)
  | Decimal.D4 l => uint_value l (10 * acc + 4)
  | Decimal.D5 l => uint_value l (10 * acc + 5)
  | Decimal.D6 l => uint_value l (10 * acc + 6)
  | Decimal.D7 l => uint_value l (10 * acc + 7)
  | Decimal.D8 l => uint_value l (10 * acc + 8)
  | Decimal.D9 l => uint_value l (10 * acc + 9)
  end.

(** *** Addition, subtraction and order *)

Definition add (x y : number) : number := SFadd prec emax x y.
Definition sub (x y : number) : number := SFsub prec emax x y.

(** The numbers in normal form; every number a JavaScript value carries
    is one. *)
Definition valid (x : number) : bool := valid_binary prec emax x.

(** The largest finite number, and one half. *)
Definition MAX_VALUE : number := S754_finite false (2 ^ 53 - 1) 971.
Definition half : number := S754_finite false (2 ^ 52) (-53).

(** The value of a finite number, and the order of the finite numbers by
    their values. *)
Definition value (x : number) : Q := default 0%Q (to_Q x).

Definition leb (x y : number) : bool :=
  match to_Q x, to_Q y with
  | Some p, Some q => Qle_bool p q
  | _, _ => false
  end.

(** *** Rounding, in integers

    What follows serves the proofs about rounding.  Magnitudes are compared
    as integers, in units of [2^-1200]: the magnitude [m * 2^e] is
    [scaled m e] units when [-1200 <= e]. *)
Definition bias : Z := 1200.

Definition scaled (m : positive) (e : Z) : Z := Zpos m * 2 ^ (e + bias).

(** The value of a finite number in units of [2^-1200]. *)
Definition units (x : number) : Z :=
  match x with
  | S754_finite s m e => cond_Zopp s (scaled m e)
  | _ => 0
  end.

(** The finite numbers whose exponent is not below the least one. *)
Definition settled (x : number) : bool :=
  match x with
  | S754_zero _ => true
  | S754_finite _ _ e => -1074 <=? e
  | _ => false
  end.

(** The magnitudes of the numbers in normal form, zero among them. *)
Definition representable (u : Z) : Prop :=
  u = 0 \/ exists (m : positive) (e : Z),
             bounded prec emax m e = true /\ u = scaled m e.

(** Shifting a mantissa to the right by [k] bits: the quotient is what is
    kept, and nothing is recorded as lost when the division is exact. *)
Definition shifted (m0 k : Z) (mrs : shr_record) : Prop :=
  shr_m mrs = m0 / 2 ^ k /\
  (m0 mod 2 ^ k = 0 -> shr_r mrs = false /\ shr_s mrs = false).

(** What rounding makes of the mantissa [N] at the exponent [e]: zero, a
    finite number, or infinity when the exponent is too large. *)
Definition pack (s : bool) (m : positive) (e : Z) : number :=
  if e <=? emax - prec then S754_finite s m e else S754_infinity s.

Definition rounded (s : bool) (N e : Z) : number :=
  if N =? 0 then S754_zero s
  else if N =? 2 ^ 53 then pack s (2 ^ 52) (e + 1)
  else pack s (Z.to_pos N) e.

End Number.

(** ** JavaScript values *)

Module JS.

#[warnings="-register-all"]
Inductive value : Type :=
| Undefined
| Null
| Boolean (b : bool)
| Num (x : Number.number)
| Str (s : string)
| Object (fields : list (string * value)).

(** The [typeof] operator; [null] is an ["object"]. *)
Definition typeof (v : value) : string :=
  match v with
  | Undefined => "undefined"
  | Null => "object"
  | Boolean _ => "boolean"
  | Num _ => "number"
  | Str _ => "string"
  | Object _ => "object"
  end.

Fixpoint field (k : string) (fields : list (string * value)) : value :=
  match fields with
  | [] => Undefined
  | (k', v) :: rest => if String.eqb k k' then v else field k rest
  end.

(** Property read [v.k]: a [TypeError] on [undefined] and [null]. *)
Definition get (v : value) (k : string) : value + string :=
  match v with
  | Undefined | Null => inr "TypeError"
  | Object fields => inl (field k fields)
  | _ => inl Undefined
  end.

End JS.

(** ** Histogram accumulator *)

Module Histogram.

(** Modelled from the spec: the histogram class ([utils/metrics/histogram])
    is not among the sources.  The spec gives it a fixed-capacity sample
    window with a replacement policy on overflow, drops values that are not
    finite numbers (counted, not folded), and computes a percentile by
    sorting the retained window and interpolating linearly between order
    statistics; an empty accumulator yields the "no data" value, here
    [None].  What the spec leaves open is a parameter: the capacity, the
    slot a sample takes once the window is full, and the fractional
    position of a rank among [n] sorted samples.  The samples are
    JavaScript numbers and the interpolation is computed on them, in
    binary64. *)
Record Policy : Type := {
  capacity : nat;
  slot : nat -> nat;
  position : Q -> nat -> Q
}.

Record t : Type := { seen : nat; window : list Number.number }.

Definition create : t := {| seen := 0; window := [] |}.

Section WithPolicy.

Context (policy : Policy).

(** Modelled from the spec: the bounded sample window of the histogram.  A
    sample fills the window while there is room; afterwards it takes the
    slot the policy names, or is not retained when that slot is out of the
    window. *)
Definition retain (x : Number.number) (h : t) : list Number.number :=
  if (length (window h) <? capacity policy)%nat then window h ++ [x]
  else <[slot policy (seen h) := x]> (window h).

Definition observe (x : Number.number) (h : t) : t :=
  {| seen := S (seen h); window := retain x h |}.

Definition skip (h : t) : t :=
  {| seen := S (seen h); window := window h |}.

(** The finite number carried by a JavaScript value, if any. *)
Definition finite_value (v : JS.value) : option Number.number :=
  match v with
  | JS.Num x => if Number.is_finite x then Some x else None
  | _ => None
  end.

(** Modelled from the spec: [update(value)] of the histogram, which counts
    every value and folds the finite numbers only. *)
Definition update (v : JS.value) (h : t) : t :=
  match finite_value v with
  | Some x => observe x h
  | None => skip h
  end.

Fixpoint insert_sorted (x : Number.number) (l : list Number.number) :
    list Number.number :=
  match l with
  | [] => [x]
  | y :: rest => if Number.leb x y then x :: l else y :: insert_sorted x rest
  end.

Definition sort (l : list Number.number) : list Number.number :=
  foldr insert_sorted [] l.

(** The [i]-th smallest sample, counting from 1. *)
Definition order_statistic (xs : list Number.number) (i : Z) : Number.number :=
  nth (Z.to_nat (i - 1)) xs (S754_zero false).

(** The weight of the upper sample: the fractional part of the position,
    as a number. *)
Definition weight (pos : Q) : Number.number :=
  let f := Qred (pos - inject_Z (Qfloor pos)) in
  Number.of_ratio false (Qnum f) (Zpos (Qden f)).

(** Modelled from the spec: linear interpolation between the two order
    statistics around the position, [lower + weight * (upper - lower)] in
    the arithmetic of the numbers. *)
Definition interpolate (xs : list Number.number) (pos : Q) : option Number.number :=
  match xs with
  | [] => None
  | x0 :: _ =>
      if Qle_bool 1 pos then
        if Qle_bool (inject_Z (Z.of_nat (length xs))) pos
        then Some (List.last xs x0)
        else
          let lower := order_statistic xs (Qfloor pos) in
          let upper := order_statistic xs (Qceiling pos) in
          Some (Number.add lower
                  (Number.mul (weight pos) (Number.sub upper lower)))
      else Some x0
  end.

(** Modelled from the spec: the value at a rank, read off the sorted window
    by linear interpolation; [None] is the "no data" value. *)
Definition percentile (rank : Q) (h : t) : option Number.number :=
  interpolate (sort (window h)) (position policy rank (length (window h))).

(** Modelled from the spec: [percentiles(ranks)] of the histogram, a
    mapping from each requested rank to its value. *)
Definition percentiles (ranks : list Q) (h : t) : list (Q * option Number.number) :=
  map (fun rank => (rank, percentile rank h)) ranks.

(** Reading [result[rank]]. *)
Fixpoint at_rank (rank : Q) (result : list (Q * option Number.number)) :
    option Number.number :=
  match result with
  | [] => None
  | (r, v) :: rest => if Qeq_bool r rank then v else at_rank rank rest
  end.

(** The handler of the p50 metrics: [percentiles([0.5])[0.5]]. *)
Definition p50 (h : t) : option Number.number :=
  at_rank (1 # 2)%Q (percentiles [(1 # 2)%Q] h).

Definition p95 (h : t) : option Number.number :=
  at_rank (95 # 100)%Q (percentiles [(95 # 100)%Q] h).

(** A sequence of updates, first to last. *)
Definition update_all (vs : list JS.value) (h : t) : t :=
  fold_left (fun h v => update v h) vs h.

(** The observations that are folded: the finite numbers among them. *)
Definition folded (vs : list JS.value) : list Number.number := omap finite_value vs.

End WithPolicy.

(** Between two numbers, by value. *)
Definition between (lo hi x : Number.number) : Prop :=
  Number.leb lo x = true /\ Number.leb x hi = true.

Definition least (x : Number.number) (xs : list Number.number) : Number.number :=
  foldr (fun y m => if Number.leb y m then y else m) x xs.

Definition greatest (x : Number.number) (xs : list Number.number) : Number.number :=
  foldr (fun y m => if Number.leb m y then y else m) x xs.

(** In ascending order of value. *)
Definition ascending (l : list Number.number) : Prop :=
  StronglySorted (fun x y => (Number.units x <= Number.units y)%Z) l.

(** The policy puts the rank one half on a sample or half-way between two
    samples. *)
Definition halves (policy : Policy) : Prop :=
  forall n : nat, exists k : Z, (position policy (1 # 2) n == k # 2)%Q.

(** The observations are no further apart than the largest finite number
    is from zero, so that the difference of two of them does not overflow. *)
Definition spread_fits (l : list Number.number) : Prop :=
  match l with
  | [] => True
  | x :: xs =>
      (Number.value (greatest x xs) - Number.value (least x xs)
       <= Number.value Number.MAX_VALUE)%Q
  end.

(** A ring buffer of 1028 samples, with the rank [r] among [n] samples at
    position [r * (n + 1)]. *)
Definition ring : Policy :=
  {| capacity := 1028;
     slot := fun count => (count mod 1028)%nat;
     position := fun rank n => (rank * inject_Z (Z.of_nat n + 1))%Q |}.

End Histogram.

(** ** Transport channel *)

Module Channel.

(** Modelled from the spec: the IPC transport ([transports/IPCTransport])
    is not among the sources; only the [Transport] interface is.  The spec
    gives the channel a connection state, a bounded outbound queue that
    drops its oldest entry when a payload arrives while it is full, and a
    drain of the queue, in order, when the channel becomes connected. *)
Inductive state : Type := disconnected | connecting | connected | closing.

Section WithPayload.

Context {Payload : Type}.

Definition message : Type := (string * Payload)%type.

Record t : Type := {
  status : state;
  bound : nat;
  queue : list message;
  wire : list message
}.

Definition init (bound : nat) : t :=
  {| status := disconnected; bound := bound; queue := []; wire := [] |}.

Definition enqueue (m : message) (c : t) : list message :=
  if (length (queue c) <? bound c)%nat then queue c ++ [m]
  else List.tl (queue c) ++ [m].

(** Modelled from the spec: [send(topic, payload)] of the IPC transport.  A
    connected channel delivers; a channel that is not connected buffers,
    dropping the oldest entry of a full queue; a closing channel discards. *)
Definition send (topic : string) (payload : Payload) (c : t) : t :=
  match status c with
  | connected =>
      {| status := connected; bound := bound c; queue := queue c;
         wire := wire c ++ [(topic, payload)] |}
  | closing => c
  | s =>
      {| status := s; bound := bound c;
         queue := enqueue (topic, payload) c; wire := wire c |}
  end.

Definition connect (c : t) : t :=
  match status c with
  | disconnected =>
      {| status := connecting; bound := bound c; queue := queue c;
         wire := wire c |}
  | _ => c
  end.

(** Modelled from the spec: the transition of the IPC transport to
    [connected], which drains the queue onto the wire. *)
Definition established (c : t) : t :=
  match status c with
  | connecting =>
      {| status := connected; bound := bound c; queue := [];
         wire := wire c ++ queue c |}
  | _ => c
  end.

Definition lost (c : t) : t :=
  match status c with
  | connected | connecting =>
      {| status := disconnected; bound := bound c; queue := queue c;
         wire := wire c |}
  | _ => c
  end.

Definition destroy (c : t) : t :=
  {| status := closing; bound := bound c; queue := []; wire := wire c |}.

Definition send_all (ms : list message) (c : t) : t :=
  fold_left (fun c m => send (fst m) (snd m) c) ms c.

End WithPayload.

Arguments t : clear implicits.
Arguments message : clear implicits.

End Channel.

(** ** The process environment of the probes

    The service locator, the metric service, the runtime-statistics emitter,
    the timers of the event loop and the debug log.  Gauges and histograms
    are mutable objects shared between a probe and the metric service: they
    live in stores and are named by their index. *)

Module Env.

(** What a registered metric reads its value from. *)
Inductive source : Type :=
| Gauge (g : nat)
| Percentile (h : nat) (rank : Q)
| Mean (h : nat).

Record Metric : Type := {
  metric_name : string;
  metric_id : string;
  metric_unit : option string;
  metric_historic : option bool;
  metric_source : source
}.

Inductive callback : Type :=
| V8Sample
| ForeignCallback (n : nat).

Record Timer : Type := {
  timer_id : nat;
  timer_interval : Z;
  timer_unref : bool;
  timer_callback : callback
}.

(** A listener of the ['data'] event: a [handle] closure of the runtime
    probe, with its identity and the two histograms it captured, or a
    listener of some other code. *)
Inductive listener : Type :=
| Handle (closure newHistogram oldHistogram : nat)
| ForeignListener (n : nat).

#[global] Instance listener_eq_dec : EqDecision listener.
Proof. solve_decision. Defined.

Inductive service : Type := MetricService | RuntimeStatsService.

Record World : Type := {
  metrics : option (list Metric);
  runtimeStats : option (list listener);
  getHeapStatistics : bool;
  timers : list Timer;
  fresh : nat;
  gauges : list (option JS.value);
  histograms : list Histogram.t;
  debug : list (string * string)
}.

Definition set_metrics (x : option (list Metric)) (w : World) : World :=
  {| metrics := x; runtimeStats := runtimeStats w;
     getHeapStatistics := getHeapStatistics w; timers := timers w;
     fresh := fresh w; gauges := gauges w; histograms := histograms w;
     debug := debug w |}.

Definition set_runtimeStats (x : option (list listener)) (w : World) : World :=
  {| metrics := metrics w; runtimeStats := x;
     getHeapStatistics := getHeapStatistics w; timers := timers w;
     fresh := fresh w; gauges := gauges w; histograms := histograms w;
     debug := debug w |}.

Definition set_timers (x : list Timer) (w : World) : World :=
  {| metrics := metrics w; runtimeStats := runtimeStats w;
     getHeapStatistics := getHeapStatistics w; timers := x;
     fresh := fresh w; gauges := gauges w; histograms := histograms w;
     debug := debug w |}.

Definition set_fresh (x : nat) (w : World) : World :=
  {| metrics := metrics w; runtimeStats := runtimeStats w;
     getHeapStatistics := getHeapStatistics w; timers := timers w;
     fresh := x; gauges := gauges w; histograms := histograms w;
     debug := debug w |}.

Definition set_gauges (x : list (option JS.value)) (w : World) : World :=
  {| metrics := metrics w; runtimeStats := runtimeStats w;
     getHeapStatistics := getHeapStatistics w; timers := timers w;
     fresh := fresh w; gauges := x; histograms := histograms w;
     debug := debug w |}.

Definition set_histograms (x : list Histogram.t) (w : World) : World :=
  {| metrics := metrics w; runtimeStats := runtimeStats w;
     getHeapStatistics := getHeapStatistics w; timers := timers w;
     fresh := fresh w; gauges := gauges w; histograms := x;
     debug := debug w |}.

Definition set_debug (x : list (string * string)) (w : World) : World :=
  {| metrics := metrics w; runtimeStats := runtimeStats w;
     getHeapStatistics := getHeapStatistics w; timers := timers w;
     fresh := fresh w; gauges := gauges w; histograms := histograms w;
     debug := x |}.

(** [Debug(namespace)(message)] *)
Definition log (namespace message : string) (w : World) : World :=
  set_debug (debug w ++ [(namespace, message)]) w.

(** [ServiceManager.get(name)]: the service registered under the name, or
    [undefined].  The service manager ([serviceManager]) is not among the
    sources; its lookup is all the probes use. *)
Definition ServiceManager_get (name : string) (w : World) : option service :=
  if String.eqb name "metrics" then
    match metrics w with Some _ => Some MetricService | None => None end
  else if String.eqb name "runtimeStats" then
    match runtimeStats w with Some _ => Some RuntimeStatsService | None => None end
  else None.

(** *** Timers *)

Definition setInterval (cb : callback) (interval : Z) (w : World) : nat * World :=
  let t := {| timer_id := fresh w; timer_interval := interval;
              timer_unref := false; timer_callback := cb |} in
  (fresh w, set_fresh (S (fresh w)) (set_timers (timers w ++ [t]) w)).

Definition unref_timer (i : nat) (t : Timer) : Timer :=
  if (timer_id t =? i)%nat then
    {| timer_id := timer_id t; timer_interval := timer_interval t;
       timer_unref := true; timer_callback := timer_callback t |}
  else t.

Definition unref (i : nat) (w : World) : World :=
  set_timers (map (unref_timer i) (timers w)) w.

Definition clearInterval (i : nat) (w : World) : World :=
  set_timers (List.filter (fun t => negb (timer_id t =? i)%nat) (timers w)) w.

(** *** The metric service *)

(** Modelled from the spec: the metric service ([services/metrics]) is not
    among the sources.  Registering a metric under an id that is already
    bound replaces that binding; [metric] binds a new gauge, [histogram] a
    new histogram read through its mean. *)
Fixpoint bind_metric (m : Metric) (registry : list Metric) : list Metric :=
  match registry with
  | [] => [m]
  | m' :: rest =>
      if String.eqb (metric_id m') (metric_id m) then m :: rest
      else m' :: bind_metric m rest
  end.

(** The metric bound to an id, if any. *)
Fixpoint binding (id : string) (registry : list Metric) : option Metric :=
  match registry with
  | [] => None
  | m :: rest => if String.eqb (metric_id m) id then Some m else binding id rest
  end.

(** Modelled from the spec: [metricService.registerMetric(definition)]. *)
Definition registerMetric (m : Metric) (w : World) : World :=
  set_metrics (option_map (bind_metric m) (metrics w)) w.

Definition new_gauge (w : World) : nat * World :=
  (length (gauges w), set_gauges (gauges w ++ [None]) w).

(** Modelled from the spec: [gauge.set(value)] of the gauge class
    ([utils/metrics/gauge]), which is not among the sources; the gauge
    holds the value written last. *)
Definition gauge_set (g : nat) (v : JS.value) (w : World) : World :=
  set_gauges (<[g := Some v]> (gauges w)) w.

Definition new_histogram (w : World) : nat * World :=
  (length (histograms w),
   set_histograms (histograms w ++ [Histogram.create]) w).

(** [histogram.update(value)] *)
Definition histogram_update (policy : Histogram.Policy) (h : nat)
    (v : JS.value) (w : World) : World :=
  set_histograms (alter (Histogram.update policy v) h (histograms w)) w.

(** Modelled from the spec: [metricService.metric(definition)], which
    registers the definition and hands back the gauge it is bound to. *)
Definition MetricService_metric (name id unit : string) (historic : bool)
    (w : World) : nat * World :=
  let '(g, w) := new_gauge w in
  (g, registerMetric
        {| metric_name := name; metric_id := id; metric_unit := Some unit;
           metric_historic := Some historic; metric_source := Gauge g |} w).

(** Modelled from the spec: [metricService.histogram(definition)], which
    registers the definition and hands back its histogram. *)
Definition MetricService_histogram (name id : string) (w : World) : nat * World :=
  let '(h, w) := new_histogram w in
  (h, registerMetric
        {| metric_name := name; metric_id := id; metric_unit := None;
           metric_historic := None; metric_source := Mean h |} w).

(** *** The runtime-statistics emitter *)

(** The runtime-statistics service ([services/runtimeStats]) is not among
    the sources; the probe uses it as a Node event emitter: [on] appends
    the listener, [removeListener] removes its most recently added
    occurrence and raises a [TypeError] when what it is given is not a
    function. *)
Definition on_data (l : listener) (w : World) : World :=
  set_runtimeStats (option_map (fun ls => ls ++ [l]) (runtimeStats w)) w.

Fixpoint remove_last (l : listener) (ls : list listener) : list listener :=
  match ls with
  | [] => []
  | x :: rest =>
      if decide (l ∈ rest) then x :: remove_last l rest
      else if decide (x = l) then rest
      else x :: rest
  end.

Definition removeListener (l : option listener) (w : World) : World + string :=
  match l with
  | None => inr "TypeError"
  | Some l => inl (set_runtimeStats (option_map (remove_last l) (runtimeStats w)) w)
  end.

(** Identities handed out so far are below [fresh]. *)
Definition listener_below (n : nat) (l : listener) : Prop :=
  match l with
  | Handle c _ _ => (c < n)%nat
  | ForeignListener _ => True
  end.

Definition well_formed (w : World) : Prop :=
  Forall (fun t => (timer_id t < fresh w)%nat) (timers w) /\
  Forall (listener_below (fresh w)) (default [] (runtimeStats w)).

End Env.

(** ** The V8 heap probe ([V8Metric]) *)

Module V8Metric.

Import Env.

(** [V8MetricsConfig] extends [Record<string, boolean>]: a dictionary from
    names to booleans that carries at least the eight declared flags. *)
Inductive Config : Type :=
| Flag (b : bool)
| Options (c : gmap string bool).

Definition declared_flags : list string :=
  ["new_space"; "old_space"; "map_space"; "code_space"; "large_object_space";
   "heap_total_size"; "heap_used_size"; "heap_used_percent"].

Definition declares (c : gmap string bool) : Prop :=
  Forall (fun k => is_Some (c !! k)) declared_flags.

Definition defaultOptions : gmap string bool :=
  list_to_map
    [("new_space", false); ("old_space", false); ("map_space", false);
     ("code_space", false); ("large_object_space", false);
     ("heap_total_size", true); ("heap_used_size", true);
     ("heap_used_percent", true)].

Record t : Type := {
  timer : option nat;
  metricService : option service;
  metricStore : gmap string nat
}.

Definition create : t :=
  {| timer := None; metricService := None; metricStore := ∅ |}.

Definition TIME_INTERVAL : Z := 800.

Definition namespace : string := "axm:features:metrics:v8".

Definition unitKB : string := "MiB".

Record Definition_ : Type := {
  name : string;
  id : string;
  unit : string;
  historic : bool
}.

(** The keys of [metricsDefinitions] in the order [for ... in] visits them. *)
Definition metricsDefinitions : list (string * Definition_) :=
  [("total_heap_size",
    {| name := "Heap Size"; id := "internal/v8/heap/total";
       unit := unitKB; historic := true |});
   ("heap_used_percent",
    {| name := "Heap Usage"; id := "internal/v8/heap/usage";
       unit := "%"; historic := true |});
   ("used_heap_size",
    {| name := "Used Heap Size"; id := "internal/v8/heap/used";
       unit := unitKB; historic := true |})].

(** One turn of the registration loop. *)
Definition register (config : gmap string bool) (st : t * World)
    (d : string * Definition_) : t * World :=
  let '(self, w) := st in
  match config !! fst d with
  | Some false => st
  | _ =>
      let '(g, w') :=
        MetricService_metric (name (snd d)) (id (snd d)) (unit (snd d))
          (historic (snd d)) w in
      ({| timer := timer self; metricService := metricService self;
          metricStore := <[fst d := g]> (metricStore self) |}, w')
  end.

(** [init(config)], the argument being [None] when it is left out. *)
Definition init (config : option Config) (self : t) (w : World) : t * World :=
  match default (Options defaultOptions) config with
  | Flag false => (self, w)
  | given =>
      let config :=
        match given with Flag _ => defaultOptions | Options c => c end in
      let self :=
        {| timer := timer self;
           metricService := ServiceManager_get "metrics" w;
           metricStore := metricStore self |} in
      match metricService self with
      | None => (self, log namespace "Failed to load metric service" w)
      | Some _ =>
          let w := log namespace "init" w in
          if negb (getHeapStatistics w) then
            (self, log namespace "V8.getHeapStatistics is not available, aborting" w)
          else
            let '(self, w) := fold_left (register config) metricsDefinitions (self, w) in
            let '(i, w) := setInterval V8Sample TIME_INTERVAL w in
            ({| timer := Some i; metricService := metricService self;
                metricStore := metricStore self |}, unref i w)
      end
  end.

Definition formatMiBytes (val : Number.number) : string :=
  Number.toFixed 2
    (Number.div (Number.div val (Number.of_Z 1024)) (Number.of_Z 1024)).

(** A field of the heap statistics used as a number; a field that is not
    there reads as [undefined], which is [NaN] in arithmetic. *)
Definition stat (stats : gmap string Number.number) (k : string) : Number.number :=
  default Number.NaN (stats !! k).

(** One turn of the update loop of the timer callback. *)
Definition refresh (self : t) (stats : gmap string Number.number) (w : World)
    (d : string * Definition_) : World :=
  match stats !! fst d with
  | None => w
  | Some x =>
      match metricStore self !! fst d with
      | None => w
      | Some gauge => gauge_set gauge (JS.Str (formatMiBytes x)) w
      end
  end.

Definition usage (stats : gmap string Number.number) : string :=
  Number.toFixed 2
    (Number.mul
       (Number.div (stat stats "used_heap_size") (stat stats "total_heap_size"))
       (Number.of_Z 100)).

(** The timer callback, [stats] being what [v8.getHeapStatistics()] returns:
    an object whose fields are numbers. *)
Definition tick (stats : gmap string Number.number) (self : t) (w : World) : World :=
  let w := fold_left (refresh self stats) metricsDefinitions w in
  match metricStore self !! "heap_used_percent" with
  | Some usageMetric =>
      gauge_set usageMetric (JS.Num (Number.parseFloat (usage stats))) w
  | None => w
  end.

Definition destroy (self : t) (w : World) : t * World :=
  let w :=
    match timer self with
    | Some i => clearInterval i w
    | None => w
    end in
  (self, log namespace "destroy" w).

(** Calls made on the probe, and their effect in sequence. *)
Inductive call : Type :=
| Init (config : option Config)
| Destroy.

Definition step (st : t * World) (c : call) : t * World :=
  match c with
  | Init config => init config (fst st) (snd st)
  | Destroy => destroy (fst st) (snd st)
  end.

Definition run (calls : list call) (st : t * World) : t * World :=
  fold_left step calls st.

(** No [Init] while the probe is live, that is, after an [Init] that no
    [Destroy] has followed yet. *)
Fixpoint disciplined (live : bool) (calls : list call) : bool :=
  match calls with
  | [] => true
  | Init _ :: rest => negb live && disciplined true rest
  | Destroy :: rest => disciplined false rest
  end.

(** The options [init] works with once booleans and a missing argument
    have been replaced by the defaults. *)
Definition effective (config : option Config) : gmap string bool :=
  match config with
  | Some (Options c) => c
  | _ => defaultOptions
  end.

(** The metric that [metricService.metric] binds for a definition. *)
Definition gauge_metric (d : Definition_) (g : nat) : Metric :=
  {| metric_name := name d; metric_id := id d; metric_unit := Some (unit d);
     metric_historic := Some (historic d); metric_source := Gauge g |}.

(** Whether the registration loop passes over the definition key [k]. *)
Definition skipped (config : gmap string bool) (k : string) : bool :=
  match config !! k with
  | Some false => true
  | _ => false
  end.

(** The registry of the metric service, empty when there is no service. *)
Definition registry (w : World) : list Metric := default [] (metrics w).

(** A configuration that switches off the two declared heap-size flags and,
    besides the declared flags, carries the key of a definition. *)
Definition heap_sizes_off : gmap string bool :=
  <["total_heap_size" := false]>
    (<["heap_total_size" := false]> (<["heap_used_size" := false]> defaultOptions)).

(** What the registration loop leaves untouched, and what it binds. *)
Record registration (c : gmap string bool) (defs : list (string * Definition_))
    (self : t) (w : World) (self' : t) (w' : World) : Prop := {
  reg_timers : timers w' = timers w;
  reg_fresh : fresh w' = fresh w;
  reg_runtimeStats : runtimeStats w' = runtimeStats w;
  reg_debug : debug w' = debug w;
  reg_timer : timer self' = timer self;
  reg_service : metricService self' = metricService self;
  reg_gauges : (length (gauges w) <= length (gauges w'))%nat;
  reg_present : is_Some (metrics w) -> is_Some (metrics w');
  reg_other_keys :
    forall k, k ∉ map fst defs ->
      metricStore self' !! k = metricStore self !! k;
  reg_other_ids :
    forall i, i ∉ map (fun d => id (snd d)) defs ->
      binding i (registry w') = binding i (registry w);
  reg_defs :
    forall k d, (k, d) ∈ defs ->
      if skipped c k then
        metricStore self' !! k = metricStore self !! k /\
        binding (id d) (registry w')
          = binding (id d) (registry w)
      else
        exists g : nat,
          (length (gauges w) <= g < length (gauges w'))%nat /\
          metricStore self' !! k = Some g /\
          (is_Some (metrics w) ->
           binding (id d) (registry w')
             = Some (gauge_metric d g))
}.

(** The declared flags, with the two heap-size flags off. *)
Definition heap_flags_off : gmap string bool :=
  list_to_map
    [("new_space", false); ("old_space", false); ("map_space", false);
     ("code_space", false); ("large_object_space", false);
     ("heap_total_size", false); ("heap_used_size", false);
     ("heap_used_percent", true)].

(** The probe against the world [w0] it was created in: its timer, if it
    ever had one, was handed out after [w0]; the timers are those of [w0],
    with at most the probe's own timer added. *)
Definition owned (w0 : World) (st : t * World) : Prop :=
  (fresh w0 <= fresh (snd st))%nat /\
  (forall i, timer (fst st) = Some i -> (fresh w0 <= i < fresh (snd st))%nat) /\
  (timers (snd st) = timers w0 \/
   exists t, timer (fst st) = Some (timer_id t) /\ timers (snd st) = timers w0 ++ [t]).

Definition idle (w0 : World) (st : t * World) : Prop :=
  owned w0 st /\ timers (snd st) = timers w0.

(** The callbacks the event loop may still run. *)
Definition scheduled (w : World) : list callback :=
  map timer_callback (timers w).

(** Every gauge the store names exists, and no two keys share a gauge. *)
Definition store_sound (st : t * World) : Prop :=
  (forall k g, metricStore (fst st) !! k = Some g ->
               (g < length (gauges (snd st)))%nat) /\
  (forall k k' g, metricStore (fst st) !! k = Some g ->
                  metricStore (fst st) !! k' = Some g -> k = k').

(** The definitions the registration loop does not pass over. *)
Definition enabled (config : gmap string bool) : list (string * Definition_) :=
  List.filter (fun d => negb (skipped config (fst d))) metricsDefinitions.

(** No definition key is bound to the gauge [g]. *)
Definition unbound (self : t) (g : nat) : Prop :=
  forall k d, (k, d) ∈ metricsDefinitions -> metricStore self !! k <> Some g.

End V8Metric.

(** ** The runtime probe ([RuntimeMetrics]) *)

Module RuntimeMetrics.

Import Env.

Record RuntimeMetricsOptions : Type := {
  gcOldPause : bool;
  gcNewPause : bool;
  pageFaults : bool;
  contextSwitchs : bool
}.

Inductive Config : Type :=
| Flag (b : bool)
| Options (o : RuntimeMetricsOptions).

Definition defaultOptions : RuntimeMetricsOptions :=
  {| gcNewPause := true; gcOldPause := true; pageFaults := true;
     contextSwitchs := true |}.

Record t : Type := {
  metricService : option service;
  runtimeStatsService : option service;
  handle : option listener;
  metrics : gmap string nat
}.

Definition create : t :=
  {| metricService := None; runtimeStatsService := None; handle := None;
     metrics := ∅ |}.

Definition namespace : string := "axm:features:metrics:runtime".

(** How a call ends: it returns, or an exception leaves it. *)
Inductive completion (A : Type) : Type :=
| Returned (a : A)
| Threw (error : string) (a : A).

Arguments Returned {A} a.
Arguments Threw {A} error a.

(** The two metrics read from one GC-pause histogram. *)
Definition register_pauses (name50 id50 name95 id95 : string) (h : nat)
    (w : World) : World :=
  let w :=
    registerMetric
      {| metric_name := name50; metric_id := id50; metric_unit := Some "ms";
         metric_historic := Some true;
         metric_source := Percentile h (1 # 2)%Q |} w in
  registerMetric
    {| metric_name := name95; metric_id := id95; metric_unit := Some "ms";
       metric_historic := Some true;
       metric_source := Percentile h (95 # 100)%Q |} w.

Definition set_metrics_map (m : gmap string nat) (self : t) : t :=
  {| metricService := metricService self;
     runtimeStatsService := runtimeStatsService self;
     handle := handle self; metrics := m |}.

(** [init(config)], the argument being [None] when it is left out. *)
Definition init (config : option Config) (self : t) (w : World) : t * World :=
  match config with
  | Some (Flag false) => (self, w)
  | _ =>
      let config :=
        match config with Some (Options o) => o | _ => defaultOptions end in
      let self :=
        {| metricService := ServiceManager_get "metrics" w;
           runtimeStatsService := runtimeStatsService self;
           handle := handle self; metrics := metrics self |} in
      match metricService self with
      | None => (self, log namespace "Failed to load metric service" w)
      | Some _ =>
          let self :=
            {| metricService := metricService self;
               runtimeStatsService := ServiceManager_get "runtimeStats" w;
               handle := handle self; metrics := metrics self |} in
          match runtimeStatsService self with
          | None => (self, log namespace "Failed to load runtime stats service" w)
          | Some _ =>
              let w := log namespace "init" w in
              let '(newHistogram, w) := new_histogram w in
              let w :=
                if gcNewPause config then
                  register_pauses
                    "GC New Space Pause" "internal/v8/gc/new/pause/p50"
                    "GC New Space Pause p95" "internal/v8/gc/new/pause/p95"
                    newHistogram w
                else w in
              let '(oldHistogram, w) := new_histogram w in
              let w :=
                if gcOldPause config then
                  register_pauses
                    "GC Old Space Pause" "internal/v8/gc/old/pause/p50"
                    "GC Old Space Pause p95" "internal/v8/gc/old/pause/p95"
                    oldHistogram w
                else w in
              let '(self, w) :=
                if contextSwitchs config then
                  let '(volontarySwitchs, w) :=
                    MetricService_histogram "Volontary CPU Context Switch"
                      "internal/uv/cpu/contextswitch/volontary" w in
                  let '(inVolontarySwitchs, w) :=
                    MetricService_histogram "Involuntary CPU Context Switch"
                      "internal/uv/cpu/contextswitch/involontary" w in
                  (set_metrics_map
                     (<["volontarySwitchs" := volontarySwitchs]>
                        (<["inVolontarySwitchs" := inVolontarySwitchs]>
                           (metrics self))) self, w)
                else (self, w) in
              let '(self, w) :=
                if pageFaults config then
                  let '(softPageFault, w) :=
                    MetricService_histogram "Minor Page Fault"
                      "internal/uv/memory/pagefault/minor" w in
                  let '(hardPageFault, w) :=
                    MetricService_histogram "Major Page Fault"
                      "internal/uv/memory/pagefault/major" w in
                  (set_metrics_map
                     (<["hardPageFault" := hardPageFault]>
                        (<["softPageFault" := softPageFault]>
                           (metrics self))) self, w)
                else (self, w) in
              let h := Handle (fresh w) newHistogram oldHistogram in
              let w := set_fresh (S (fresh w)) w in
              ({| metricService := metricService self;
                  runtimeStatsService := runtimeStatsService self;
                  handle := Some h; metrics := metrics self |},
               on_data h w)
          end
      end
  end.

Section WithPolicy.

Context (policy : Histogram.Policy).

(** Reads [v.k] and goes on with the value, unless the read throws. *)
Definition reading (v : JS.value) (k : string) (w : World)
    (next : JS.value -> completion World) : completion World :=
  match JS.get v k with
  | inl x => next x
  | inr error => Threw error w
  end.

(** [const m = this.metrics.get(name); if (m !== undefined) m.update(usage.k)] *)
Definition update_metric (self : t) (name : string) (usage : JS.value)
    (k : string) (w : World) (next : World -> completion World) : completion World :=
  match metrics self !! name with
  | None => next w
  | Some h => reading usage k w (fun x => next (histogram_update policy h x w))
  end.

(** The body of [handle], for the closure that captured [newHistogram] and
    [oldHistogram]; [this.metrics] is read from the probe as it is when the
    datum arrives. *)
Definition handle_data (newHistogram oldHistogram : nat) (self : t)
    (stats : JS.value) (w : World) : completion World :=
  if negb (String.eqb (JS.typeof stats) "object") then Returned w
  else
    reading stats "gc" w (fun gc =>
    if negb (String.eqb (JS.typeof gc) "object") then Returned w
    else
      reading gc "newPause" w (fun newPause =>
      let w := histogram_update policy newHistogram newPause w in
      reading gc "oldPause" w (fun oldPause =>
      let w := histogram_update policy oldHistogram oldPause w in
      reading stats "usage" w (fun usage =>
      if negb (String.eqb (JS.typeof usage) "object") then Returned w
      else
        update_metric self "volontarySwitchs" usage "ru_nvcsw" w (fun w =>
        update_metric self "inVolontarySwitchs" usage "ru_nivcsw" w (fun w =>
        update_metric self "softPageFault" usage "ru_minflt" w (fun w =>
        update_metric self "hardPageFault" usage "ru_majflt" w Returned))))))).

(** Running a listener of the ['data'] event. *)
Definition listen (l : listener) (self : t) (stats : JS.value) (w : World) :
    completion World :=
  match l with
  | Handle _ newHistogram oldHistogram =>
      handle_data newHistogram oldHistogram self stats w
  | ForeignListener _ => Returned w
  end.

End WithPolicy.

Definition destroy (self : t) (w : World) : completion (t * World) :=
  match runtimeStatsService self with
  | Some _ =>
      match removeListener (handle self) w with
      | inl w' => Returned (self, log namespace "destroy" w')
      | inr error => Threw error (self, w)
      end
  | None => Returned (self, log namespace "destroy" w)
  end.

(** Calls made on the probe, and their effect in sequence; an exception
    ends the sequence. *)
Inductive call : Type :=
| Init (config : option Config)
| Destroy.

Definition step (st : t * World) (c : call) : completion (t * World) :=
  match c with
  | Init config => Returned (init config (fst st) (snd st))
  | Destroy => destroy (fst st) (snd st)
  end.

Fixpoint run (calls : list call) (st : t * World) : completion (t * World) :=
  match calls with
  | [] => Returned st
  | c :: rest =>
      match step st c with
      | Returned st' => run rest st'
      | Threw error st' => Threw error st'
      end
  end.

Fixpoint disciplined (live : bool) (calls : list call) : bool :=
  match calls with
  | [] => true
  | Init _ :: rest => negb live && disciplined true rest
  | Destroy :: rest => disciplined false rest
  end.

(** The listeners of the ['data'] event. *)
Definition listening (w : World) : list listener :=
  default [] (runtimeStats w).

(** [destroy] has a handle to remove whenever it has a service to remove it
    from. *)
Definition armed (self : t) : Prop :=
  runtimeStatsService self <> None -> handle self <> None.

(** The probe against the world [w0] it was created in: its handle, if it
    ever had one, is a closure made after [w0]; the listeners are those of
    [w0], with at most the probe's own handle added. *)
Definition owned (w0 : World) (st : t * World) : Prop :=
  (fresh w0 <= fresh (snd st))%nat /\
  armed (fst st) /\
  (forall h, handle (fst st) = Some h ->
     exists c n o, h = Handle c n o /\ (fresh w0 <= c < fresh (snd st))%nat) /\
  (listening (snd st) = listening w0 \/
   exists h, handle (fst st) = Some h /\ runtimeStatsService (fst st) <> None /\
             listening (snd st) = listening w0 ++ [h]).

Definition idle (w0 : World) (st : t * World) : Prop :=
  owned w0 st /\ listening (snd st) = listening w0.

(** The registry of the metric service, empty when there is no service. *)
Definition registry (w : World) : list Metric := default [] (Env.metrics w).

(** Every histogram the probe's map names exists. *)
Definition metrics_sound (st : t * World) : Prop :=
  forall k h, metrics (fst st) !! k = Some h ->
              (h < length (histograms (snd st)))%nat.

(** The metrics [init] registers for its histograms. *)
Definition pause_metric (name id : string) (h : nat) (rank : Q) : Metric :=
  {| metric_name := name; metric_id := id; metric_unit := Some "ms";
     metric_historic := Some true; metric_source := Percentile h rank |}.

Definition usage_metric (name id : string) (h : nat) : Metric :=
  {| metric_name := name; metric_id := id; metric_unit := None;
     metric_historic := None; metric_source := Mean h |}.

(** What [init] registers when the histograms it makes start at index [n]:
    each metric with the option that switches it on. *)
Definition registrations (o : RuntimeMetricsOptions) (n : nat) : list (bool * Metric) :=
  let usage := (n + 2)%nat in
  let faults := (if contextSwitchs o then usage + 2 else usage)%nat in
  [(gcNewPause o,
    pause_metric "GC New Space Pause" "internal/v8/gc/new/pause/p50" n (1 # 2)%Q);
   (gcNewPause o,
    pause_metric "GC New Space Pause p95" "internal/v8/gc/new/pause/p95" n (95 # 100)%Q);
   (gcOldPause o,
    pause_metric "GC Old Space Pause" "internal/v8/gc/old/pause/p50" (S n) (1 # 2)%Q);
   (gcOldPause o,
    pause_metric "GC Old Space Pause p95" "internal/v8/gc/old/pause/p95" (S n) (95 # 100)%Q);
   (contextSwitchs o,
    usage_metric "Volontary CPU Context Switch"
      "internal/uv/cpu/contextswitch/volontary" usage);
   (contextSwitchs o,
    usage_metric "Involuntary CPU Context Switch"
      "internal/uv/cpu/contextswitch/involontary" (S usage));
   (pageFaults o,
    usage_metric "Minor Page Fault" "internal/uv/memory/pagefault/minor" faults);
   (pageFaults o,
    usage_metric "Major Page Fault" "internal/uv/memory/pagefault/major" (S faults))].

(** The entries [init] puts into [this.metrics], in the same setting: key,
    switch and histogram. *)
Definition kept (o : RuntimeMetricsOptions) (n : nat) : list (string * (bool * nat)) :=
  let usage := (n + 2)%nat in
  let faults := (if contextSwitchs o then usage + 2 else usage)%nat in
  [("volontarySwitchs", (contextSwitchs o, usage));
   ("inVolontarySwitchs", (contextSwitchs o, S usage));
   ("softPageFault", (pageFaults o, faults));
   ("hardPageFault", (pageFaults o, S faults))].

(** The field of [usage] each entry of [this.metrics] is fed from. *)
Definition usage_fields : list (string * string) :=
  [("volontarySwitchs", "ru_nvcsw"); ("inVolontarySwitchs", "ru_nivcsw");
   ("softPageFault", "ru_minflt"); ("hardPageFault", "ru_majflt")].

(** Feeding one usage histogram from the object [usage], if [this.metrics]
    has it. *)
Definition feed (policy : Histogram.Policy) (self : t)
    (usage : list (string * JS.value)) (w : World) (entry : string * string) : World :=
  match metrics self !! fst entry with
  | Some h => histogram_update policy h (JS.field (snd entry) usage) w
  | None => w
  end.

(** The number of histograms [init] makes. *)
Definition made (o : RuntimeMetricsOptions) : nat :=
  (2 + (if contextSwitchs o then 2 else 0) + (if pageFaults o then 2 else 0))%nat.

(** The options [init] works with. *)
Definition effective (config : option Config) : RuntimeMetricsOptions :=
  match config with
  | Some (Options o) => o
  | _ => defaultOptions
  end.

(** What a successful [init] leaves behind. *)
Record set_up (o : RuntimeMetricsOptions) (self : t)
    (w : World) (st : t * World) : Prop := {
  su_histograms :
    histograms (snd st)
      = histograms w ++ replicate (made o) Histogram.create;
  su_handle :
    handle (fst st)
      = Some (Handle (fresh w) (length (histograms w))
                (S (length (histograms w))));
  su_listening :
    listening (snd st)
      = listening w ++
        [Handle (fresh w) (length (histograms w))
           (S (length (histograms w)))];
  su_fresh : fresh (snd st) = S (fresh w);
  su_timers : timers (snd st) = timers w;
  su_gauges : gauges (snd st) = gauges w;
  su_debug : debug (snd st) = debug w ++ [(namespace, "init")];
  su_kept :
    forall (name : string) (flag : bool) (h : nat),
      (name, (flag, h)) ∈ kept o (length (histograms w)) ->
      metrics (fst st) !! name
        = if flag then Some h else metrics self !! name;
  su_other_keys :
    forall name : string,
      name ∉ map fst (kept o (length (histograms w))) ->
      metrics (fst st) !! name = metrics self !! name;
  su_registered :
    forall (flag : bool) (m : Metric),
      (flag, m) ∈ registrations o (length (histograms w)) ->
      binding (metric_id m) (registry (snd st))
        = if flag then Some m
          else binding (metric_id m) (registry w);
  su_other_ids :
    forall i : string,
      i ∉ map (fun r => metric_id (snd r))
            (registrations o (length (histograms w))) ->
      binding i (registry (snd st))
        = binding i (registry w)
}.

(** Where each registered metric gets its observations from: the object of
    the datum ([gc] or [usage]) and the field in it. *)
Definition observed : list (string * (string * string)) :=
  [("internal/v8/gc/new/pause/p50", ("gc", "newPause"));
   ("internal/v8/gc/new/pause/p95", ("gc", "newPause"));
   ("internal/v8/gc/old/pause/p50", ("gc", "oldPause"));
   ("internal/v8/gc/old/pause/p95", ("gc", "oldPause"));
   ("internal/uv/cpu/contextswitch/volontary", ("usage", "ru_nvcsw"));
   ("internal/uv/cpu/contextswitch/involontary", ("usage", "ru_nivcsw"));
   ("internal/uv/memory/pagefault/minor", ("usage", "ru_minflt"));
   ("internal/uv/memory/pagefault/major", ("usage", "ru_majflt"))].

(** The histogram a metric reads. *)
Definition histogram_of (m : Metric) : option nat :=
  match metric_source m with
  | Percentile h _ | Mean h => Some h
  | Gauge _ => None
  end.

(** Every option off. *)
Definition nothing : RuntimeMetricsOptions :=
  {| gcNewPause := false; gcOldPause := false; pageFaults := false;
     contextSwitchs := false |}.

End RuntimeMetrics.

(** ** The transport factory ([createTransport]) *)

Module Transport.

Record TransportConfig : Type := {
  serverName : option string;
  sendLogs : option bool;
  logFilter : option string;
  proxy : option string
}.

(** What the process has written to its standard error. *)
Record Process : Type := { stderr : list string }.

(** A call either returns to its caller or ends the process. *)
Inductive outcome (A : Type) : Type :=
| Return (a : A) (p : Process)
| Exit (code : Z) (p : Process).

Arguments Return {A} a p.
Arguments Exit {A} code p.

Definition console_error (line : string) (p : Process) : Process :=
  {| stderr := stderr p ++ [line] |}.

Section WithIPC.

(** The IPC transport is not among the sources: [new IPCTransport()]
    followed by [init(config)] is taken as given. *)
Context {IPCTransport : Type}.
Context (IPCTransport_init : TransportConfig -> Process -> outcome IPCTransport).

Definition createTransport (name : string) (config : TransportConfig)
    (p : Process) : outcome IPCTransport :=
  if String.eqb name "ipc" then IPCTransport_init config p
  else
    let p := console_error ("Failed to find transport implementation: " +:+ name) p in
    Exit 1 p.

End WithIPC.

End Transport.

(** ** Sample environments *)

Module Scenario.

Import Env.

(** A process in which no service has been set up. *)
Definition bare : World :=
  {| metrics := None; runtimeStats := None; getHeapStatistics := true;
     timers := []; fresh := 0; gauges := []; histograms := []; debug := [] |}.

(** A process with an empty metric service and a runtime-statistics emitter
    nobody listens to. *)
Definition ready : World :=
  {| metrics := Some []; runtimeStats := Some []; getHeapStatistics := true;
     timers := []; fresh := 0; gauges := []; histograms := []; debug := [] |}.

(** Heap statistics: a heap of 10 MiB, 3512345 bytes of it in use. *)
Definition heap : gmap string Number.number :=
  list_to_map
    [("total_heap_size", Number.of_Z 10485760);
     ("used_heap_size", Number.of_Z 3512345);
     ("heap_size_limit", Number.of_Z 2197815296)].

Definition no_config : Transport.TransportConfig :=
  {| Transport.serverName := None; Transport.sendLogs := None;
     Transport.logFilter := None; Transport.proxy := None |}.

Definition quiet : Transport.Process := {| Transport.stderr := [] |}.

(** An IPC transport whose set-up returns at once. *)
Definition ipc_stub (config : Transport.TransportConfig) (p : Transport.Process) :
    Transport.outcome unit :=
  Transport.Return tt p.

(** A process with an empty metric service whose [v8] module has no
    [getHeapStatistics]. *)
Definition old_v8 : World :=
  {| metrics := Some []; runtimeStats := None; getHeapStatistics := false;
     timers := []; fresh := 0; gauges := []; histograms := []; debug := [] |}.

End Scenario.

(** * Properties *)

(** ** Missing dependencies *)

Lemma V8Metric_init_disabled (self : V8Metric.t) (w : Env.World) :
  V8Metric.init (Some (V8Metric.Flag false)) self w = (self, w).
Proof. reflexivity. Qed.

Lemma V8Metric_init_no_service (config : option V8Metric.Config)
    (self : V8Metric.t) (w : Env.World) :
  Env.metrics w = None ->
  config <> Some (V8Metric.Flag false) ->
  V8Metric.init config self w =
    ({| V8Metric.timer := V8Metric.timer self;
        V8Metric.metricService := None;
        V8Metric.metricStore := V8Metric.metricStore self |},
     Env.log V8Metric.namespace "Failed to load metric service" w).
Proof.
  intros Hm Hc. unfold V8Metric.init.
  assert (Hget : Env.ServiceManager_get "metrics" w = None).
  { unfold Env.ServiceManager_get. simpl. now rewrite Hm. }
  destruct config as [[[|]|c]|]; simpl; try congruence; now rewrite Hget.
Qed.

Lemma RuntimeMetrics_init_disabled (self : RuntimeMetrics.t) (w : Env.World) :
  RuntimeMetrics.init (Some (RuntimeMetrics.Flag false)) self w = (self, w).
Proof. reflexivity. Qed.

Lemma RuntimeMetrics_init_no_metrics (config : option RuntimeMetrics.Config)
    (self : RuntimeMetrics.t) (w : Env.World) :
  Env.metrics w = None ->
  config <> Some (RuntimeMetrics.Flag false) ->
  RuntimeMetrics.init config self w =
    ({| RuntimeMetrics.metricService := None;
        RuntimeMetrics.runtimeStatsService := RuntimeMetrics.runtimeStatsService self;
        RuntimeMetrics.handle := RuntimeMetrics.handle self;
        RuntimeMetrics.metrics := RuntimeMetrics.metrics self |},
     Env.log RuntimeMetrics.namespace "Failed to load metric service" w).
Proof.
  intros Hm Hc. unfold RuntimeMetrics.init.
  assert (Hget : Env.ServiceManager_get "metrics" w = None).
  { unfold Env.ServiceManager_get. simpl. now rewrite Hm. }
  destruct config as [[[|]|c]|]; simpl; try congruence; now rewrite Hget.
Qed.

Lemma RuntimeMetrics_init_no_runtimeStats (config : option RuntimeMetrics.Config)
    (self : RuntimeMetrics.t) (w : Env.World) :
  Env.metrics w <> None ->
  Env.runtimeStats w = None ->
  config <> Some (RuntimeMetrics.Flag false) ->
  RuntimeMetrics.init config self w =
    ({| RuntimeMetrics.metricService := Some Env.MetricService;
        RuntimeMetrics.runtimeStatsService := None;
        RuntimeMetrics.handle := RuntimeMetrics.handle self;
        RuntimeMetrics.metrics := RuntimeMetrics.metrics self |},
     Env.log RuntimeMetrics.namespace "Failed to load runtime stats service" w).
Proof.
  intros Hm Hr Hc. unfold RuntimeMetrics.init.
  assert (Hget : Env.ServiceManager_get "metrics" w = Some Env.MetricService).
  { unfold Env.ServiceManager_get. simpl. destruct (Env.metrics w); congruence. }
  assert (Hget' : Env.ServiceManager_get "runtimeStats" w = None).
  { unfold Env.ServiceManager_get. simpl. now rewrite Hr. }
  destruct config as [[[|]|c]|]; simpl; try congruence;
    rewrite Hget; simpl; now rewrite Hget'.
Qed.

(** ** The transport factory *)

(** C1, as stated, fails: asked for a transport named "http",
    [createTransport] writes its diagnostic to the standard error and ends
    the process with exit code 1; it does not return. *)
Lemma createTransport_http_ends_process :
  Transport.createTransport Scenario.ipc_stub "http" Scenario.no_config Scenario.quiet
    = Transport.Exit 1
        {| Transport.stderr := ["Failed to find transport implementation: http"] |}
  /\ ~ (forall name : string, exists (t : unit) (p : Transport.Process),
          Transport.createTransport Scenario.ipc_stub name Scenario.no_config
            Scenario.quiet = Transport.Return t p).
Proof.
  split; [reflexivity|].
  intros H. destruct (H "http") as (t & p & Hp). discriminate Hp.
Qed.

(** C1, amended: [createTransport "ipc"] is the set-up of the IPC transport;
    with any other name it writes "Failed to find transport implementation:
    <name>" to the standard error and ends the process with exit code 1.  A
    probe that cannot locate its service (and whose configuration is not
    [false]) only logs a diagnostic and returns. *)
Theorem createTransport_exits_unless_ipc
    (T : Type) (ipc : Transport.TransportConfig -> Transport.Process -> Transport.outcome T)
    (name : string) (config : Transport.TransportConfig) (p : Transport.Process) :
  (name = "ipc" -> Transport.createTransport ipc name config p = ipc config p) /\
  (name <> "ipc" ->
     Transport.createTransport ipc name config p
       = Transport.Exit 1
           (Transport.console_error
              ("Failed to find transport implementation: " +:+ name) p)) /\
  (forall (c : option V8Metric.Config) (self : V8Metric.t) (w : Env.World),
     Env.metrics w = None -> c <> Some (V8Metric.Flag false) ->
     snd (V8Metric.init c self w)
       = Env.log V8Metric.namespace "Failed to load metric service" w) /\
  (forall (c : option RuntimeMetrics.Config) (self : RuntimeMetrics.t) (w : Env.World),
     Env.metrics w = None -> c <> Some (RuntimeMetrics.Flag false) ->
     snd (RuntimeMetrics.init c self w)
       = Env.log RuntimeMetrics.namespace "Failed to load metric service" w).
Proof.
  unfold Transport.createTransport. repeat split.
  - intros ->. reflexivity.
  - intros Hn. destruct (String.eqb_spec name "ipc") as [->|_]; [|reflexivity].
    now destruct Hn.
  - intros c self w Hm Hc. now rewrite V8Metric_init_no_service.
  - intros c self w Hm Hc. now rewrite RuntimeMetrics_init_no_metrics.
Qed.

Lemma createTransport_exits_unless_ipc_witness :
  Transport.createTransport Scenario.ipc_stub "http" Scenario.no_config Scenario.quiet
    = Transport.Exit 1
        (Transport.console_error "Failed to find transport implementation: http"
           Scenario.quiet)
  /\ snd (V8Metric.init None V8Metric.create Scenario.bare)
       = Env.log V8Metric.namespace "Failed to load metric service" Scenario.bare.
Proof.
  pose proof (createTransport_exits_unless_ipc unit Scenario.ipc_stub "http"
                Scenario.no_config Scenario.quiet) as (_ & Hexit & Hv8 & _).
  split.
  - apply Hexit. discriminate.
  - apply Hv8; [reflexivity | discriminate].
Defined.

(** ** Probes without their services *)

(** C4, as stated, fails: with the configuration [false] and no metric
    service, [init] returns at once and logs nothing. *)
Lemma init_false_logs_nothing :
  Env.metrics Scenario.bare = None /\
  Env.debug (snd (V8Metric.init (Some (V8Metric.Flag false)) V8Metric.create
                    Scenario.bare)) = [] /\
  Env.debug (snd (RuntimeMetrics.init (Some (RuntimeMetrics.Flag false))
                    RuntimeMetrics.create Scenario.bare)) = [].
Proof. repeat split. Qed.

(** C4, amended: when the metric service (for the runtime probe: or the
    runtime-statistics service) cannot be located, [init] leaves the world
    as it is but for the debug log, so no metric is registered, no timer
    started and no listener attached, and it leaves the probe's timer,
    handle and stores as they are; it logs one diagnostic when the
    configuration is not [false], and nothing when it is [false]. *)
Theorem init_without_service_is_inert (w : Env.World) :
  (forall (c : option V8Metric.Config) (self : V8Metric.t),
     Env.metrics w = None ->
     let '(self', w') := V8Metric.init c self w in
     w' = Env.set_debug
            (Env.debug w ++
               match c with
               | Some (V8Metric.Flag false) => []
               | _ => [(V8Metric.namespace, "Failed to load metric service")]
               end) w /\
     V8Metric.timer self' = V8Metric.timer self /\
     V8Metric.metricStore self' = V8Metric.metricStore self) /\
  (forall (c : option RuntimeMetrics.Config) (self : RuntimeMetrics.t),
     Env.metrics w = None \/ Env.runtimeStats w = None ->
     let '(self', w') := RuntimeMetrics.init c self w in
     w' = Env.set_debug
            (Env.debug w ++
               match c with
               | Some (RuntimeMetrics.Flag false) => []
               | _ => [(RuntimeMetrics.namespace,
                        match Env.metrics w with
                        | None => "Failed to load metric service"
                        | Some _ => "Failed to load runtime stats service"
                        end)]
               end) w /\
     RuntimeMetrics.handle self' = RuntimeMetrics.handle self /\
     RuntimeMetrics.metrics self' = RuntimeMetrics.metrics self).
Proof.
  assert (Hsame : Env.set_debug (Env.debug w ++ []) w = w).
  { rewrite app_nil_r. now destruct w. }
  split.
  - intros c self Hm.
    destruct c as [[[|]|options]|];
      [ | rewrite V8Metric_init_disabled, Hsame; now repeat split | | ];
      (rewrite V8Metric_init_no_service by (assumption || discriminate));
      now repeat split.
  - intros c self Hm.
    destruct c as [[[|]|options]|];
      [ | rewrite RuntimeMetrics_init_disabled, Hsame; now repeat split | | ];
      (destruct (Env.metrics w) as [registry|] eqn:Hreg;
       [ destruct Hm as [Hm|Hr]; [discriminate|];
         rewrite RuntimeMetrics_init_no_runtimeStats by congruence
       | rewrite RuntimeMetrics_init_no_metrics by (assumption || discriminate) ]);
      now repeat split.
Qed.

Lemma init_without_service_is_inert_witness :
  V8Metric.init None V8Metric.create Scenario.bare
    = (V8Metric.create,
       Env.set_debug [(V8Metric.namespace, "Failed to load metric service")]
         Scenario.bare).
Proof.
  pose proof (proj1 (init_without_service_is_inert Scenario.bare) None
                V8Metric.create eq_refl) as H.
  destruct (V8Metric.init None V8Metric.create Scenario.bare) as [self' w'] eqn:E.
  destruct H as (Hw & Ht & Hs). subst w'.
  inversion E; reflexivity.
Defined.

(** ** The outbound queue of the channel *)

Lemma keep_newest_app {A : Type} (q : list A) (x : A) (ms : list A) (b : nat) :
  let kept := drop (length (q ++ [x]) - b) (q ++ [x]) in
  drop (length (kept ++ ms) - b) (kept ++ ms)
    = drop (length (q ++ x :: ms) - b) (q ++ x :: ms).
Proof.
  intros kept. subst kept.
  replace (q ++ x :: ms) with ((q ++ [x]) ++ ms) by now rewrite <- app_assoc.
  generalize (q ++ [x]). intros l.
  rewrite <- (drop_app_le l ms (length l - b)) by lia.
  rewrite drop_drop. f_equal.
  rewrite length_drop, !length_app. lia.
Qed.

Section ChannelQueue.

Context {Payload : Type}.

Implicit Types (c : Channel.t Payload) (m : Channel.message Payload).

Lemma enqueue_keeps_newest c m :
  (0 < Channel.bound c)%nat ->
  (length (Channel.queue c) <= Channel.bound c)%nat ->
  Channel.enqueue m c
    = drop (length (Channel.queue c ++ [m]) - Channel.bound c)
        (Channel.queue c ++ [m]).
Proof.
  intros Hpos Hlen. unfold Channel.enqueue. rewrite length_app. simpl.
  destruct (Nat.ltb_spec (length (Channel.queue c)) (Channel.bound c)) as [Hlt|Hge].
  - replace (length (Channel.queue c) + 1 - Channel.bound c)%nat with 0%nat by lia.
    reflexivity.
  - replace (length (Channel.queue c) + 1 - Channel.bound c)%nat with 1%nat by lia.
    destruct (Channel.queue c) as [|x q]; [simpl in *; lia | reflexivity].
Qed.

Lemma send_disconnected c topic (payload : Payload) :
  Channel.status c = Channel.disconnected ->
  Channel.send topic payload c
    = {| Channel.status := Channel.disconnected;
         Channel.bound := Channel.bound c;
         Channel.queue := Channel.enqueue (topic, payload) c;
         Channel.wire := Channel.wire c |}.
Proof. intros H. unfold Channel.send. now rewrite H. Qed.

Lemma send_all_disconnected (ms : list (Channel.message Payload)) :
  forall c,
    Channel.status c = Channel.disconnected ->
    (0 < Channel.bound c)%nat ->
    (length (Channel.queue c) <= Channel.bound c)%nat ->
    Channel.send_all ms c
      = {| Channel.status := Channel.disconnected;
           Channel.bound := Channel.bound c;
           Channel.queue :=
             drop (length (Channel.queue c ++ ms) - Channel.bound c)
               (Channel.queue c ++ ms);
           Channel.wire := Channel.wire c |}.
Proof.
  induction ms as [|[topic payload] ms IH]; intros c Hs Hpos Hlen.
  - simpl. rewrite app_nil_r.
    replace (length (Channel.queue c) - Channel.bound c)%nat with 0%nat by lia.
    destruct c; simpl in *; now subst.
  - unfold Channel.send_all in *. simpl.
    rewrite send_disconnected by assumption.
    rewrite IH; [ | reflexivity | assumption | ]; cbn [Channel.queue Channel.bound Channel.wire].
    + rewrite enqueue_keeps_newest by assumption.
      f_equal. apply keep_newest_app.
    + rewrite enqueue_keeps_newest by assumption.
      rewrite length_drop, length_app. simpl. lia.
Qed.

(** C2: payloads sent while the channel is disconnected are buffered up to
    the bound of the queue; a send that finds the queue full evicts its
    oldest entry and keeps the newest; what is buffered is the newest part
    of what was submitted, in submission order, and reaching the connected
    state puts exactly that on the wire, in that order. *)
Theorem disconnected_sends_are_buffered_in_order
    (c : Channel.t Payload) (ms : list (Channel.message Payload)) :
  Channel.status c = Channel.disconnected ->
  (0 < Channel.bound c)%nat ->
  (length (Channel.queue c) <= Channel.bound c)%nat ->
  let c' := Channel.send_all ms c in
  let submitted := Channel.queue c ++ ms in
  Channel.status c' = Channel.disconnected /\
  Channel.wire c' = Channel.wire c /\
  (length (Channel.queue c') <= Channel.bound c)%nat /\
  Channel.queue c' = drop (length submitted - Channel.bound c) submitted /\
  (forall m, last ms = Some m -> last (Channel.queue c') = Some m) /\
  (forall topic payload,
     length (Channel.queue c') = Channel.bound c ->
     Channel.queue (Channel.send topic payload c')
       = List.tl (Channel.queue c') ++ [(topic, payload)]) /\
  Channel.wire (Channel.established (Channel.connect c'))
    = Channel.wire c ++ Channel.queue c' /\
  Channel.queue (Channel.established (Channel.connect c')) = [].
Proof.
  intros Hs Hpos Hlen c' submitted. subst c' submitted.
  rewrite send_all_disconnected by assumption. simpl.
  repeat split.
  - rewrite length_drop. lia.
  - intros m Hm.
    destruct ms as [|m0 ms] using rev_ind; [discriminate|].
    rewrite last_snoc in Hm. injection Hm as ->.
    rewrite app_assoc.
    rewrite drop_app_le by (rewrite !length_app; simpl; lia).
    apply last_snoc.
  - intros topic payload Hfull. unfold Channel.send, Channel.enqueue. simpl.
    rewrite Hfull, Nat.ltb_irrefl. reflexivity.
Qed.

End ChannelQueue.

Lemma disconnected_sends_are_buffered_in_order_witness :
  Channel.queue
    (Channel.send_all [("a", 1%nat); ("b", 2%nat); ("c", 3%nat)] (Channel.init 2))
    = [("b", 2%nat); ("c", 3%nat)]
  /\ Channel.wire
       (Channel.established
          (Channel.connect
             (Channel.send_all [("a", 1%nat); ("b", 2%nat); ("c", 3%nat)]
                (Channel.init 2))))
     = [("b", 2%nat); ("c", 3%nat)].
Proof.
  pose proof (disconnected_sends_are_buffered_in_order (Channel.init 2)
                [("a", 1%nat); ("b", 2%nat); ("c", 3%nat)]
                eq_refl (Nat.lt_0_succ 1) (Nat.le_0_l 2)) as H.
  simpl in H. destruct H as (_ & _ & _ & Hq & _ & _ & Hw & _).
  split; [exact Hq | exact Hw].
Defined.

(** ** Rounding to a binary64 number *)

Lemma fexp_eq (k : Z) : SpecFloat.fexp 53 1024 k = Z.max (k - 53) (-1074).
Proof. reflexivity. Qed.

Lemma pow2_pos (a : Z) : 0 <= a -> 0 < 2 ^ a.
Proof. intros. apply Z.pow_pos_nonneg; lia. Qed.

Lemma pow2_add (a b : Z) : 0 <= a -> 0 <= b -> 2 ^ (a + b) = 2 ^ a * 2 ^ b.
Proof. intros. now apply Z.pow_add_r. Qed.

Lemma pow2_le (a b : Z) : 0 <= a -> a <= b -> 2 ^ a <= 2 ^ b.
Proof. intros. apply Z.pow_le_mono_r; lia. Qed.

Lemma pow2_lt (a b : Z) : 0 <= a -> a < b -> 2 ^ a < 2 ^ b.
Proof. intros. apply Z.pow_lt_mono_r; lia. Qed.

Lemma pow2_lt_inv (a b : Z) : 0 <= a -> 0 <= b -> 2 ^ a < 2 ^ b -> a < b.
Proof.
  intros Ha Hb H. destruct (Z.lt_ge_cases a b) as [|Hge]; [assumption|].
  pose proof (pow2_le b a Hb Hge). lia.
Qed.

(** The number of binary digits of a mantissa. *)
Lemma digits2_pos_bounds (m : positive) :
  2 ^ (Zpos (digits2_pos m) - 1) <= Zpos m < 2 ^ Zpos (digits2_pos m).
Proof.
  induction m as [m IH|m IH|]; cbn [digits2_pos].
  - rewrite Pos2Z.inj_succ.
    replace (Z.succ (Zpos (digits2_pos m)) - 1) with (Z.succ (Zpos (digits2_pos m) - 1)) by lia.
    rewrite !Z.pow_succ_r by lia. lia.
  - rewrite Pos2Z.inj_succ.
    replace (Z.succ (Zpos (digits2_pos m)) - 1) with (Z.succ (Zpos (digits2_pos m) - 1)) by lia.
    rewrite !Z.pow_succ_r by lia. lia.
  - cbn. lia.
Qed.

Lemma digits2_pos_unique (m : positive) (k : Z) :
  2 ^ (k - 1) <= Zpos m < 2 ^ k -> Zpos (digits2_pos m) = k.
Proof.
  intros [Hlo Hhi]. pose proof (digits2_pos_bounds m) as [Dlo Dhi].
  assert (Hk : 0 < k).
  { destruct (Z.lt_ge_cases 0 k) as [|Hneg]; [assumption|].
    destruct (Z.eq_dec k 0) as [->|]; [cbn in Hhi; lia|].
    rewrite (Z.pow_neg_r 2 k) in Hhi by lia. lia. }
  set (d := Zpos (digits2_pos m)) in *. assert (0 < d) by (subst d; lia).
  destruct (Z.lt_trichotomy d k) as [Hlt|[Heq|Hgt]]; [|assumption|].
  - pose proof (pow2_le d (k - 1) ltac:(lia) ltac:(lia)). lia.
  - pose proof (pow2_le k (d - 1) ltac:(lia) ltac:(lia)). lia.
Qed.

Lemma shr_1_spec (mrs : shr_record) :
  0 <= shr_m mrs ->
  shr_m (shr_1 mrs) = shr_m mrs / 2 /\
  shr_r (shr_1 mrs) = Z.odd (shr_m mrs) /\
  shr_s (shr_1 mrs) = shr_r mrs || shr_s mrs.
Proof.
  destruct mrs as [m r s]. cbn [shr_m shr_r shr_s]. intros Hm.
  destruct m as [|[p|p|]|p]; try lia; cbn [shr_1 shr_m shr_r shr_s].
  - repeat split.
  - repeat split. rewrite Pos2Z.inj_xI. apply Z.div_unique with 1; lia.
  - repeat split. rewrite Pos2Z.inj_xO. apply Z.div_unique with 0; lia.
  - repeat split.
Qed.

Lemma shifted_step (m0 k : Z) (mrs : shr_record) :
  0 <= m0 -> 0 <= k -> Number.shifted m0 k mrs -> Number.shifted m0 (k + 1) (shr_1 mrs).
Proof.
  intros Hm Hk [Hq Hex].
  assert (Hp : 0 < 2 ^ k) by now apply pow2_pos.
  assert (Hq0 : 0 <= shr_m mrs) by (rewrite Hq; apply Z.div_pos; lia).
  destruct (shr_1_spec mrs Hq0) as (H1 & H2 & H3).
  assert (Hpow : 2 ^ (k + 1) = 2 ^ k * 2) by (rewrite pow2_add by lia; reflexivity).
  split.
  - rewrite H1, Hq, Hpow. rewrite Z.div_div by lia. reflexivity.
  - intros Hmod. rewrite Hpow in Hmod.
    apply Z.mod_divide in Hmod; [|lia]. destruct Hmod as [c Hc].
    assert (Hmk : m0 mod 2 ^ k = 0).
    { rewrite Hc. replace (c * (2 ^ k * 2)) with (c * 2 * 2 ^ k) by ring.
      apply Z.mod_mul. lia. }
    destruct (Hex Hmk) as [Hr Hs].
    rewrite H2, H3, Hr, Hs, Hq. split; [|reflexivity].
    rewrite Hc. replace (c * (2 ^ k * 2)) with (c * 2 * 2 ^ k) by ring.
    rewrite Z.div_mul by lia. rewrite Z.mul_comm. apply Z.odd_even.
Qed.

Lemma shifted_iter (p : positive) :
  forall (m0 k : Z) (mrs : shr_record),
    0 <= m0 -> 0 <= k -> Number.shifted m0 k mrs ->
    Number.shifted m0 (k + Zpos p) (SpecFloat.iter_pos shr_1 p mrs).
Proof.
  induction p as [p IH|p IH|]; intros m0 k mrs Hm Hk H; cbn [SpecFloat.iter_pos].
  - replace (k + Zpos p~1) with (k + 1 + Zpos p + Zpos p) by lia.
    apply IH; [lia..|]. apply IH; [lia..|]. now apply shifted_step.
  - replace (k + Zpos p~0) with (k + Zpos p + Zpos p) by lia.
    apply IH; [lia..|]. now apply IH.
  - now apply shifted_step.
Qed.

Lemma shr_exact (m e n : Z) :
  0 <= m -> 0 <= n ->
  exists mrs : shr_record,
    shr {| shr_m := m; shr_r := false; shr_s := false |} e n = (mrs, e + n) /\
    Number.shifted m n mrs.
Proof.
  intros Hm Hn. destruct n as [|p|p]; try lia; cbn [shr].
  - eexists. split; [rewrite Z.add_0_r; reflexivity|].
    split; cbn [shr_m shr_r shr_s]; [now rewrite Z.div_1_r | auto].
  - eexists. split; [reflexivity|].
    apply (shifted_iter p m 0); [lia..|].
    split; cbn [shr_m shr_r shr_s]; [now rewrite Z.div_1_r | auto].
Qed.

Lemma round_nearest_even_spec (mrs : shr_record) :
  let N := round_nearest_even (shr_m mrs) (loc_of_shr_record mrs) in
  (N = shr_m mrs \/ N = shr_m mrs + 1) /\
  (shr_r mrs = false /\ shr_s mrs = false -> N = shr_m mrs).
Proof.
  destruct mrs as [m [|] [|]]; cbn; repeat split; try tauto;
    try (intros [? ?]; discriminate).
  - destruct (Z.even m); tauto.
Qed.

Lemma shr_nop (mrs : shr_record) (e n : Z) : n <= 0 -> shr mrs e n = (mrs, e).
Proof. destruct n; intros; [reflexivity | lia | reflexivity]. Qed.

(** The quotient of a mantissa by the power of two that brings it to its
    rounding exponent has at most 53 digits, and exactly 53 above the
    subnormal range. *)
Lemma quotient_bounds (m : positive) (e : Z) :
  let e1 := SpecFloat.fexp 53 1024 (Zpos (digits2_pos m) + e) in
  let q := Zpos m / 2 ^ (e1 - e) in
  e <= e1 ->
  0 <= q < 2 ^ 53 /\ (-1074 < e1 -> 2 ^ 52 <= q).
Proof.
  intros e1 q He. subst e1 q. rewrite fexp_eq in *.
  pose proof (digits2_pos_bounds m) as [Dlo Dhi].
  set (d := Zpos (digits2_pos m)) in *. assert (Hd : 0 < d) by (subst d; lia).
  set (n := Z.max (d + e - 53) (-1074) - e) in *.
  assert (Hn : 0 <= n) by lia.
  assert (Hp : 0 < 2 ^ n) by now apply pow2_pos.
  assert (Hup : Zpos m < 2 ^ 53 * 2 ^ n).
  { rewrite <- pow2_add by lia.
    pose proof (pow2_le d (53 + n) ltac:(lia) ltac:(lia)). lia. }
  split; [split|].
  - apply Z.div_pos; lia.
  - apply Z.div_lt_upper_bound; lia.
  - intros Hnormal. assert (Hn' : n = d - 53) by lia.
    apply Z.div_le_lower_bound; [lia|].
    rewrite Z.mul_comm, <- pow2_add by lia.
    replace (52 + n) with (d - 1) by lia. exact Dlo.
Qed.

(** What [binary_round_aux] computes from an exact mantissa that has enough
    digits: the mantissa is divided by a power of two, the quotient is
    kept or increased by one, kept when the division is exact. *)
Lemma round_aux_shape (sx : bool) (m : positive) (e : Z) :
  let e1 := SpecFloat.fexp 53 1024 (Zpos (digits2_pos m) + e) in
  let q := Zpos m / 2 ^ (e1 - e) in
  e <= e1 ->
  exists N : Z,
    (N = q \/ N = q + 1) /\
    (Zpos m mod 2 ^ (e1 - e) = 0 -> N = q) /\
    binary_round_aux 53 1024 sx (Zpos m) e loc_Exact = Number.rounded sx N e1.
Proof.
  intros e1 q He.
  destruct (quotient_bounds m e He) as [Hq Hnormal]. fold e1 q in Hq, Hnormal.
  assert (He1 : -1074 <= e1) by (subst e1; rewrite fexp_eq; lia).
  destruct (shr_exact (Zpos m) e (e1 - e) ltac:(lia) ltac:(lia))
    as (mrs & Hshr & Hm & Hex).
  replace (e + (e1 - e)) with e1 in Hshr by lia. fold q in Hm.
  pose proof (round_nearest_even_spec mrs) as [HN Hexact]. cbv zeta in HN, Hexact.
  set (N := round_nearest_even (shr_m mrs) (loc_of_shr_record mrs)) in *.
  rewrite Hm in HN, Hexact.
  exists N. split; [exact HN|]. split; [intros H0; apply Hexact, Hex, H0|].
  unfold binary_round_aux. unfold shr_fexp at 1.
  cbn [Zdigits2 shr_record_of_loc]. fold e1. rewrite Hshr. fold N.
  unfold Number.rounded, shr_fexp. cbn [shr_record_of_loc].
  destruct (Z.eqb_spec N 0) as [->|Hnz].
  - cbn [Zdigits2]. rewrite shr_nop by (rewrite fexp_eq; lia). reflexivity.
  - destruct (Z.eqb_spec N (2 ^ 53)) as [->|Hn53].
    + change (Zdigits2 (2 ^ 53)) with 54.
      replace (SpecFloat.fexp 53 1024 (54 + e1) - e1) with 1 by (rewrite fexp_eq; lia).
      reflexivity.
    + assert (HNpos : 0 < N < 2 ^ 53) by lia.
      destruct N as [|p|p]; try lia. cbn [Zdigits2 Z.to_pos].
      pose proof (digits2_pos_bounds p) as [Dlo Dhi].
      assert (Hd : Zpos (digits2_pos p) <= 53).
      { destruct (Z.le_gt_cases (Zpos (digits2_pos p)) 53) as [|Hgt]; [assumption|].
        pose proof (pow2_le 53 (Zpos (digits2_pos p) - 1) ltac:(lia) ltac:(lia)). lia. }
      rewrite shr_nop by (rewrite fexp_eq; lia).
      reflexivity.
Qed.

Lemma bounded_facts (m : positive) (e : Z) :
  bounded 53 1024 m e = true ->
  SpecFloat.fexp 53 1024 (Zpos (digits2_pos m) + e) = e /\
  -1074 <= e <= 971 /\ Zpos (digits2_pos m) <= 53 /\
  (-1074 < e -> Zpos (digits2_pos m) = 53).
Proof.
  unfold bounded, canonical_mantissa. rewrite andb_true_iff, Z.eqb_eq, Z.leb_le.
  rewrite fexp_eq. lia.
Qed.

Lemma scaled_bounds (m : positive) (e : Z) :
  - Number.bias <= e ->
  2 ^ (Zpos (digits2_pos m) - 1 + e + Number.bias) <= Number.scaled m e
    < 2 ^ (Zpos (digits2_pos m) + e + Number.bias).
Proof.
  intros He. unfold Number.scaled.
  pose proof (digits2_pos_bounds m) as [Dlo Dhi].
  set (d := Zpos (digits2_pos m)) in *. assert (Hd : 0 < d) by (subst d; lia).
  assert (Hp : 0 < 2 ^ (e + Number.bias)) by (apply pow2_pos; lia).
  replace (d - 1 + e + Number.bias) with (d - 1 + (e + Number.bias)) by lia.
  replace (d + e + Number.bias) with (d + (e + Number.bias)) by lia.
  rewrite (pow2_add (d - 1) (e + Number.bias)), (pow2_add d (e + Number.bias)) by lia.
  generalize dependent (2 ^ (e + Number.bias)). intros C HC.
  generalize dependent (2 ^ (d - 1)). generalize dependent (2 ^ d). intros. nia.
Qed.

Lemma representable_nonneg (u : Z) : Number.representable u -> 0 <= u.
Proof.
  intros [->|(m & e & _ & ->)]; [lia|]. unfold Number.scaled.
  apply Z.mul_nonneg_nonneg; [lia|]. apply Z.pow_nonneg. lia.
Qed.

Lemma quotient_units (m pn pe q r : Z) :
  0 < pn -> 0 < pe -> m = pn * q + r -> 0 <= r < pn ->
  q * (pn * pe) <= m * pe /\ m * pe < (q + 1) * (pn * pe) /\
  (m * pe = q * (pn * pe) -> r = 0).
Proof. intros. repeat split; nia. Qed.

Lemma mul_lt_cancel (x y P : Z) : 0 < P -> x * P < y * P -> x < y.
Proof. intros. nia. Qed.

Lemma mul_le_cancel (x y P : Z) : 0 < P -> x * P <= y * P -> x <= y.
Proof. intros. nia. Qed.

Lemma mul_le_mono (x y P : Z) : 0 <= P -> x <= y -> x * P <= y * P.
Proof. intros. nia. Qed.

(** The lower bound: a number in normal form that is at most [v] is at
    most the quotient kept when [v] is rounded. *)
Lemma round_lower (ma : positive) (ea d e e1 q v : Z) :
  bounded 53 1024 ma ea = true ->
  - Number.bias <= e -> 0 < d ->
  e1 = Z.max (d + e - 53) (-1074) ->
  v < 2 ^ (d + e + Number.bias) ->
  q * 2 ^ (e1 + Number.bias) <= v < (q + 1) * 2 ^ (e1 + Number.bias) ->
  (-1074 < e1 -> 2 ^ 52 <= q) ->
  Number.scaled ma ea <= v ->
  Number.scaled ma ea <= q * 2 ^ (e1 + Number.bias).
Proof.
  intros Hbound Hbias Hd He1 Vhi [Hqv Hvq] Hnormal Hav.
  destruct (bounded_facts ma ea Hbound) as (Hca & Hea & Hda & Hda').
  assert (Hb : Number.bias = 1200) by reflexivity.
  pose proof (scaled_bounds ma ea ltac:(lia)) as [Alo Ahi].
  remember (Zpos (digits2_pos ma)) as da eqn:Eda.
  assert (0 < da) by (subst da; lia). clear Eda.
  rewrite fexp_eq in Hca.
  assert (Hde : da + ea <= d + e).
  { assert (Hlt : 2 ^ (da - 1 + ea + Number.bias) < 2 ^ (d + e + Number.bias)) by lia.
    apply pow2_lt_inv in Hlt; lia. }
  pose proof (pow2_pos (e1 + Number.bias) ltac:(lia)) as HP.
  destruct (Z.eq_dec ea e1) as [Heq|Hne].
  - unfold Number.scaled in Hav |- *. rewrite Heq in Hav |- *.
    apply mul_le_mono; [lia|].
    assert (Zpos ma < q + 1) by (apply (mul_lt_cancel _ _ (2 ^ (e1 + Number.bias))); lia).
    lia.
  - assert (H52 : 2 ^ 52 <= q) by (apply Hnormal; lia).
    pose proof (pow2_le (da + ea + Number.bias) (52 + (e1 + Number.bias))
                  ltac:(lia) ltac:(lia)) as Hle.
    rewrite (pow2_add 52) in Hle by lia.
    pose proof (mul_le_mono _ _ (2 ^ (e1 + Number.bias)) ltac:(lia) H52) as Hmul.
    clear - Ahi Hle Hmul. lia.
Qed.

(** The upper bound: a number in normal form that is at least [v] is at
    least what [v] is rounded to. *)
Lemma round_upper (mb : positive) (eb d e e1 q v N : Z) :
  bounded 53 1024 mb eb = true ->
  - Number.bias <= e -> 0 < d ->
  e1 = Z.max (d + e - 53) (-1074) -> e <= e1 ->
  2 ^ (d - 1 + e + Number.bias) <= v ->
  q * 2 ^ (e1 + Number.bias) <= v ->
  0 <= q -> (q + 1) * 2 ^ (e1 - e) <= 2 ^ d \/ q = 0 /\ d < e1 - e ->
  (N = q \/ N = q + 1) ->
  (v = q * 2 ^ (e1 + Number.bias) -> N = q) ->
  v <= Number.scaled mb eb ->
  N * 2 ^ (e1 + Number.bias) <= Number.scaled mb eb /\
  e1 <= eb /\ (N = 2 ^ 53 -> e1 < eb).
Proof.
  intros Hbound Hbias Hd He1 He Vlo Hqv Hq0 Hq1 HN Hexact Hvb.
  destruct (bounded_facts mb eb Hbound) as (Hcb & Heb & Hdb & Hdb').
  assert (Hb : Number.bias = 1200) by reflexivity.
  pose proof (scaled_bounds mb eb ltac:(lia)) as [Blo Bhi].
  pose proof (digits2_pos_bounds mb) as [_ Dbhi].
  remember (Zpos (digits2_pos mb)) as db eqn:Edb.
  assert (0 < db) by (subst db; lia). clear Edb.
  rewrite fexp_eq in Hcb.
  assert (Hde : d + e <= db + eb).
  { assert (Hlt : 2 ^ (d - 1 + e + Number.bias) < 2 ^ (db + eb + Number.bias)) by lia.
    apply pow2_lt_inv in Hlt; lia. }
  assert (Hee : e1 <= eb) by lia.
  pose proof (pow2_pos (e1 + Number.bias) ltac:(lia)) as HP.
  assert (H0N : 0 <= N <= q + 1) by lia.
  destruct (Z.eq_dec eb e1) as [Heq|Hne].
  - assert (Hvb' : v <= Zpos mb * 2 ^ (e1 + Number.bias))
      by (unfold Number.scaled in Hvb; rewrite Heq in Hvb; exact Hvb).
    assert (Hqb : q <= Zpos mb).
    { apply (mul_le_cancel _ _ (2 ^ (e1 + Number.bias))); lia. }
    assert (HNb : N <= Zpos mb).
    { destruct (Z.eq_dec q (Zpos mb)) as [Hqeq|Hqne]; [|lia].
      rewrite Hexact; [lia|]. rewrite Hqeq in *. lia. }
    split; [|split; [exact Hee|]].
    + unfold Number.scaled. rewrite Heq. apply mul_le_mono; lia.
    + intros HN53. exfalso.
      pose proof (pow2_le db 53 ltac:(lia) ltac:(lia)). lia.
  - assert (Hlt : e1 < eb) by lia. split; [|split; [exact Hee|intros _; exact Hlt]].
    assert (Hdb53 : db = 53) by (apply Hdb'; lia).
    assert (Hbig : 2 ^ (52 + eb + Number.bias) <= Number.scaled mb eb).
    { replace (52 + eb + Number.bias) with (db - 1 + eb + Number.bias) by lia.
      exact Blo. }
    enough (HNP : N * 2 ^ (e1 + Number.bias) <= 2 ^ (52 + eb + Number.bias)) by lia.
    destruct Hq1 as [Hq1|[Hq1 Hdn]].
    + assert (Hpow : 2 ^ (e1 - e) * 2 ^ (e + Number.bias) = 2 ^ (e1 + Number.bias)).
      { rewrite <- pow2_add by lia. f_equal. lia. }
      assert (Hpow' : 2 ^ d * 2 ^ (e + Number.bias) = 2 ^ (d + e + Number.bias)).
      { rewrite <- pow2_add by lia. f_equal. lia. }
      pose proof (pow2_le (d + e + Number.bias) (52 + eb + Number.bias)
                    ltac:(lia) ltac:(lia)) as Hle.
      pose proof (pow2_pos (e + Number.bias) ltac:(lia)) as Hpe.
      pose proof (mul_le_mono _ _ (2 ^ (e + Number.bias)) ltac:(lia) Hq1) as Hm.
      rewrite <- Z.mul_assoc, Hpow, Hpow' in Hm.
      pose proof (mul_le_mono N (q + 1) (2 ^ (e1 + Number.bias)) ltac:(lia) ltac:(lia))
        as Hmul.
      clear - Hm Hle Hmul. lia.
    + pose proof (pow2_le (e1 + Number.bias) (52 + eb + Number.bias)
                    ltac:(lia) ltac:(lia)) as Hle.
      assert (HN1 : N * 2 ^ (e1 + Number.bias) <= 1 * 2 ^ (e1 + Number.bias))
        by (apply mul_le_mono; lia).
      clear - HN1 Hle. lia.
Qed.

(** Rounding is monotone and leaves the numbers in normal form alone: a
    magnitude between two of them is rounded to a finite number between
    them. *)
Lemma round_aux_between (sx : bool) (m : positive) (e : Z) (a b : Z) :
  - Number.bias <= e ->
  e <= SpecFloat.fexp 53 1024 (Zpos (digits2_pos m) + e) ->
  Number.representable a -> Number.representable b ->
  a <= Number.scaled m e <= b ->
  (binary_round_aux 53 1024 sx (Zpos m) e loc_Exact = S754_zero sx /\ a = 0) \/
  exists (m' : positive) (e' : Z),
    binary_round_aux 53 1024 sx (Zpos m) e loc_Exact = S754_finite sx m' e' /\
    -1074 <= e' /\ a <= Number.scaled m' e' <= b.
Proof.
  intros Hbias He Ha Hb [Hav Hvb].
  destruct (round_aux_shape sx m e He) as (N & HN & Hexact & ->).
  destruct (quotient_bounds m e He) as [Hq Hnormal].
  pose proof (scaled_bounds m e Hbias) as [Vlo Vhi].
  pose proof (representable_nonneg a Ha) as Ha0.
  pose proof (digits2_pos_bounds m) as [_ Dhi].
  remember (Zpos (digits2_pos m)) as d eqn:Ed.
  assert (Hd : 0 < d) by (subst d; lia). clear Ed.
  remember (SpecFloat.fexp 53 1024 (d + e)) as e1 eqn:Ee1.
  assert (He1 : e1 = Z.max (d + e - 53) (-1074)) by (subst e1; apply fexp_eq).
  clear Ee1.
  assert (He1low : -1074 <= e1) by lia.
  assert (Hb1200 : Number.bias = 1200) by reflexivity.
  assert (Hn : 0 <= e1 - e) by lia.
  pose proof (pow2_pos (e1 - e) Hn) as Hpn.
  pose proof (pow2_pos (e + Number.bias) ltac:(lia)) as Hpe.
  pose proof (pow2_pos (e1 + Number.bias) ltac:(lia)) as HP.
  assert (HPn : 2 ^ (e1 + Number.bias) = 2 ^ (e1 - e) * 2 ^ (e + Number.bias)).
  { rewrite <- pow2_add by lia. f_equal. lia. }
  pose proof (Z.div_mod (Zpos m) (2 ^ (e1 - e)) ltac:(lia)) as Hdm.
  pose proof (Z.mod_pos_bound (Zpos m) (2 ^ (e1 - e)) ltac:(lia)) as Hmod.
  destruct (quotient_units _ _ _ _ _ Hpn Hpe Hdm Hmod) as (Hqv & Hvq & Hvexact).
  rewrite <- HPn in Hqv, Hvq, Hvexact.
  assert (Hq1 : (Zpos m / 2 ^ (e1 - e) + 1) * 2 ^ (e1 - e) <= 2 ^ d \/
                Zpos m / 2 ^ (e1 - e) = 0 /\ d < e1 - e).
  { destruct (Z.le_gt_cases (e1 - e) d) as [Hnd|Hnd].
    - left. replace d with (d - (e1 - e) + (e1 - e)) in Dhi |- * by lia.
      rewrite pow2_add in Dhi |- * by lia.
      apply mul_le_mono; [lia|].
      assert (Zpos m / 2 ^ (e1 - e) < 2 ^ (d - (e1 - e))).
      { apply (mul_lt_cancel _ _ (2 ^ (e1 - e))); [lia|].
        clear - Dhi Hdm Hmod. lia. }
      lia.
    - right. split; [|lia]. apply Z.div_small. split; [lia|].
      pose proof (pow2_le d (e1 - e) ltac:(lia) ltac:(lia)). lia. }
  assert (Hexact' : Number.scaled m e = Zpos m / 2 ^ (e1 - e) * 2 ^ (e1 + Number.bias) ->
                    N = Zpos m / 2 ^ (e1 - e)).
  { intros H. apply Hexact, Hvexact, H. }
  clear Hexact Hvexact Hdm Hmod HPn Dhi.
  change (Zpos m * 2 ^ (e + Number.bias)) with (Number.scaled m e) in Hqv, Hvq.
  remember (Zpos m / 2 ^ (e1 - e)) as q eqn:Eq. clear Eq.
  remember (Number.scaled m e) as v eqn:Ev. clear Ev.
  assert (Hlow : a <= q * 2 ^ (e1 + Number.bias)).
  { destruct Ha as [->|(ma & ea & Hbound & ->)].
    - apply Z.mul_nonneg_nonneg; lia.
    - apply (round_lower ma ea d e e1 q v); try assumption. split; assumption. }
  assert (Hb' : exists mb eb, bounded 53 1024 mb eb = true /\ b = Number.scaled mb eb).
  { destruct Hb as [->|H]; [|exact H]. exfalso. lia. }
  destruct Hb' as (mb & eb & Hbound & ->).
  destruct (round_upper mb eb d e e1 q v N Hbound Hbias Hd He1 He Vlo Hqv
              ltac:(lia) Hq1 HN Hexact' Hvb) as (Hup & Hee & H53).
  destruct (bounded_facts mb eb Hbound) as (_ & Heb & _ & _).
  assert (HaN : a <= N * 2 ^ (e1 + Number.bias)).
  { assert (Hmul : q * 2 ^ (e1 + Number.bias) <= N * 2 ^ (e1 + Number.bias))
      by (apply mul_le_mono; lia).
    clear - Hlow Hmul. lia. }
  assert (H0N : 0 <= N) by lia.
  clear Hq1 Hexact' Hqv Hvq Vlo Vhi Hlow Hnormal.
  unfold Number.rounded.
  destruct (Z.eqb_spec N 0) as [HN0|HN0].
  - left. split; [reflexivity|]. subst N. clear - HaN Ha0. lia.
  - right. destruct (Z.eqb_spec N (2 ^ 53)) as [HN53|HN53].
    + exists (2 ^ 52)%positive, (e1 + 1). unfold Number.pack.
      specialize (H53 HN53).
      replace (e1 + 1 <=? Number.emax - Number.prec) with true
        by (symmetry; apply Z.leb_le; unfold Number.emax, Number.prec;
            clear - H53 Heb; lia).
      split; [reflexivity|]. split; [clear - He1low; lia|].
      assert (Hsame : Number.scaled (2 ^ 52) (e1 + 1) = N * 2 ^ (e1 + Number.bias)).
      { unfold Number.scaled.
        replace (e1 + 1 + Number.bias) with (1 + (e1 + Number.bias)) by (clear; lia).
        rewrite pow2_add by (clear - He1low Hb1200; lia). rewrite HN53.
        change (Zpos (2 ^ 52)) with (2 ^ 52). change (2 ^ 53) with (2 ^ 52 * 2 ^ 1). ring. }
      rewrite Hsame. split; assumption.
    + assert (HNpos : 0 < N) by (clear - H0N HN0; lia).
      exists (Z.to_pos N), e1. unfold Number.pack.
      replace (e1 <=? Number.emax - Number.prec) with true
        by (symmetry; apply Z.leb_le; unfold Number.emax, Number.prec;
            clear - Hee Heb; lia).
      split; [reflexivity|]. split; [exact He1low|].
      unfold Number.scaled at 1 2. rewrite Z2Pos.id by exact HNpos.
      split; assumption.
Qed.

Lemma iter_xO (m d : positive) : Zpos (Pos.iter xO m d) = Zpos m * 2 ^ Zpos d.
Proof.
  induction d as [|d IH] using Pos.peano_ind.
  - cbn [Pos.iter]. rewrite Pos2Z.inj_xO. change (2 ^ 1) with 2. ring.
  - rewrite Pos.iter_succ, Pos2Z.inj_xO, IH, Pos2Z.inj_succ, Z.pow_succ_r by lia. ring.
Qed.

Lemma digits2_pos_shift (m d : positive) :
  Zpos (digits2_pos (Pos.iter xO m d)) = Zpos (digits2_pos m) + Zpos d.
Proof.
  apply digits2_pos_unique. rewrite iter_xO.
  pose proof (digits2_pos_bounds m) as [Dlo Dhi].
  replace (Zpos (digits2_pos m) + Zpos d - 1) with (Zpos (digits2_pos m) - 1 + Zpos d) by lia.
  rewrite !pow2_add by lia.
  pose proof (pow2_pos (Zpos d) ltac:(lia)) as Hp.
  split; [apply mul_le_mono; lia|].
  apply Z.mul_lt_mono_pos_r; lia.
Qed.

(** [binary_round] brings the mantissa to its rounding exponent first. *)
Lemma round_between (sx : bool) (m : positive) (e : Z) (a b : Z) :
  - Number.bias <= e ->
  Number.representable a -> Number.representable b ->
  a <= Number.scaled m e <= b ->
  (binary_round 53 1024 sx m e = S754_zero sx /\ a = 0) \/
  exists (m' : positive) (e' : Z),
    binary_round 53 1024 sx m e = S754_finite sx m' e' /\
    -1074 <= e' /\ a <= Number.scaled m' e' <= b.
Proof.
  intros Hbias Ha Hb Hv. unfold binary_round, shl_align.
  pose proof (fexp_eq (Zpos (digits2_pos m) + e)) as He1.
  remember (SpecFloat.fexp 53 1024 (Zpos (digits2_pos m) + e)) as e1 eqn:Ee1.
  destruct (e1 - e) as [|p|p] eqn:Hdiff.
  - apply round_aux_between; try assumption. rewrite <- Ee1. lia.
  - apply round_aux_between; try assumption. rewrite <- Ee1. lia.
  - assert (Hb1200 : Number.bias = 1200) by reflexivity.
    assert (Hsame : Number.scaled (Pos.iter xO m p) e1 = Number.scaled m e).
    { unfold Number.scaled. rewrite iter_xO, <- Z.mul_assoc, <- pow2_add by lia.
      do 2 f_equal. lia. }
    rewrite <- Hsame in Hv.
    apply round_aux_between; try assumption; [lia|].
    rewrite digits2_pos_shift.
    replace (Zpos (digits2_pos m) + Zpos p + e1) with (Zpos (digits2_pos m) + e) by lia.
    rewrite <- Ee1. lia.
Qed.

(** From magnitudes to signed values. *)
Lemma signed_bounds (sx : bool) (v lo hi : Z) :
  0 < v ->
  Number.representable (Z.abs lo) -> Number.representable (Z.abs hi) ->
  lo <= cond_Zopp sx v <= hi ->
  exists a b : Z,
    Number.representable a /\ Number.representable b /\ a <= v <= b /\
    (a = 0 -> lo <= 0 <= hi) /\
    (forall u : Z, a <= u <= b -> lo <= cond_Zopp sx u <= hi).
Proof.
  intros Hv Hlo Hhi H. destruct sx; cbn [cond_Zopp] in *.
  - exists (Z.max (- hi) 0), (- lo). repeat split; try lia.
    + destruct (Z.max_spec (- hi) 0) as [[? ->]|[? ->]]; [now left|].
      replace (- hi) with (Z.abs hi) by lia. assumption.
    + replace (- lo) with (Z.abs lo) by lia. assumption.
  - exists (Z.max lo 0), hi. repeat split; try lia.
    + destruct (Z.max_spec lo 0) as [[? ->]|[? ->]]; [now left|].
      replace lo with (Z.abs lo) by lia. assumption.
    + replace hi with (Z.abs hi) by lia. assumption.
Qed.

Lemma rounded_signed (sx : bool) (r : Number.number) (a b lo hi : Z) :
  (r = S754_zero sx /\ a = 0) \/
  (exists (m' : positive) (e' : Z),
     r = S754_finite sx m' e' /\ -1074 <= e' /\ a <= Number.scaled m' e' <= b) ->
  (a = 0 -> lo <= 0 <= hi) ->
  (forall u : Z, a <= u <= b -> lo <= cond_Zopp sx u <= hi) ->
  Number.settled r = true /\ lo <= Number.units r <= hi.
Proof.
  intros [[-> Ha]|(m' & e' & -> & He' & Hu)] Hzero Hall; cbn [Number.settled Number.units].
  - split; [reflexivity|]. now apply Hzero.
  - split; [now apply Z.leb_le|]. now apply Hall.
Qed.

Lemma round_aux_signed (sx : bool) (m : positive) (e : Z) (lo hi : Z) :
  - Number.bias <= e ->
  e <= SpecFloat.fexp 53 1024 (Zpos (digits2_pos m) + e) ->
  Number.representable (Z.abs lo) -> Number.representable (Z.abs hi) ->
  lo <= cond_Zopp sx (Number.scaled m e) <= hi ->
  let r := binary_round_aux 53 1024 sx (Zpos m) e loc_Exact in
  Number.settled r = true /\ lo <= Number.units r <= hi.
Proof.
  intros Hbias He Hlo Hhi Hv r.
  assert (Hpos : 0 < Number.scaled m e).
  { unfold Number.scaled. apply Z.mul_pos_pos; [lia|]. apply pow2_pos. lia. }
  destruct (signed_bounds sx _ lo hi Hpos Hlo Hhi Hv) as (a & b & Ha & Hb & Hab & Hzero & Hall).
  apply (rounded_signed sx r a b); try assumption.
  apply round_aux_between; assumption.
Qed.

Lemma round_signed (sx : bool) (m : positive) (e : Z) (lo hi : Z) :
  - Number.bias <= e ->
  Number.representable (Z.abs lo) -> Number.representable (Z.abs hi) ->
  lo <= cond_Zopp sx (Number.scaled m e) <= hi ->
  let r := binary_round 53 1024 sx m e in
  Number.settled r = true /\ lo <= Number.units r <= hi.
Proof.
  intros Hbias Hlo Hhi Hv r.
  assert (Hpos : 0 < Number.scaled m e).
  { unfold Number.scaled. apply Z.mul_pos_pos; [lia|]. apply pow2_pos. lia. }
  destruct (signed_bounds sx _ lo hi Hpos Hlo Hhi Hv) as (a & b & Ha & Hb & Hab & Hzero & Hall).
  apply (rounded_signed sx r a b); try assumption.
  apply round_between; assumption.
Qed.

(** Rounding an integer multiple of a power of two. *)
Lemma normalize_between (M e : Z) (sz : bool) (lo hi : Z) :
  - Number.bias <= e ->
  Number.representable (Z.abs lo) -> Number.representable (Z.abs hi) ->
  lo <= M * 2 ^ (e + Number.bias) <= hi ->
  let r := binary_normalize 53 1024 M e sz in
  Number.settled r = true /\ lo <= Number.units r <= hi.
Proof.
  intros Hbias Hlo Hhi Hv r. subst r. destruct M as [|m|m]; cbn [binary_normalize].
  - cbn [Number.settled Number.units]. split; [reflexivity|lia].
  - apply round_signed; assumption.
  - apply round_signed; try assumption. cbn [cond_Zopp]. unfold Number.scaled.
    replace (- (Zpos m * 2 ^ (e + Number.bias))) with (Z.neg m * 2 ^ (e + Number.bias));
      [assumption|].
    rewrite <- Pos2Z.opp_pos. ring.
Qed.

(** ** Sums, differences and halves of numbers *)

Lemma shl_align_scaled (m : positive) (e ez : Z) :
  ez <= e -> - Number.bias <= ez ->
  Zpos (fst (shl_align m e ez)) * 2 ^ (ez + Number.bias) = Number.scaled m e.
Proof.
  intros Hle Hbias. unfold shl_align, Number.scaled.
  destruct (ez - e) as [|p|p] eqn:Hdiff; cbn [fst]; try lia.
  - now replace ez with e by lia.
  - rewrite iter_xO, <- Z.mul_assoc, <- pow2_add by lia. do 2 f_equal. lia.
Qed.

Lemma cond_Zopp_mul (s : bool) (m p : Z) : cond_Zopp s m * p = cond_Zopp s (m * p).
Proof. destruct s; cbn [cond_Zopp]; ring. Qed.

Lemma settled_finite (s : bool) (m : positive) (e : Z) :
  Number.settled (S754_finite s m e) = true -> -1074 <= e.
Proof. cbn [Number.settled]. now intros H%Z.leb_le. Qed.

Lemma aligned_units (sx sy : bool) (mx my : positive) (ex ey : Z) :
  -1074 <= ex -> -1074 <= ey ->
  let ez := Z.min ex ey in
  cond_Zopp sx (Zpos (fst (shl_align mx ex ez))) * 2 ^ (ez + Number.bias)
    = Number.units (S754_finite sx mx ex) /\
  cond_Zopp sy (Zpos (fst (shl_align my ey ez))) * 2 ^ (ez + Number.bias)
    = Number.units (S754_finite sy my ey) /\
  - Number.bias <= ez.
Proof.
  intros Hx Hy ez. assert (Hb : Number.bias = 1200) by reflexivity.
  cbn [Number.units]. rewrite !cond_Zopp_mul.
  rewrite !shl_align_scaled by (subst ez; lia). repeat split. subst ez. lia.
Qed.

(** The difference of two numbers, rounded, stays between numbers in
    normal form that bound the exact difference. *)
Lemma sub_between (x y : Number.number) (lo hi : Z) :
  Number.settled x = true -> Number.settled y = true ->
  Number.representable (Z.abs lo) -> Number.representable (Z.abs hi) ->
  lo <= Number.units x - Number.units y <= hi ->
  Number.settled (Number.sub x y) = true /\
  lo <= Number.units (Number.sub x y) <= hi.
Proof.
  intros Hx Hy Hlo Hhi Hv. unfold Number.sub.
  destruct x as [sx|sx| |sx mx ex], y as [sy|sy| |sy my ey]; try discriminate;
    cbn [SFsub].
  - cbn [Number.units] in Hv. destruct sx, sy; cbn; (split; [reflexivity|lia]).
  - cbn [Number.units Number.settled] in *. split; [assumption|].
    destruct sy; cbn [negb cond_Zopp] in *; lia.
  - cbn [Number.units] in *. split; [assumption|lia].
  - apply settled_finite in Hx, Hy.
    destruct (aligned_units sx sy mx my ex ey Hx Hy) as (Ux & Uy & Hbias).
    apply normalize_between; try assumption.
    rewrite Z.mul_sub_distr_r, Ux, Uy. exact Hv.
Qed.

Lemma add_between (x y : Number.number) (lo hi : Z) :
  Number.settled x = true -> Number.settled y = true ->
  Number.representable (Z.abs lo) -> Number.representable (Z.abs hi) ->
  lo <= Number.units x + Number.units y <= hi ->
  Number.settled (Number.add x y) = true /\
  lo <= Number.units (Number.add x y) <= hi.
Proof.
  intros Hx Hy Hlo Hhi Hv. unfold Number.add.
  destruct x as [sx|sx| |sx mx ex], y as [sy|sy| |sy my ey]; try discriminate;
    cbn [SFadd].
  - cbn [Number.units] in Hv. destruct sx, sy; cbn; (split; [reflexivity|lia]).
  - cbn [Number.units] in *. split; [assumption|lia].
  - cbn [Number.units] in *. split; [assumption|lia].
  - apply settled_finite in Hx, Hy.
    destruct (aligned_units sx sy mx my ex ey Hx Hy) as (Ux & Uy & Hbias).
    apply normalize_between; try assumption.
    rewrite Z.mul_add_distr_r, Ux, Uy. exact Hv.
Qed.

Lemma digits2_pos_mul_pow52 (m : positive) :
  Zpos (digits2_pos (2 ^ 52 * m)) = 52 + Zpos (digits2_pos m).
Proof.
  apply digits2_pos_unique. rewrite Pos2Z.inj_mul.
  pose proof (digits2_pos_bounds m) as [Dlo Dhi].
  replace (52 + Zpos (digits2_pos m) - 1) with (52 + (Zpos (digits2_pos m) - 1)) by lia.
  rewrite !pow2_add by lia.
  change (Zpos (2 ^ 52)) with (2 ^ 52).
  assert (0 < 2 ^ 52) by (apply pow2_pos; lia).
  split; [apply Z.mul_le_mono_nonneg_l; lia|].
  apply Z.mul_lt_mono_pos_l; lia.
Qed.

(** Half of a number, rounded. *)
Lemma half_between (d : Number.number) (lo hi : Z) :
  Number.settled d = true ->
  Number.representable (Z.abs lo) -> Number.representable (Z.abs hi) ->
  2 * lo <= Number.units d <= 2 * hi ->
  Number.settled (Number.mul Number.half d) = true /\
  lo <= Number.units (Number.mul Number.half d) <= hi.
Proof.
  intros Hd Hlo Hhi Hv. unfold Number.mul, Number.half.
  destruct d as [sd|sd| |sd md ed]; try discriminate; cbn [SFmul xorb].
  - cbn [Number.units Number.settled] in *. split; [reflexivity|lia].
  - apply settled_finite in Hd. assert (Hb : Number.bias = 1200) by reflexivity.
    assert (Hhalf : 2 * Number.scaled (2 ^ 52 * md) (-53 + ed) = Number.scaled md ed).
    { unfold Number.scaled. rewrite Pos2Z.inj_mul.
      replace (ed + Number.bias) with (53 + (-53 + ed + Number.bias)) by lia.
      rewrite (pow2_add 53) by lia.
      change (Zpos (2 ^ 52)) with (2 ^ 52). change (2 ^ 53) with (2 * 2 ^ 52). ring. }
    apply round_aux_signed; try assumption.
    + lia.
    + rewrite digits2_pos_mul_pow52, fexp_eq.
      pose proof (digits2_pos_bounds md). lia.
    + cbn [Number.units] in Hv. rewrite <- Hhalf in Hv.
      destruct sd; cbn [cond_Zopp] in *; lia.
Qed.

Lemma zero_times (d : Number.number) :
  Number.settled d = true ->
  Number.settled (Number.mul (S754_zero false) d) = true /\
  Number.units (Number.mul (S754_zero false) d) = 0.
Proof. destruct d; try discriminate; intros _; split; reflexivity. Qed.

(** ** Numbers in normal form *)

Lemma valid_settled (x : Number.number) :
  Number.valid x = true -> Number.is_finite x = true ->
  Number.settled x = true /\ Number.representable (Z.abs (Number.units x)) /\
  exists c : Z, Number.units x = c * 2 ^ (Number.bias - 1074).
Proof.
  assert (Hb : Number.bias = 1200) by reflexivity.
  destruct x as [s|s| |s m e]; try discriminate; intros Hv _.
  - cbn. split; [reflexivity|]. split; [now left|]. exists 0. ring.
  - cbn [Number.valid valid_binary] in Hv.
    destruct (bounded_facts m e Hv) as (_ & He & _ & _).
    cbn [Number.settled Number.units].
    assert (Hpos : 0 < Number.scaled m e).
    { unfold Number.scaled. apply Z.mul_pos_pos; [lia|]. apply pow2_pos. lia. }
    split; [apply Z.leb_le; lia|]. split.
    + right. exists m, e. split; [exact Hv|]. destruct s; cbn [cond_Zopp]; lia.
    + exists (cond_Zopp s (Zpos m * 2 ^ (e + 1074))).
      rewrite cond_Zopp_mul. f_equal. unfold Number.scaled.
      rewrite <- Z.mul_assoc, <- pow2_add by lia. do 2 f_equal. lia.
Qed.

Lemma representable_pow2 (k : Z) :
  -1074 <= k <= 1023 -> Number.representable (2 ^ (k + Number.bias)).
Proof.
  intros Hk. assert (Hb : Number.bias = 1200) by reflexivity. right.
  destruct (Z.le_gt_cases (-1022) k) as [Hnormal|Hsub].
  - exists (2 ^ 52)%positive, (k - 52). split.
    + unfold bounded, canonical_mantissa.
      change (Zpos (digits2_pos (2 ^ 52))) with 53.
      apply andb_true_iff. unfold Number.prec, Number.emax.
      split; [apply Z.eqb_eq; rewrite fexp_eq|apply Z.leb_le]; lia.
    + unfold Number.scaled. change (Zpos (2 ^ 52)) with (2 ^ 52).
      rewrite <- pow2_add by lia. f_equal. lia.
  - pose proof (pow2_pos (k + 1074) ltac:(lia)) as Hp.
    exists (Z.to_pos (2 ^ (k + 1074))), (-1074). split.
    + unfold bounded, canonical_mantissa.
      rewrite (digits2_pos_unique _ (k + 1075)).
      * apply andb_true_iff. unfold Number.prec, Number.emax.
        split; [apply Z.eqb_eq; rewrite fexp_eq|apply Z.leb_le]; lia.
      * rewrite Z2Pos.id by lia.
        replace (k + 1075 - 1) with (k + 1074) by lia.
        split; [lia|]. apply pow2_lt; lia.
    + unfold Number.scaled. rewrite Z2Pos.id by lia.
      rewrite <- pow2_add by lia. f_equal. lia.
Qed.

Lemma representable_MAX_VALUE : Number.representable (Number.units Number.MAX_VALUE).
Proof. right. exists (2 ^ 53 - 1)%positive, 971. split; reflexivity. Qed.

Lemma units_MAX_VALUE :
  Number.units Number.MAX_VALUE < 2 ^ (1024 + Number.bias).
Proof.
  cbn [Number.units Number.MAX_VALUE cond_Zopp]. unfold Number.scaled.
  assert (Hb : Number.bias = 1200) by reflexivity.
  replace (1024 + Number.bias) with (53 + (971 + Number.bias)) by lia.
  rewrite (pow2_add 53 (971 + Number.bias)) by lia.
  apply Z.mul_lt_mono_pos_r; [apply pow2_pos; lia|].
  change (Zpos (2 ^ 53 - 1)) with (2 ^ 53 - 1). lia.
Qed.

(** ** Interpolation half-way between two numbers *)

(** [lower + w * (upper - lower)] in binary64, for the weights [0] and
    [1/2]: when the exact difference is no more than the largest finite
    number, the result is a finite number between the two. *)
Lemma interpolate_between (w lower upper : Number.number) :
  w = S754_zero false \/ w = Number.half ->
  Number.valid lower = true -> Number.is_finite lower = true ->
  Number.valid upper = true -> Number.is_finite upper = true ->
  Number.units lower <= Number.units upper ->
  Number.units upper - Number.units lower <= Number.units Number.MAX_VALUE ->
  let r := Number.add lower (Number.mul w (Number.sub upper lower)) in
  Number.settled r = true /\
  Number.units lower <= Number.units r <= Number.units upper.
Proof.
  intros Hw Hvl Hfl Hvu Hfu Hle Hspread r. subst r.
  assert (Hb : Number.bias = 1200) by reflexivity.
  destruct (valid_settled lower Hvl Hfl) as (Hsl & Hrl & cl & Hcl).
  destruct (valid_settled upper Hvu Hfu) as (Hsu & Hru & cu & Hcu).
  remember (Number.units upper - Number.units lower) as v eqn:Ev.
  assert (Hzero : Number.representable (Z.abs 0)) by now left.
  (* the weighted difference is between 0 and the exact difference *)
  assert (Ht : Number.settled (Number.mul w (Number.sub upper lower)) = true /\
               0 <= Number.units (Number.mul w (Number.sub upper lower)) <= v).
  { destruct (Z.eq_dec v 0) as [Hv0|Hv0].
    - destruct (sub_between upper lower 0 0 Hsu Hsl Hzero Hzero ltac:(lia)) as [Hsd Hd].
      destruct Hw as [->| ->].
      + destruct (zero_times _ Hsd) as [Hst Ht]. split; [exact Hst|lia].
      + destruct (half_between _ 0 0 Hsd Hzero Hzero ltac:(lia)) as [Hst Ht].
        split; [exact Hst|lia].
    - assert (Hvpos : 0 < v) by lia.
      pose proof (pow2_pos (Number.bias - 1074) ltac:(lia)) as Hunit.
      assert (Hvmin : 2 ^ (Number.bias - 1074) <= v).
      { assert (Hc : v = (cu - cl) * 2 ^ (Number.bias - 1074)) by (rewrite Ev, Hcu, Hcl; ring).
        assert (0 < cu - cl) by (clear - Hc Hvpos Hunit; nia).
        rewrite Hc. clear - H Hunit. nia. }
      pose proof (Z.log2_spec v Hvpos) as [Llo Lhi].
      pose proof units_MAX_VALUE as Hmax.
      pose proof (Z.log2_nonneg v) as Hl0.
      remember (Z.log2 v) as l eqn:El. clear El.
      assert (Hllo : Number.bias - 1074 <= l).
      { assert (Hlt : 2 ^ (Number.bias - 1074) < 2 ^ Z.succ l) by lia.
        apply pow2_lt_inv in Hlt; lia. }
      assert (Hlhi : l <= 1023 + Number.bias).
      { assert (Hlt : 2 ^ l < 2 ^ (1024 + Number.bias)) by lia.
        apply pow2_lt_inv in Hlt; lia. }
      assert (Hk : Number.representable (Z.abs (2 ^ l))).
      { rewrite Z.abs_eq by lia.
        replace l with (l - Number.bias + Number.bias) by lia.
        apply representable_pow2. lia. }
      assert (Hdouble : 2 ^ Z.succ l = 2 * 2 ^ l) by (rewrite Z.pow_succ_r by lia; ring).
      (* the rounded difference is at most twice that power of two *)
      assert (Hd : Number.settled (Number.sub upper lower) = true /\
                   0 <= Number.units (Number.sub upper lower) <= 2 * 2 ^ l).
      { destruct (Z.eq_dec l (1023 + Number.bias)) as [Htop|Hbelow].
        - destruct (sub_between upper lower 0 (Number.units Number.MAX_VALUE)
                      Hsu Hsl Hzero) as [Hsd Hd].
          + rewrite Z.abs_eq; [apply representable_MAX_VALUE|].
            apply representable_nonneg, representable_MAX_VALUE.
          + lia.
          + split; [exact Hsd|]. split; [lia|].
            rewrite <- Hdouble, Htop.
            replace (Z.succ (1023 + Number.bias)) with (1024 + Number.bias) by lia. lia.
        - destruct (sub_between upper lower 0 (2 ^ Z.succ l) Hsu Hsl Hzero) as [Hsd Hd].
          + rewrite Z.abs_eq by (apply Z.pow_nonneg; lia).
            replace (Z.succ l) with (l + 1 - Number.bias + Number.bias) by lia.
            apply representable_pow2. lia.
          + lia.
          + split; [exact Hsd|]. lia. }
      destruct Hd as [Hsd Hd].
      destruct Hw as [->| ->].
      + destruct (zero_times _ Hsd) as [Hst Ht]. split; [exact Hst|lia].
      + destruct (half_between _ 0 (2 ^ l) Hsd Hzero Hk ltac:(lia)) as [Hst Ht].
        split; [exact Hst|lia]. }
  destruct Ht as [Hst Ht].
  apply add_between; try assumption. lia.
Qed.

(** ** Percentiles of the histogram *)

(** *** The order of the numbers, in units *)

Lemma to_Q_units (x : Number.number) :
  Number.settled x = true ->
  exists q : Q, Number.to_Q x = Some q /\
    Qnum q * 2 ^ Number.bias = Number.units x * Zpos (Qden q).
Proof.
  assert (Hb : Number.bias = 1200) by reflexivity.
  destruct x as [s|s| |s m e]; try discriminate.
  - intros _. exists (0 # 1)%Q. split; [reflexivity|]. cbn [Qnum Qden Number.units]. lia.
  - intros He%settled_finite. cbn [Number.to_Q]. eexists. split; [reflexivity|].
    unfold Number.units, Number.scaled.
    destruct (Z.leb_spec 0 e) as [Hpos|Hneg].
    + rewrite (pow2_add e Number.bias) by lia.
      destruct s; cbn [Qnum Qden Qopp inject_Z cond_Zopp]; ring.
    + pose proof (pow2_pos (- e) ltac:(lia)) as Hp.
      replace (2 ^ Number.bias) with (2 ^ (e + Number.bias) * 2 ^ (- e))
        by (rewrite <- pow2_add by lia; f_equal; lia).
      destruct s; cbn [Qnum Qden Qopp cond_Zopp]; rewrite Z2Pos.id by lia; ring.
Qed.

Lemma cross_order (n1 n2 d1 d2 u1 u2 P : Z) :
  0 < P -> 0 < d1 -> 0 < d2 -> n1 * P = u1 * d1 -> n2 * P = u2 * d2 ->
  n1 * d2 <= n2 * d1 <-> u1 <= u2.
Proof.
  intros HP H1 H2 E1 E2.
  assert (K : 0 < d1 * d2) by now apply Z.mul_pos_pos.
  rewrite (Z.mul_le_mono_pos_r (n1 * d2) (n2 * d1) P HP).
  replace (n1 * d2 * P) with (n1 * P * d2) by ring.
  replace (n2 * d1 * P) with (n2 * P * d1) by ring.
  rewrite E1, E2.
  replace (u1 * d1 * d2) with (u1 * (d1 * d2)) by ring.
  replace (u2 * d2 * d1) with (u2 * (d1 * d2)) by ring.
  symmetry. now apply Z.mul_le_mono_pos_r.
Qed.

(** On the finite numbers the order by value is the order of the units. *)
Lemma leb_units (x y : Number.number) :
  Number.settled x = true -> Number.settled y = true ->
  Number.leb x y = true <-> Number.units x <= Number.units y.
Proof.
  intros Hx Hy.
  destruct (to_Q_units x Hx) as (p & Hp & Ep), (to_Q_units y Hy) as (q & Hq & Eq).
  unfold Number.leb. rewrite Hp, Hq, Qle_bool_iff. unfold Qle.
  apply (cross_order _ _ _ _ _ _ (2 ^ Number.bias)); try assumption; try lia.
  apply pow2_pos. unfold Number.bias. lia.
Qed.

Lemma leb_units_false (x y : Number.number) :
  Number.settled x = true -> Number.settled y = true ->
  Number.leb x y = false -> Number.units y < Number.units x.
Proof.
  intros Hx Hy Hleb. destruct (Z.lt_ge_cases (Number.units y) (Number.units x)) as [|Hle];
    [assumption|].
  apply Z.ge_le_iff in Hle. apply Z.ge_le in Hle.
  apply (leb_units x y Hx Hy) in Hle. congruence.
Qed.

Lemma spread_arith (ng nl nM dg dl dM ug ul uM P : Z) :
  0 < P -> 0 < dg -> 0 < dl -> 0 < dM ->
  ng * P = ug * dg -> nl * P = ul * dl -> nM * P = uM * dM ->
  (ng * dl + - nl * dg) * dM <= nM * (dg * dl) ->
  ug - ul <= uM.
Proof.
  intros HP Hg Hl HM Eg El EM H.
  assert (K : 0 < dg * dl * dM) by (repeat apply Z.mul_pos_pos; assumption).
  apply (Z.mul_le_mono_pos_r _ _ P HP) in H.
  replace ((ng * dl + - nl * dg) * dM * P)
    with ((ng * P) * dl * dM - (nl * P) * dg * dM) in H by ring.
  replace (nM * (dg * dl) * P) with ((nM * P) * dg * dl) in H by ring.
  rewrite Eg, El, EM in H.
  replace (ug * dg * dl * dM - ul * dl * dg * dM) with ((ug - ul) * (dg * dl * dM)) in H by ring.
  replace (uM * dM * dg * dl) with (uM * (dg * dl * dM)) in H by ring.
  now apply Z.mul_le_mono_pos_r in H.
Qed.

(** A spread of values, in units. *)
Lemma spread_units (lo hi top : Number.number) :
  Number.settled lo = true -> Number.settled hi = true -> Number.settled top = true ->
  (Number.value hi - Number.value lo <= Number.value top)%Q ->
  Number.units hi - Number.units lo <= Number.units top.
Proof.
  intros Hlo Hhi Htop.
  destruct (to_Q_units lo Hlo) as (l & Hl & El), (to_Q_units hi Hhi) as (g & Hg & Eg),
           (to_Q_units top Htop) as (t & Ht & Et).
  unfold Number.value. rewrite Hl, Hg, Ht. cbn [default from_option id].
  unfold Qle, Qminus, Qplus, Qopp. cbn [Qnum Qden]. rewrite !Pos2Z.inj_mul.
  apply spread_arith with (P := 2 ^ Number.bias); try assumption; try lia.
  apply pow2_pos. unfold Number.bias. lia.
Qed.

(** *** Sorting *)

Lemma elem_of_insert_inv {A : Type} (l : list A) (i : nat) (x y : A) :
  y ∈ <[i:=x]> l -> y = x \/ y ∈ l.
Proof.
  revert i. induction l as [|z l IH]; intros [|i]; simpl;
    rewrite ?elem_of_cons; try tauto.
  intros [->|H]; [tauto|]. destruct (IH i H); tauto.
Qed.

Lemma elem_of_insert_sorted (x y : Number.number) (l : list Number.number) :
  y ∈ Histogram.insert_sorted x l <-> y = x \/ y ∈ l.
Proof.
  induction l as [|z l IH]; simpl.
  - rewrite list_elem_of_singleton, elem_of_nil. tauto.
  - destruct (Number.leb x z); rewrite !elem_of_cons, ?IH; tauto.
Qed.

Lemma elem_of_sort (y : Number.number) (l : list Number.number) :
  y ∈ Histogram.sort l <-> y ∈ l.
Proof.
  induction l as [|x l IH]; simpl; [reflexivity|].
  rewrite elem_of_insert_sorted, elem_of_cons, IH. reflexivity.
Qed.

Lemma sort_nil_inv (l : list Number.number) : Histogram.sort l = [] -> l = [].
Proof.
  destruct l as [|x l]; [reflexivity|]. intros H.
  assert (Hx : x ∈ Histogram.sort (x :: l)) by (apply elem_of_sort; left).
  rewrite H in Hx. now apply elem_of_nil in Hx.
Qed.

Lemma insert_sorted_ascending (x : Number.number) (l : list Number.number) :
  Number.settled x = true -> Forall (fun y => Number.settled y = true) l ->
  Histogram.ascending l -> Histogram.ascending (Histogram.insert_sorted x l).
Proof.
  intros Hx Hall Hsorted. induction Hsorted as [|y l Hsorted IH Hy]; simpl.
  - repeat constructor.
  - apply Forall_cons in Hall as [Hsy Hall].
    destruct (Number.leb x y) eqn:Hleb.
    + apply (leb_units x y Hx Hsy) in Hleb.
      constructor; [now constructor|].
      constructor; [exact Hleb|].
      eapply Forall_impl; [exact Hy|]. simpl. intros z Hz. lia.
    + apply (leb_units_false x y Hx Hsy) in Hleb.
      constructor; [now apply IH|].
      rewrite Forall_forall. intros z Hz.
      apply elem_of_insert_sorted in Hz as [->|Hz]; [lia|].
      rewrite Forall_forall in Hy. now apply Hy.
Qed.

Lemma sort_ascending (l : list Number.number) :
  Forall (fun y => Number.settled y = true) l -> Histogram.ascending (Histogram.sort l).
Proof.
  induction l as [|x l IH]; intros Hall; simpl; [constructor|].
  apply Forall_cons in Hall as [Hx Hall].
  apply insert_sorted_ascending; [assumption| |now apply IH].
  rewrite Forall_forall in Hall |- *. intros y Hy. apply Hall. now apply elem_of_sort.
Qed.

Lemma ascending_nth (l : list Number.number) (d : Number.number) :
  Histogram.ascending l ->
  forall i j : nat, (i <= j < length l)%nat ->
    Number.units (nth i l d) <= Number.units (nth j l d).
Proof.
  induction 1 as [|a l Hsorted IH Ha]; intros i j Hij; simpl in Hij; [lia|].
  destruct i as [|i], j as [|j]; simpl; try lia.
  - rewrite Forall_forall in Ha. apply Ha.
    apply list_elem_of_In, nth_In. lia.
  - apply IH. lia.
Qed.

(** *** The least and the greatest observation *)

Lemma least_spec (x : Number.number) (xs : list Number.number) :
  (forall y, y ∈ x :: xs -> Number.settled y = true) ->
  Histogram.least x xs ∈ x :: xs /\
  (forall y, y ∈ x :: xs -> Number.units (Histogram.least x xs) <= Number.units y).
Proof.
  induction xs as [|z xs IH]; intros Hall; simpl.
  - split; [left|]. intros y Hy. apply list_elem_of_singleton in Hy as ->. lia.
  - destruct IH as [Hin Hle].
    { intros y Hy. apply Hall. rewrite !elem_of_cons in *. tauto. }
    assert (Hz : Number.settled z = true) by (apply Hall; rewrite !elem_of_cons; tauto).
    assert (Hl : Number.settled (Histogram.least x xs) = true).
    { apply Hall. rewrite !elem_of_cons in *. tauto. }
    destruct (Number.leb z (Histogram.least x xs)) eqn:E.
    + apply (leb_units _ _ Hz Hl) in E. split; [rewrite !elem_of_cons; tauto|].
      intros y Hy. rewrite !elem_of_cons in Hy. destruct Hy as [->|[->|Hy]].
      * specialize (Hle x ltac:(left)). lia.
      * lia.
      * specialize (Hle y ltac:(now right)). lia.
    + apply (leb_units_false _ _ Hz Hl) in E. split; [rewrite !elem_of_cons in *; tauto|].
      intros y Hy. rewrite !elem_of_cons in Hy. destruct Hy as [->|[->|Hy]].
      * apply Hle. left.
      * lia.
      * apply Hle. now right.
Qed.

Lemma greatest_spec (x : Number.number) (xs : list Number.number) :
  (forall y, y ∈ x :: xs -> Number.settled y = true) ->
  Histogram.greatest x xs ∈ x :: xs /\
  (forall y, y ∈ x :: xs -> Number.units y <= Number.units (Histogram.greatest x xs)).
Proof.
  induction xs as [|z xs IH]; intros Hall; simpl.
  - split; [left|]. intros y Hy. apply list_elem_of_singleton in Hy as ->. lia.
  - destruct IH as [Hin Hle].
    { intros y Hy. apply Hall. rewrite !elem_of_cons in *. tauto. }
    assert (Hz : Number.settled z = true) by (apply Hall; rewrite !elem_of_cons; tauto).
    assert (Hl : Number.settled (Histogram.greatest x xs) = true).
    { apply Hall. rewrite !elem_of_cons in *. tauto. }
    destruct (Number.leb (Histogram.greatest x xs) z) eqn:E.
    + apply (leb_units _ _ Hl Hz) in E. split; [rewrite !elem_of_cons; tauto|].
      intros y Hy. rewrite !elem_of_cons in Hy. destruct Hy as [->|[->|Hy]].
      * specialize (Hle x ltac:(left)). lia.
      * lia.
      * specialize (Hle y ltac:(now right)). lia.
    + apply (leb_units_false _ _ Hl Hz) in E. split; [rewrite !elem_of_cons in *; tauto|].
      intros y Hy. rewrite !elem_of_cons in Hy. destruct Hy as [->|[->|Hy]].
      * apply Hle. left.
      * lia.
      * apply Hle. now right.
Qed.

(** *** Interpolation *)

(** At a position that is a multiple of one half, the weight of the upper
    sample is zero or one half. *)
Lemma weight_half (pos : Q) (k : Z) :
  (pos == k # 2)%Q ->
  Histogram.weight pos = S754_zero false \/ Histogram.weight pos = Number.half.
Proof.
  intros Hpos. unfold Histogram.weight.
  assert (Hfloor : Qfloor pos = k / 2) by (rewrite (Qfloor_comp _ _ Hpos); reflexivity).
  rewrite Hfloor.
  pose proof (Z.div_mod k 2 ltac:(lia)) as Hdm.
  pose proof (Z.mod_pos_bound k 2 ltac:(lia)) as Hmod.
  destruct (Z.eq_dec (k mod 2) 0) as [H0|H1].
  - left.
    assert (Hfrac : (pos - inject_Z (k / 2) == 0 # 1)%Q).
    { rewrite Hpos. unfold Qeq, Qminus, Qplus, Qopp, inject_Z. cbn [Qnum Qden]. lia. }
    rewrite (Qred_complete _ _ Hfrac). reflexivity.
  - right.
    assert (Hfrac : (pos - inject_Z (k / 2) == 1 # 2)%Q).
    { rewrite Hpos. unfold Qeq, Qminus, Qplus, Qopp, inject_Z. cbn [Qnum Qden]. lia. }
    rewrite (Qred_complete _ _ Hfrac). vm_compute. reflexivity.
Qed.

Lemma settled_is_finite (x : Number.number) :
  Number.settled x = true -> Number.is_finite x = true.
Proof. now destruct x. Qed.

(** Sorted samples in normal form, no further apart than the largest finite
    number: what is interpolated between two of them, with weight zero or
    one half, is a finite number within the bounds of the samples. *)
Lemma interpolate_within (xs : list Number.number) (pos : Q) (L H : Z) :
  xs <> [] -> Histogram.ascending xs ->
  (forall y, y ∈ xs ->
     Number.valid y = true /\ Number.is_finite y = true /\ L <= Number.units y <= H) ->
  H - L <= Number.units Number.MAX_VALUE ->
  Histogram.weight pos = S754_zero false \/ Histogram.weight pos = Number.half ->
  exists r : Number.number,
    Histogram.interpolate xs pos = Some r /\
    Number.settled r = true /\ L <= Number.units r <= H.
Proof.
  intros Hne Hsorted Hall Hspread Hweight.
  assert (Helem : forall y, y ∈ xs -> Number.settled y = true /\ L <= Number.units y <= H).
  { intros y Hy. destruct (Hall y Hy) as (Hv & Hf & Hu).
    split; [apply (valid_settled y Hv Hf)|exact Hu]. }
  destruct xs as [|x0 xs']; [congruence|].
  set (xs := x0 :: xs') in *. unfold Histogram.interpolate. fold xs.
  destruct (Qle_bool 1 pos) eqn:H1.
  2: { exists x0. split; [reflexivity|]. apply Helem. left. }
  destruct (Qle_bool (inject_Z (Z.of_nat (length xs))) pos) eqn:Hn.
  - eexists. split; [reflexivity|]. apply Helem.
    apply list_elem_of_In. subst xs.
    destruct (exists_last (l := x0 :: xs')) as (l' & a & E); [discriminate|].
    rewrite E, List.last_last. apply in_or_app. right. now left.
  - eexists. split; [reflexivity|].
    apply Qle_bool_iff in H1.
    assert (Hlt : (pos < inject_Z (Z.of_nat (length xs)))%Q).
    { apply Qnot_le_lt. intros Hle. apply Qle_bool_iff in Hle. congruence. }
    assert (Hfloor : (1 <= Qfloor pos)%Z).
    { change 1%Z with (Qfloor 1). now apply Qfloor_resp_le. }
    assert (Hceil : (Qceiling pos <= Z.of_nat (length xs))%Z).
    { rewrite <- (Qceiling_Z (Z.of_nat (length xs))).
      apply Qceiling_resp_le. now apply Qlt_le_weak. }
    assert (Hfc : (Qfloor pos <= Qceiling pos)%Z).
    { rewrite Zle_Qle. eapply Qle_trans; [apply Qfloor_le|apply Qle_ceiling]. }
    unfold Histogram.order_statistic.
    set (lower := nth (Z.to_nat (Qfloor pos - 1)) xs (S754_zero false)).
    set (upper := nth (Z.to_nat (Qceiling pos - 1)) xs (S754_zero false)).
    assert (Hlower : lower ∈ xs) by (apply list_elem_of_In, nth_In; lia).
    assert (Hupper : upper ∈ xs) by (apply list_elem_of_In, nth_In; lia).
    destruct (Hall lower Hlower) as (Hvl & Hfl & Hul).
    destruct (Hall upper Hupper) as (Hvu & Hfu & Huu).
    assert (Horder : Number.units lower <= Number.units upper).
    { apply ascending_nth; [assumption|lia]. }
    destruct (interpolate_between (Histogram.weight pos) lower upper
                Hweight Hvl Hfl Hvu Hfu Horder ltac:(lia)) as [Hsettled Hbetween].
    split; [exact Hsettled|lia].
Qed.

(** *** The window *)

Lemma folded_spec (y : Number.number) (vs : list JS.value) :
  y ∈ Histogram.folded vs -> JS.Num y ∈ vs /\ Number.is_finite y = true.
Proof.
  unfold Histogram.folded. rewrite list_elem_of_omap. intros (v & Hv & Hy).
  destruct v; try discriminate. cbn [Histogram.finite_value] in Hy.
  destruct (Number.is_finite _) eqn:Hf; [|discriminate].
  injection Hy as <-. split; assumption.
Qed.

Section Window.

Context (policy : Histogram.Policy).
Hypothesis room : (0 < Histogram.capacity policy)%nat.

Lemma retain_elem_of (x y : Number.number) (h : Histogram.t) :
  y ∈ Histogram.retain policy x h -> y = x \/ y ∈ Histogram.window h.
Proof.
  unfold Histogram.retain.
  destruct (length (Histogram.window h) <? Histogram.capacity policy)%nat.
  - rewrite elem_of_app, list_elem_of_singleton. tauto.
  - apply elem_of_insert_inv.
Qed.

Lemma retain_not_nil (x : Number.number) (h : Histogram.t) :
  Histogram.retain policy x h <> [].
Proof.
  unfold Histogram.retain.
  destruct (Nat.ltb_spec (length (Histogram.window h)) (Histogram.capacity policy))
    as [Hlt|Hge].
  - now destruct (Histogram.window h).
  - intros H. apply (f_equal length) in H.
    rewrite length_insert in H. simpl in H. lia.
Qed.

Lemma update_all_window (vs : list JS.value) :
  forall h : Histogram.t,
    (forall y, y ∈ Histogram.window (Histogram.update_all policy vs h) ->
               y ∈ Histogram.window h \/ y ∈ Histogram.folded vs) /\
    (Histogram.window h <> [] \/ Histogram.folded vs <> [] ->
     Histogram.window (Histogram.update_all policy vs h) <> []).
Proof.
  induction vs as [|v vs IH]; intros h; simpl.
  - split; [tauto|]. intros [H|H]; [assumption|]. now destruct H.
  - destruct (IH (Histogram.update policy v h)) as [IHin IHne].
    unfold Histogram.folded in *. simpl.
    unfold Histogram.update in *.
    destruct (Histogram.finite_value v) as [x|]; simpl in *.
    + split.
      * intros y Hy. destruct (IHin y Hy) as [Hw|Hf].
        -- apply retain_elem_of in Hw. rewrite elem_of_cons. tauto.
        -- rewrite elem_of_cons. tauto.
      * intros _. apply IHne. left. apply retain_not_nil.
    + split; [exact IHin | exact IHne].
Qed.


End Window.


Lemma ring_halves : Histogram.halves Histogram.ring.
Proof.
  intros n. exists (Z.of_nat n + 1). cbn [Histogram.position Histogram.ring].
  unfold Qeq, Qmult, inject_Z. cbn [Qnum Qden]. lia.
Qed.

(** The end-to-end example of the design: 100, 0 and 50 have median 50. *)
Example median_of_three :
  Histogram.p50 Histogram.ring
    (Histogram.update_all Histogram.ring
       [JS.Num (Number.of_Z 100); JS.Num (Number.of_Z 0); JS.Num (Number.of_Z 50)]
       Histogram.create)
  = Some (Number.of_Z 50).
Proof. vm_compute. reflexivity. Qed.


(** ** Registration of the heap metrics *)

Lemma binding_bind_eq (m : Env.Metric) (registry : list Env.Metric) :
  Env.binding (Env.metric_id m) (Env.bind_metric m registry) = Some m.
Proof.
  induction registry as [|m' registry IH]; simpl.
  - now rewrite String.eqb_refl.
  - destruct (String.eqb_spec (Env.metric_id m') (Env.metric_id m)) as [E|E]; simpl.
    + now rewrite String.eqb_refl.
    + destruct (String.eqb_spec (Env.metric_id m') (Env.metric_id m)); [contradiction|].
      exact IH.
Qed.

Lemma binding_bind_ne (i : string) (m : Env.Metric) (registry : list Env.Metric) :
  Env.metric_id m <> i ->
  Env.binding i (Env.bind_metric m registry) = Env.binding i registry.
Proof.
  intros Hne. induction registry as [|m' registry IH]; simpl.
  - destruct (String.eqb_spec (Env.metric_id m) i); [contradiction|reflexivity].
  - destruct (String.eqb_spec (Env.metric_id m') (Env.metric_id m)) as [E|E]; simpl.
    + destruct (String.eqb_spec (Env.metric_id m) i); [contradiction|].
      destruct (String.eqb_spec (Env.metric_id m') i); [congruence|reflexivity].
    + destruct (String.eqb_spec (Env.metric_id m') i); [reflexivity|exact IH].
Qed.

Lemma register_step (c : gmap string bool) (self : V8Metric.t) (w : Env.World)
    (k : string) (d : V8Metric.Definition_) :
  V8Metric.register c (self, w) (k, d) =
    if V8Metric.skipped c k then (self, w)
    else
      ({| V8Metric.timer := V8Metric.timer self;
          V8Metric.metricService := V8Metric.metricService self;
          V8Metric.metricStore :=
            <[k := length (Env.gauges w)]> (V8Metric.metricStore self) |},
       Env.registerMetric (V8Metric.gauge_metric d (length (Env.gauges w)))
         (Env.set_gauges (Env.gauges w ++ [None]) w)).
Proof.
  unfold V8Metric.register, V8Metric.skipped. simpl.
  destruct (c !! k) as [[|]|]; reflexivity.
Qed.

Lemma register_all (c : gmap string bool) (defs : list (string * V8Metric.Definition_)) :
  NoDup (map fst defs) ->
  NoDup (map (fun d => V8Metric.id (snd d)) defs) ->
  forall (self : V8Metric.t) (w : Env.World),
    V8Metric.registration c defs self w
      (fst (fold_left (V8Metric.register c) defs (self, w)))
      (snd (fold_left (V8Metric.register c) defs (self, w))).
Proof.
  induction defs as [|[k0 d0] defs IH]; intros Hk Hi self w.
  - simpl. split; try reflexivity; try tauto; try lia.
    intros k d H. now apply elem_of_nil in H.
  - simpl in Hk, Hi. apply NoDup_cons in Hk as [Hk0 Hk], Hi as [Hi0 Hi].
    cbn [fold_left]. rewrite register_step.
    destruct (V8Metric.skipped c k0) eqn:Hskip.
    + destruct (IH Hk Hi self w) as [Ht Hf Hr Hd Htm Hsv Hg Hp Hok Hoi Hdefs]. split; try assumption.
      * intros k H. apply Hok. simpl in H.
        rewrite not_elem_of_cons in H. tauto.
      * intros i H. apply Hoi. simpl in H.
        rewrite not_elem_of_cons in H. tauto.
      * intros k d H. apply elem_of_cons in H as [H|H]; [|now apply Hdefs].
        injection H as -> ->. rewrite Hskip.
        split; [now apply Hok | now apply Hoi].
    + set (g := length (Env.gauges w)).
      set (self1 := {| V8Metric.timer := V8Metric.timer self;
                       V8Metric.metricService := V8Metric.metricService self;
                       V8Metric.metricStore := <[k0 := g]> (V8Metric.metricStore self) |}).
      set (w1 := Env.registerMetric (V8Metric.gauge_metric d0 g)
                   (Env.set_gauges (Env.gauges w ++ [None]) w)).
      assert (Hg1 : length (Env.gauges w1) = S g).
      { subst w1 g. simpl. rewrite length_app. simpl. lia. }
      assert (Hreg1 : forall i, V8Metric.id d0 <> i ->
                Env.binding i (V8Metric.registry w1) = Env.binding i (V8Metric.registry w)).
      { intros i Hne. subst w1. unfold V8Metric.registry. simpl.
        destruct (Env.metrics w); simpl; [|reflexivity].
        now apply binding_bind_ne. }
      destruct (IH Hk Hi self1 w1) as [Ht Hf Hr Hd Htm Hsv Hg Hp Hok Hoi Hdefs]. split; try assumption.
      * lia.
      * intros H. apply Hp. subst w1. simpl.
        destruct H as [r ->]. simpl. eauto.
      * intros k H. simpl in H. rewrite not_elem_of_cons in H.
        rewrite Hok by tauto. subst self1. simpl.
        rewrite lookup_insert_ne by (intros ?; subst; tauto). reflexivity.
      * intros i H. simpl in H. rewrite not_elem_of_cons in H.
        rewrite Hoi by tauto. apply Hreg1. intros ?; subst; tauto.
      * intros k d H. apply elem_of_cons in H as [H|H].
        -- injection H as -> ->. rewrite Hskip. exists g. repeat split.
           ++ lia.
           ++ lia.
           ++ rewrite Hok by assumption. subst self1. simpl.
              apply lookup_insert_eq.
           ++ intros [r Hreg]. rewrite Hoi by assumption.
              subst w1. unfold V8Metric.registry. simpl. rewrite Hreg. simpl.
              apply (binding_bind_eq (V8Metric.gauge_metric d0 g)).
        -- assert (Hkk : k <> k0).
           { intros ->. apply Hk0. apply list_elem_of_fmap. now exists (k0, d). }
           assert (Hii : V8Metric.id d0 <> V8Metric.id d).
           { intros E. apply Hi0. apply list_elem_of_fmap. exists (k, d). split; [|assumption].
             simpl. congruence. }
           specialize (Hdefs k d H).
           destruct (V8Metric.skipped c k).
           ++ destruct Hdefs as [Hs Hb]. split.
              ** rewrite Hs. subst self1. simpl. now rewrite lookup_insert_ne.
              ** rewrite Hb. now apply Hreg1.
           ++ destruct Hdefs as (g' & Hg' & Hs & Hb). exists g'. repeat split.
              ** lia.
              ** lia.
              ** assumption.
              ** intros Hsome. apply Hb. subst w1. simpl.
                 destruct Hsome as [r ->]. simpl. eauto.
Qed.

Lemma metricsDefinitions_keys_NoDup : NoDup (map fst V8Metric.metricsDefinitions).
Proof. apply (bool_decide_unpack _). vm_compute. reflexivity. Qed.

Lemma metricsDefinitions_ids_NoDup :
  NoDup (map (fun d => V8Metric.id (snd d)) V8Metric.metricsDefinitions).
Proof. apply (bool_decide_unpack _). vm_compute. reflexivity. Qed.

Lemma V8Metric_init_ready (config : option V8Metric.Config) (self : V8Metric.t)
    (w : Env.World) :
  is_Some (Env.metrics w) ->
  Env.getHeapStatistics w = true ->
  config <> Some (V8Metric.Flag false) ->
  V8Metric.init config self w =
    let st :=
      fold_left (V8Metric.register (V8Metric.effective config))
        V8Metric.metricsDefinitions
        ({| V8Metric.timer := V8Metric.timer self;
            V8Metric.metricService := Some Env.MetricService;
            V8Metric.metricStore := V8Metric.metricStore self |},
         Env.log V8Metric.namespace "init" w) in
    ({| V8Metric.timer := Some (Env.fresh (snd st));
        V8Metric.metricService := V8Metric.metricService (fst st);
        V8Metric.metricStore := V8Metric.metricStore (fst st) |},
     Env.unref (Env.fresh (snd st))
       (snd (Env.setInterval Env.V8Sample V8Metric.TIME_INTERVAL (snd st)))).
Proof.
  intros [registry Hm] Hh Hc. unfold V8Metric.init.
  assert (Hget : Env.ServiceManager_get "metrics" w = Some Env.MetricService).
  { unfold Env.ServiceManager_get. simpl. now rewrite Hm. }
  destruct config as [[[|]|c]|]; try congruence;
    cbv [default from_option id V8Metric.effective]; cbv beta iota;
    cbn [V8Metric.metricService]; rewrite Hget;
    cbn [Env.getHeapStatistics Env.log Env.set_debug]; rewrite Hh; cbn [negb];
    match goal with
    | |- context [fold_left ?f ?l ?a] => destruct (fold_left f l a) as [s1 w1]
    end; reflexivity.
Qed.

(** C7, as stated, fails: a configuration that carries the eight declared
    flags, has [heap_total_size] and [heap_used_size] off and also carries
    the key [total_heap_size] with value [false] keeps the metric
    [total_heap_size] from being registered. *)
Lemma total_heap_size_can_be_disabled :
  let st := V8Metric.init (Some (V8Metric.Options V8Metric.heap_sizes_off))
              V8Metric.create Scenario.ready in
  V8Metric.declares V8Metric.heap_sizes_off /\
  V8Metric.heap_sizes_off !! "heap_total_size" = Some false /\
  V8Metric.heap_sizes_off !! "heap_used_size" = Some false /\
  V8Metric.metricStore (fst st) !! "total_heap_size" = None /\
  Env.binding "internal/v8/heap/total" (V8Metric.registry (snd st)) = None.
Proof.
  repeat split; try (vm_compute; reflexivity).
  unfold V8Metric.declares, V8Metric.declared_flags.
  repeat constructor; vm_compute; eauto.
Qed.

(** C7, amended: [init] passes over a definition key [k] exactly when
    [config[k]] is [false]; every other key is bound to a new gauge and
    registered under its id.  The declared flags [heap_total_size] and
    [heap_used_size] are never read: a configuration that carries the
    declared flags only gets [total_heap_size] and [used_heap_size]
    registered whatever their values, and of the declared flags only
    [heap_used_percent] keeps a metric from being registered. *)
Theorem registration_follows_definition_keys
    (c : gmap string bool) (self : V8Metric.t) (w : Env.World) :
  is_Some (Env.metrics w) ->
  Env.getHeapStatistics w = true ->
  let st := V8Metric.init (Some (V8Metric.Options c)) self w in
  (forall k d, (k, d) ∈ V8Metric.metricsDefinitions ->
     (c !! k = Some false ->
        V8Metric.metricStore (fst st) !! k = V8Metric.metricStore self !! k /\
        Env.binding (V8Metric.id d) (V8Metric.registry (snd st))
          = Env.binding (V8Metric.id d) (V8Metric.registry w)) /\
     (c !! k <> Some false ->
        exists g : nat,
          (length (Env.gauges w) <= g)%nat /\
          V8Metric.metricStore (fst st) !! k = Some g /\
          Env.binding (V8Metric.id d) (V8Metric.registry (snd st))
            = Some (V8Metric.gauge_metric d g))) /\
  ((forall k, is_Some (c !! k) -> k ∈ V8Metric.declared_flags) ->
   is_Some (V8Metric.metricStore (fst st) !! "total_heap_size") /\
   is_Some (V8Metric.metricStore (fst st) !! "used_heap_size") /\
   is_Some (Env.binding "internal/v8/heap/total" (V8Metric.registry (snd st))) /\
   is_Some (Env.binding "internal/v8/heap/used" (V8Metric.registry (snd st)))).
Proof.
  intros Hm Hh st.
  assert (Hst : st = V8Metric.init (Some (V8Metric.Options c)) self w) by reflexivity.
  clearbody st.
  rewrite V8Metric_init_ready in Hst by (assumption || discriminate).
  cbn zeta in Hst. cbn [V8Metric.effective] in Hst.
  match type of Hst with
  | context [fold_left ?f ?l (?s0, ?w0)] =>
      pose proof (register_all c V8Metric.metricsDefinitions
                    metricsDefinitions_keys_NoDup metricsDefinitions_ids_NoDup s0 w0)
        as [Ht Hf Hr Hd Htm Hsv Hg Hp Hok Hoi Hdefs];
      destruct (fold_left f l (s0, w0)) as [s1 w1] eqn:Hfold
  end.
  cbn [fst snd] in *. subst st. cbn [fst snd V8Metric.metricStore].
  change (V8Metric.registry
            (Env.unref (Env.fresh w1)
               (snd (Env.setInterval Env.V8Sample V8Metric.TIME_INTERVAL w1))))
    with (V8Metric.registry w1).
  assert (Hmain : forall k d, (k, d) ∈ V8Metric.metricsDefinitions ->
     (c !! k = Some false ->
        V8Metric.metricStore s1 !! k = V8Metric.metricStore self !! k /\
        Env.binding (V8Metric.id d) (V8Metric.registry w1)
          = Env.binding (V8Metric.id d) (V8Metric.registry w)) /\
     (c !! k <> Some false ->
        exists g : nat,
          (length (Env.gauges w) <= g)%nat /\
          V8Metric.metricStore s1 !! k = Some g /\
          Env.binding (V8Metric.id d) (V8Metric.registry w1)
            = Some (V8Metric.gauge_metric d g))).
  { intros k d Hkd. specialize (Hdefs k d Hkd). unfold V8Metric.skipped in Hdefs.
    split.
    - intros E. rewrite E in Hdefs. exact Hdefs.
    - intros E. destruct (c !! k) as [[|]|]; try congruence;
        destruct Hdefs as (g & Hrange & Hs & Hb); exists g;
        (repeat split; [simpl in Hrange; lia | exact Hs | now apply Hb]). }
  split; [exact Hmain|].
  intros Hdecl.
  assert (Hoff : forall k, k ∉ V8Metric.declared_flags -> c !! k <> Some false).
  { intros k Hk E. apply Hk, Hdecl. rewrite E. eauto. }
  destruct (Hmain "total_heap_size" _ ltac:(unfold V8Metric.metricsDefinitions; repeat constructor))
    as [_ Htotal].
  destruct (Hmain "used_heap_size" _ ltac:(unfold V8Metric.metricsDefinitions; repeat constructor))
    as [_ Hused].
  destruct Htotal as (g1 & _ & Hs1 & Hb1).
  { apply Hoff. apply (bool_decide_unpack _). vm_compute. reflexivity. }
  destruct Hused as (g2 & _ & Hs2 & Hb2).
  { apply Hoff. apply (bool_decide_unpack _). vm_compute. reflexivity. }
  simpl in Hb1, Hb2. rewrite Hs1, Hs2, Hb1, Hb2. eauto.
Qed.

Lemma registration_follows_definition_keys_witness :
  let st := V8Metric.init (Some (V8Metric.Options V8Metric.heap_flags_off))
              V8Metric.create Scenario.ready in
  is_Some (V8Metric.metricStore (fst st) !! "total_heap_size") /\
  is_Some (V8Metric.metricStore (fst st) !! "used_heap_size") /\
  is_Some (Env.binding "internal/v8/heap/total" (V8Metric.registry (snd st))) /\
  is_Some (Env.binding "internal/v8/heap/used" (V8Metric.registry (snd st))).
Proof.
  assert (Hm : is_Some (Env.metrics Scenario.ready)) by (simpl; eauto).
  refine (proj2 (registration_follows_definition_keys V8Metric.heap_flags_off
                   V8Metric.create Scenario.ready Hm eq_refl) _).
  intros k [v Hv]. apply elem_of_list_to_map_2 in Hv.
  unfold V8Metric.declared_flags.
  repeat (apply elem_of_cons in Hv as [Hv|Hv];
          [apply (f_equal fst) in Hv; simpl in Hv; subst k;
           apply (bool_decide_unpack _); vm_compute; reflexivity|]).
  now apply elem_of_nil in Hv.
Defined.

(** ** The sampling timer *)

(** A successful [init] starts one timer, the sampling timer it keeps in
    [this.timer], and has unref'd it when it returns. *)
Lemma V8Metric_init_starts_timer (config : option V8Metric.Config)
    (self : V8Metric.t) (w : Env.World) :
  is_Some (Env.metrics w) ->
  Env.getHeapStatistics w = true ->
  config <> Some (V8Metric.Flag false) ->
  let st := V8Metric.init config self w in
  exists (i : nat) (t : Env.Timer),
    V8Metric.timer (fst st) = Some i /\
    t ∈ Env.timers (snd st) /\
    Env.timer_id t = i /\
    Env.timer_callback t = Env.V8Sample /\
    Env.timer_interval t = V8Metric.TIME_INTERVAL /\
    (forall t', t' ∈ Env.timers (snd st) -> Env.timer_id t' = i ->
                Env.timer_unref t' = true) /\
    (forall t', t' ∈ Env.timers (snd st) ->
                t' ∈ Env.timers w \/ Env.timer_id t' = i).
Proof.
  intros Hm Hh Hc st.
  assert (Hst : st = V8Metric.init config self w) by reflexivity.
  clearbody st.
  rewrite V8Metric_init_ready in Hst by assumption. cbn zeta in Hst.
  match type of Hst with
  | context [fold_left ?f ?l (?s0, ?w0)] =>
      pose proof (register_all (V8Metric.effective config) V8Metric.metricsDefinitions
                    metricsDefinitions_keys_NoDup metricsDefinitions_ids_NoDup s0 w0)
        as [Ht Hf _ _ _ _ _ _ _ _ _];
      destruct (fold_left f l (s0, w0)) as [s1 w1]
  end.
  cbn [fst snd] in *. subst st. cbn [fst snd V8Metric.timer].
  set (i := Env.fresh w1).
  set (t := {| Env.timer_id := i; Env.timer_interval := V8Metric.TIME_INTERVAL;
               Env.timer_unref := true; Env.timer_callback := Env.V8Sample |}).
  assert (Htimers :
    Env.timers (Env.unref i (snd (Env.setInterval Env.V8Sample V8Metric.TIME_INTERVAL w1)))
    = map (Env.unref_timer i) (Env.timers w) ++ [t]).
  { cbn [Env.unref Env.setInterval snd Env.timers Env.set_timers Env.set_fresh].
    rewrite map_app, Ht. cbn [Env.log Env.set_debug Env.timers]. f_equal.
    subst t. cbn [map]. unfold Env.unref_timer. cbn [Env.timer_id]. fold i.
    now rewrite Nat.eqb_refl. }
  rewrite Htimers.
  exists i, t. repeat split.
  - apply elem_of_app. right. apply list_elem_of_singleton. reflexivity.
  - intros t' Ht' Hid. apply elem_of_app in Ht' as [Ht'|Ht'].
    + apply list_elem_of_fmap in Ht' as (t0 & -> & _).
      unfold Env.unref_timer in *.
      destruct (Nat.eqb_spec (Env.timer_id t0) i); [reflexivity|contradiction].
    + apply list_elem_of_singleton in Ht'. now subst t'.
  - intros t' Ht'. apply elem_of_app in Ht' as [Ht'|Ht'].
    + apply list_elem_of_fmap in Ht' as (t0 & -> & Hin).
      unfold Env.unref_timer.
      destruct (Nat.eqb_spec (Env.timer_id t0) i); [right; assumption | left; assumption].
    + apply list_elem_of_singleton in Ht'. subst t'. now right.
Qed.

(** C8: when [init] returns, having found the metric service and
    [getHeapStatistics], every timer that was not there before is the
    timer kept in [this.timer] and has been unref'd; and unless the
    configuration is [false], there is such a timer: the sampling timer,
    with the period [TIME_INTERVAL]. *)
Theorem sampling_timer_is_unref (config : option V8Metric.Config)
    (self : V8Metric.t) (w : Env.World) :
  is_Some (Env.metrics w) ->
  Env.getHeapStatistics w = true ->
  let st := V8Metric.init config self w in
  (forall t', t' ∈ Env.timers (snd st) ->
     t' ∈ Env.timers w \/
     (V8Metric.timer (fst st) = Some (Env.timer_id t') /\ Env.timer_unref t' = true)) /\
  (config <> Some (V8Metric.Flag false) ->
   exists (i : nat) (t : Env.Timer),
     V8Metric.timer (fst st) = Some i /\
     t ∈ Env.timers (snd st) /\
     Env.timer_id t = i /\
     Env.timer_callback t = Env.V8Sample /\
     Env.timer_interval t = V8Metric.TIME_INTERVAL /\
     Env.timer_unref t = true).
Proof.
  intros Hm Hh st.
  assert (Hoff : config = Some (V8Metric.Flag false) \/
                 config <> Some (V8Metric.Flag false)).
  { destruct config as [[[|]|]|]; (now left) || (right; discriminate). }
  destruct Hoff as [->|Hc].
  - subst st. rewrite V8Metric_init_disabled. split; [now left | congruence].
  - destruct (V8Metric_init_starts_timer config self w Hm Hh Hc)
      as (i & t & Hi & Hin & Hid & Hcb & Hint & Hun & Hnew).
    fold st in Hi, Hin, Hun, Hnew. split.
    + intros t' Ht'. destruct (Hnew t' Ht') as [Hold|Hid']; [now left|].
      right. split; [congruence | now apply Hun].
    + intros _. exists i, t. repeat split; try assumption. now apply Hun.
Qed.

Lemma sampling_timer_is_unref_witness :
  Env.timers (snd (V8Metric.init None V8Metric.create Scenario.ready))
    = [{| Env.timer_id := 0; Env.timer_interval := 800; Env.timer_unref := true;
          Env.timer_callback := Env.V8Sample |}]
  /\ exists (i : nat) (t : Env.Timer),
       V8Metric.timer (fst (V8Metric.init None V8Metric.create Scenario.ready)) = Some i /\
       t ∈ Env.timers (snd (V8Metric.init None V8Metric.create Scenario.ready)) /\
       Env.timer_id t = i /\ Env.timer_unref t = true.
Proof.
  split; [reflexivity|].
  assert (Hm : is_Some (Env.metrics Scenario.ready)) by (simpl; eauto).
  assert (Hc : (None : option V8Metric.Config) <> Some (V8Metric.Flag false))
    by discriminate.
  destruct (proj2 (sampling_timer_is_unref None V8Metric.create Scenario.ready Hm eq_refl) Hc)
    as (i & t & Hi & Hin & Hid & _ & _ & Hun).
  exists i, t. repeat split; assumption.
Defined.

(** ** The timer callback *)

Section Tick.

Context (self : V8Metric.t) (stats : gmap string Number.number).

Lemma refresh_length (w : Env.World) (d : string * V8Metric.Definition_) :
  length (Env.gauges (V8Metric.refresh self stats w d)) = length (Env.gauges w).
Proof.
  unfold V8Metric.refresh.
  destruct (stats !! fst d); [|reflexivity].
  destruct (V8Metric.metricStore self !! fst d); [|reflexivity].
  simpl. apply length_insert.
Qed.

Lemma refresh_all_length (defs : list (string * V8Metric.Definition_)) :
  forall w : Env.World,
    length (Env.gauges (fold_left (V8Metric.refresh self stats) defs w))
      = length (Env.gauges w).
Proof.
  induction defs as [|d defs IH]; intros w; simpl; [reflexivity|].
  now rewrite IH, refresh_length.
Qed.

Context (k : string) (g : nat) (x : Number.number).
Hypothesis field_is_number : stats !! k = Some x.
Hypothesis gauge_of_key : V8Metric.metricStore self !! k = Some g.

Lemma refresh_all_lookup (defs : list (string * V8Metric.Definition_)) :
  forall w : Env.World,
    (forall k' d, (k', d) ∈ defs -> k' <> k ->
                  V8Metric.metricStore self !! k' <> Some g) ->
    (g < length (Env.gauges w))%nat ->
    Env.gauges (fold_left (V8Metric.refresh self stats) defs w) !! g
      = if decide (k ∈ map fst defs)
        then Some (Some (JS.Str (V8Metric.formatMiBytes x)))
        else Env.gauges w !! g.
Proof.
  induction defs as [|[k0 d0] defs IH]; intros w Hothers Hg.
  - simpl. destruct (decide (k ∈ [])) as [H|_]; [|reflexivity].
    now apply elem_of_nil in H.
  - cbn [fold_left]. rewrite IH.
    + destruct (decide (k0 = k)) as [->|Hne].
      * assert (Hw : Env.gauges (V8Metric.refresh self stats w (k, d0)) !! g
                     = Some (Some (JS.Str (V8Metric.formatMiBytes x)))).
        { unfold V8Metric.refresh. cbn [fst]. rewrite field_is_number, gauge_of_key.
          simpl. now apply list_lookup_insert_eq. }
        rewrite Hw. cbn [map fst].
        destruct (decide (k ∈ k :: map fst defs)) as [_|Hn];
          [|exfalso; apply Hn; left].
        destruct (decide (k ∈ map fst defs)); reflexivity.
      * assert (Hw : Env.gauges (V8Metric.refresh self stats w (k0, d0)) !! g
                     = Env.gauges w !! g).
        { unfold V8Metric.refresh. cbn [fst].
          destruct (stats !! k0); [|reflexivity].
          destruct (V8Metric.metricStore self !! k0) as [g0|] eqn:Hg0; [|reflexivity].
          simpl. apply list_lookup_insert_ne. intros ->.
          apply (Hothers k0 d0); [left|assumption|assumption]. }
        rewrite Hw. cbn [map fst].
        destruct (decide (k ∈ map fst defs)) as [Hin|Hin],
                 (decide (k ∈ k0 :: map fst defs)) as [Hin'|Hin'];
          try reflexivity.
        -- exfalso. apply Hin'. now right.
        -- exfalso. apply elem_of_cons in Hin' as [->|Hin']; [now apply Hne | now apply Hin].
    + intros k' d Hd. apply (Hothers k' d). now right.
    + now rewrite refresh_length.
Qed.

End Tick.

(** The heap of the example reads 10.00 MiB, 3.35 MiB in use, 33.5 %. *)
Example tick_example :
  Env.gauges
    (V8Metric.tick Scenario.heap
       (fst (V8Metric.init None V8Metric.create Scenario.ready))
       (snd (V8Metric.init None V8Metric.create Scenario.ready)))
  = [Some (JS.Str "10.00");
     Some (JS.Num (Number.of_ratio false 335 10));
     Some (JS.Str "3.35")].
Proof. vm_compute. reflexivity. Qed.

Example formatMiBytes_rounds_to_two_decimals :
  V8Metric.formatMiBytes (Number.of_Z 123456789) = "117.74" /\
  V8Metric.formatMiBytes (Number.of_Z 0) = "0.00" /\
  V8Metric.formatMiBytes (Number.of_Z 5243) = "0.01" /\
  V8Metric.formatMiBytes Number.NaN = "NaN".
Proof. repeat split; vm_compute; reflexivity. Qed.

(** ** The data handler of the runtime probe *)

(** C6, as stated, fails: handed a number, [handle] returns without a word;
    the debug log is as it was, nothing is logged. *)
Lemma handle_drops_silently :
  let st := RuntimeMetrics.init None RuntimeMetrics.create Scenario.ready in
  RuntimeMetrics.handle (fst st) = Some (Env.Handle 0 0 1) /\
  RuntimeMetrics.listen Histogram.ring (Env.Handle 0 0 1) (fst st)
    (JS.Num (Number.of_Z 5)) (snd st) = RuntimeMetrics.Returned (snd st) /\
  Env.debug (snd st) = [(RuntimeMetrics.namespace, "init")].
Proof. repeat split; vm_compute; reflexivity. Qed.

(** C6, amended: a datum whose [typeof] is not ["object"], or an object
    whose [gc] field has a [typeof] other than ["object"], is dropped
    silently: [handle] returns, the world is as it was (no histogram
    updated, nothing logged), nothing is thrown.  When [gc] is an object and
    the [typeof] of [usage] is not ["object"], [handle] returns having
    updated the two GC-pause histograms and nothing else. *)
Theorem handle_drops_malformed (policy : Histogram.Policy)
    (newHistogram oldHistogram : nat) (self : RuntimeMetrics.t)
    (stats : JS.value) (w : Env.World) :
  (JS.typeof stats <> "object" ->
     RuntimeMetrics.handle_data policy newHistogram oldHistogram self stats w
       = RuntimeMetrics.Returned w) /\
  (forall fields,
     stats = JS.Object fields ->
     JS.typeof (JS.field "gc" fields) <> "object" ->
     RuntimeMetrics.handle_data policy newHistogram oldHistogram self stats w
       = RuntimeMetrics.Returned w) /\
  (forall fields gc,
     stats = JS.Object fields ->
     JS.field "gc" fields = JS.Object gc ->
     JS.typeof (JS.field "usage" fields) <> "object" ->
     let w' :=
       Env.histogram_update policy oldHistogram (JS.field "oldPause" gc)
         (Env.histogram_update policy newHistogram (JS.field "newPause" gc) w) in
     RuntimeMetrics.handle_data policy newHistogram oldHistogram self stats w
       = RuntimeMetrics.Returned w' /\
     Env.debug w' = Env.debug w /\
     (forall h, h <> newHistogram -> h <> oldHistogram ->
                Env.histograms w' !! h = Env.histograms w !! h)).
Proof.
  assert (Hneq : forall s : string, s <> "object" -> String.eqb s "object" = false).
  { intros s Hs. now apply String.eqb_neq. }
  repeat split.
  - intros Ht. unfold RuntimeMetrics.handle_data. now rewrite (Hneq _ Ht).
  - intros fields -> Ht. unfold RuntimeMetrics.handle_data, RuntimeMetrics.reading.
    cbn [JS.typeof JS.get String.eqb negb]. simpl (String.eqb "object" "object").
    cbn [negb]. now rewrite (Hneq _ Ht).
  - subst. unfold RuntimeMetrics.handle_data, RuntimeMetrics.reading.
    cbn [JS.typeof JS.get]. simpl (String.eqb "object" "object"). cbn [negb].
    rewrite H0. cbn [JS.typeof JS.get]. simpl (String.eqb "object" "object").
    cbn [negb]. now rewrite (Hneq _ H1).
  - intros h Hn Ho. simpl.
    rewrite !list_lookup_alter_ne by congruence. reflexivity.
Qed.

Lemma handle_drops_malformed_witness :
  let st := RuntimeMetrics.init None RuntimeMetrics.create Scenario.ready in
  RuntimeMetrics.handle_data Histogram.ring 0 1 (fst st) (JS.Str "tick") (snd st)
    = RuntimeMetrics.Returned (snd st) /\
  RuntimeMetrics.handle_data Histogram.ring 0 1 (fst st)
    (JS.Object [("gc", JS.Num (Number.of_Z 3))]) (snd st)
    = RuntimeMetrics.Returned (snd st).
Proof.
  intros st. split.
  - refine (proj1 (handle_drops_malformed Histogram.ring 0 1 (fst st)
                     (JS.Str "tick") (snd st)) _).
    discriminate.
  - refine (proj1 (proj2 (handle_drops_malformed Histogram.ring 0 1 (fst st)
                            (JS.Object [("gc", JS.Num (Number.of_Z 3))]) (snd st)))
              _ eq_refl _).
    discriminate.
Defined.

(** A datum with GC pauses and no usage: the pause histograms count it, the
    four usage histograms do not. *)
Example handle_gc_only :
  let st := RuntimeMetrics.init None RuntimeMetrics.create Scenario.ready in
  let datum :=
    JS.Object [("gc", JS.Object [("newPause", JS.Num (Number.of_Z 4));
                                 ("oldPause", JS.Num (Number.of_Z 9))])] in
  match RuntimeMetrics.handle_data Histogram.ring 0 1 (fst st) datum (snd st) with
  | RuntimeMetrics.Returned w' => map Histogram.seen (Env.histograms w') = [1; 1; 0; 0; 0; 0]%nat
  | RuntimeMetrics.Threw _ _ => False
  end.
Proof. vm_compute. reflexivity. Qed.

(** [null] passes the [typeof] test of [handle]; reading its [gc] throws. *)
Example handle_null :
  let st := RuntimeMetrics.init None RuntimeMetrics.create Scenario.ready in
  RuntimeMetrics.handle_data Histogram.ring 0 1 (fst st) JS.Null (snd st)
    = RuntimeMetrics.Threw "TypeError" (snd st).
Proof. vm_compute. reflexivity. Qed.

(** ** Teardown of the probes *)

Lemma V8Metric_init_no_heap (config : option V8Metric.Config) (self : V8Metric.t)
    (w : Env.World) :
  is_Some (Env.metrics w) ->
  Env.getHeapStatistics w = false ->
  config <> Some (V8Metric.Flag false) ->
  V8Metric.init config self w =
    ({| V8Metric.timer := V8Metric.timer self;
        V8Metric.metricService := Some Env.MetricService;
        V8Metric.metricStore := V8Metric.metricStore self |},
     Env.log V8Metric.namespace "V8.getHeapStatistics is not available, aborting"
       (Env.log V8Metric.namespace "init" w)).
Proof.
  intros [registry Hm] Hh Hc. unfold V8Metric.init.
  assert (Hget : Env.ServiceManager_get "metrics" w = Some Env.MetricService).
  { unfold Env.ServiceManager_get. simpl. now rewrite Hm. }
  destruct config as [[[|]|c]|]; try congruence;
    cbv [default from_option id]; cbv beta iota;
    cbn [V8Metric.metricService]; rewrite Hget;
    cbn [Env.getHeapStatistics Env.log Env.set_debug]; rewrite Hh; reflexivity.
Qed.

(** [init] either starts no timer, or starts one, with a fresh identity,
    and keeps it. *)
Lemma V8Metric_init_timers (config : option V8Metric.Config) (self : V8Metric.t)
    (w : Env.World) :
  let st := V8Metric.init config self w in
  (V8Metric.timer (fst st) = V8Metric.timer self /\
   Env.timers (snd st) = Env.timers w /\
   Env.fresh (snd st) = Env.fresh w) \/
  (V8Metric.timer (fst st) = Some (Env.fresh w) /\
   Env.fresh (snd st) = S (Env.fresh w) /\
   exists t, Env.timer_id t = Env.fresh w /\
             Env.timers (snd st)
               = map (Env.unref_timer (Env.fresh w)) (Env.timers w) ++ [t]).
Proof.
  intros st. subst st.
  destruct config as [[[|]|c]|] eqn:Hconfig;
    try (left; rewrite V8Metric_init_disabled; now repeat split);
    (destruct (Env.metrics w) as [registry|] eqn:Hm;
     [ | left; rewrite V8Metric_init_no_service by (assumption || discriminate);
         now repeat split ];
     destruct (Env.getHeapStatistics w) eqn:Hh;
     [ | left; rewrite V8Metric_init_no_heap by (eauto || discriminate);
         now repeat split ];
     right;
     rewrite V8Metric_init_ready by (eauto || discriminate); cbn zeta;
     match goal with
     | |- context [fold_left (V8Metric.register ?c) ?l (?s0, ?w0)] =>
         pose proof (register_all c V8Metric.metricsDefinitions
                       metricsDefinitions_keys_NoDup metricsDefinitions_ids_NoDup s0 w0)
           as [Ht Hf _ _ _ _ _ _ _ _ _];
         destruct (fold_left (V8Metric.register c) l (s0, w0)) as [s1 w1]
     end;
     cbn [fst snd] in *;
     cbn [V8Metric.timer Env.unref Env.setInterval snd Env.timers Env.set_timers
          Env.set_fresh Env.fresh];
     rewrite Hf, Ht; cbn [Env.log Env.set_debug Env.timers Env.fresh];
     repeat split;
     exists {| Env.timer_id := Env.fresh w;
               Env.timer_interval := V8Metric.TIME_INTERVAL;
               Env.timer_unref := true; Env.timer_callback := Env.V8Sample |};
     split; [reflexivity|];
     rewrite map_app; f_equal; cbn [map]; unfold Env.unref_timer;
     cbn [Env.timer_id]; rewrite Nat.eqb_refl; reflexivity).
Qed.

Lemma unref_other (n i : nat) (ts : list Env.Timer) :
  Forall (fun t => (Env.timer_id t < n)%nat) ts -> (n <= i)%nat ->
  map (Env.unref_timer i) ts = ts.
Proof.
  intros Hts Hi. induction Hts as [|t ts Ht _ IH]; simpl; [reflexivity|].
  rewrite IH. unfold Env.unref_timer.
  destruct (Nat.eqb_spec (Env.timer_id t) i); [lia|reflexivity].
Qed.

Lemma clear_other (n i : nat) (ts : list Env.Timer) :
  Forall (fun t => (Env.timer_id t < n)%nat) ts -> (n <= i)%nat ->
  List.filter (fun t => negb (Env.timer_id t =? i)%nat) ts = ts.
Proof.
  intros Hts Hi. induction Hts as [|t ts Ht _ IH]; simpl; [reflexivity|].
  rewrite IH. destruct (Nat.eqb_spec (Env.timer_id t) i); [lia|reflexivity].
Qed.

Section V8Teardown.

Context (w0 : Env.World).
Hypothesis timers_below : Forall (fun t => (Env.timer_id t < Env.fresh w0)%nat) (Env.timers w0).

Lemma unref_foreign (i : nat) :
  (Env.fresh w0 <= i)%nat ->
  map (Env.unref_timer i) (Env.timers w0) = Env.timers w0.
Proof. now apply unref_other. Qed.

Lemma clear_foreign (i : nat) :
  (Env.fresh w0 <= i)%nat ->
  List.filter (fun t => negb (Env.timer_id t =? i)%nat) (Env.timers w0) = Env.timers w0.
Proof. now apply clear_other. Qed.

Lemma V8Metric_init_owned (config : option V8Metric.Config) (st : V8Metric.t * Env.World) :
  V8Metric.idle w0 st -> V8Metric.owned w0 (V8Metric.init config (fst st) (snd st)).
Proof.
  destruct st as [self w]. intros [(Hfresh & Htimer & _) Hidle]. cbn [fst snd] in *.
  destruct (V8Metric_init_timers config self w) as [(Ht & Hts & Hf)|(Ht & Hf & t & Hid & Hts)].
  - split; [rewrite Hf; assumption|]. split.
    + intros i Hi. rewrite Ht in Hi. rewrite Hf. now apply Htimer.
    + left. congruence.
  - split; [rewrite Hf; lia|]. split.
    + intros i Hi. rewrite Ht in Hi. injection Hi as <-. rewrite Hf. lia.
    + right. exists t. split; [congruence|].
      rewrite Hts, Hidle, unref_foreign by assumption. reflexivity.
Qed.

Lemma V8Metric_destroy_idle (st : V8Metric.t * Env.World) :
  V8Metric.owned w0 st -> V8Metric.idle w0 (V8Metric.destroy (fst st) (snd st)).
Proof.
  destruct st as [self w]. intros (Hfresh & Htimer & Hts). cbn [fst snd] in *.
  assert (Hcleared :
    Env.timers (snd (V8Metric.destroy self w)) = Env.timers w0).
  { unfold V8Metric.destroy. cbn [snd Env.log Env.set_debug Env.timers].
    destruct (V8Metric.timer self) as [i|] eqn:Hi.
    - cbn [Env.clearInterval Env.set_timers Env.timers].
      destruct Hts as [Hts|(t & Ht & Hts)]; rewrite Hts.
      + apply clear_foreign. now apply Htimer.
      + injection Ht as ->. rewrite List.filter_app, clear_foreign by (now apply Htimer).
        simpl. rewrite Nat.eqb_refl. simpl. apply app_nil_r.
    - destruct Hts as [Hts|(t & Ht & _)]; [assumption|discriminate]. }
  assert (Hself : fst (V8Metric.destroy self w) = self) by reflexivity.
  assert (Hsame : Env.fresh (snd (V8Metric.destroy self w)) = Env.fresh w).
  { unfold V8Metric.destroy. cbn [snd]. now destruct (V8Metric.timer self). }
  split; [|exact Hcleared].
  split; [rewrite Hsame; assumption|]. split.
  - intros i Hi. rewrite Hself in Hi. rewrite Hsame. now apply Htimer.
  - left. exact Hcleared.
Qed.

Lemma V8Metric_run_owned (calls : list V8Metric.call) :
  forall (live : bool) (st : V8Metric.t * Env.World),
    (if live then V8Metric.owned w0 st else V8Metric.idle w0 st) ->
    V8Metric.disciplined live calls = true ->
    V8Metric.owned w0 (V8Metric.run calls st).
Proof.
  induction calls as [|[config|] calls IH]; intros live st Hst Hd; simpl in *.
  - destruct live; [assumption|apply Hst].
  - apply andb_prop in Hd as [Hlive Hd]. destruct live; [discriminate|].
    apply (IH true); [|assumption]. now apply V8Metric_init_owned.
  - apply (IH false); [|assumption]. apply V8Metric_destroy_idle.
    destruct live; [assumption|apply Hst].
Qed.

End V8Teardown.

(** [init] either attaches no listener, or attaches one new closure and
    keeps it as its handle. *)
Lemma RuntimeMetrics_init_listeners (config : option RuntimeMetrics.Config)
    (self : RuntimeMetrics.t) (w : Env.World) :
  let st := RuntimeMetrics.init config self w in
  (RuntimeMetrics.handle (fst st) = RuntimeMetrics.handle self /\
   RuntimeMetrics.listening (snd st) = RuntimeMetrics.listening w /\
   Env.fresh (snd st) = Env.fresh w /\
   (RuntimeMetrics.runtimeStatsService (fst st) = RuntimeMetrics.runtimeStatsService self \/
    RuntimeMetrics.runtimeStatsService (fst st) = None)) \/
  (exists n o,
     RuntimeMetrics.handle (fst st) = Some (Env.Handle (Env.fresh w) n o) /\
     RuntimeMetrics.runtimeStatsService (fst st) = Some Env.RuntimeStatsService /\
     Env.fresh (snd st) = S (Env.fresh w) /\
     RuntimeMetrics.listening (snd st)
       = RuntimeMetrics.listening w ++ [Env.Handle (Env.fresh w) n o]).
Proof.
  intros st. subst st.
  assert (Hoff : config = Some (RuntimeMetrics.Flag false) \/
                 config <> Some (RuntimeMetrics.Flag false)).
  { destruct config as [[[|]|]|]; (now left) || (right; discriminate). }
  destruct Hoff as [->|Hc].
  { left. rewrite RuntimeMetrics_init_disabled. now repeat split; try left. }
  destruct (Env.metrics w) as [registry|] eqn:Hm.
  2:{ left. rewrite RuntimeMetrics_init_no_metrics by assumption.
      now repeat split; try left. }
  destruct (Env.runtimeStats w) as [listeners|] eqn:Hr.
  2:{ left. rewrite RuntimeMetrics_init_no_runtimeStats by congruence.
      now repeat split; try right. }
  right. unfold RuntimeMetrics.init, RuntimeMetrics.listening.
  assert (Hget : Env.ServiceManager_get "metrics" w = Some Env.MetricService).
  { unfold Env.ServiceManager_get. simpl. now rewrite Hm. }
  assert (Hget' : Env.ServiceManager_get "runtimeStats" w = Some Env.RuntimeStatsService).
  { unfold Env.ServiceManager_get. simpl. now rewrite Hr. }
  destruct config as [[[|]|[[|] [|] [|] [|]]]|]; try congruence;
    cbn [RuntimeMetrics.metricService RuntimeMetrics.runtimeStatsService];
    rewrite Hget; cbn [RuntimeMetrics.metricService RuntimeMetrics.runtimeStatsService];
    rewrite Hget'; simpl; rewrite Hr; simpl; eauto 10.
Qed.

Lemma remove_last_absent (l : Env.listener) (ls : list Env.listener) :
  l ∉ ls -> Env.remove_last l ls = ls.
Proof.
  induction ls as [|x ls IH]; intros Hl; simpl; [reflexivity|].
  apply not_elem_of_cons in Hl as [Hx Hls].
  destruct (decide (l ∈ ls)); [contradiction|].
  destruct (decide (x = l)); [congruence|reflexivity].
Qed.

Lemma remove_last_snoc (l : Env.listener) (ls : list Env.listener) :
  Env.remove_last l (ls ++ [l]) = ls.
Proof.
  induction ls as [|x ls IH]; simpl.
  - destruct (decide (l ∈ [])) as [H|_]; [now apply elem_of_nil in H|].
    destruct (decide (l = l)); [reflexivity|contradiction].
  - destruct (decide (l ∈ ls ++ [l])) as [_|H]; [now rewrite IH|].
    exfalso. apply H. apply elem_of_app. right. apply list_elem_of_singleton. reflexivity.
Qed.

Lemma listening_removeListener (h : Env.listener) (w : Env.World) :
  exists w', Env.removeListener (Some h) w = inl w' /\
             RuntimeMetrics.listening w' = Env.remove_last h (RuntimeMetrics.listening w) /\
             Env.fresh w' = Env.fresh w /\ Env.debug w' = Env.debug w.
Proof.
  eexists. split; [reflexivity|]. unfold RuntimeMetrics.listening. simpl.
  now destruct (Env.runtimeStats w).
Qed.

(** [destroy] returns whenever the probe is armed. *)
Lemma RuntimeMetrics_destroy_returns (self : RuntimeMetrics.t) (w : Env.World) :
  RuntimeMetrics.armed self ->
  exists w', RuntimeMetrics.destroy self w = RuntimeMetrics.Returned (self, w') /\
             Env.fresh w' = Env.fresh w /\
             Env.debug w' = Env.debug w ++ [(RuntimeMetrics.namespace, "destroy")] /\
             RuntimeMetrics.listening w'
               = match RuntimeMetrics.runtimeStatsService self, RuntimeMetrics.handle self with
                 | Some _, Some h => Env.remove_last h (RuntimeMetrics.listening w)
                 | _, _ => RuntimeMetrics.listening w
                 end.
Proof.
  intros Harmed. unfold RuntimeMetrics.destroy.
  destruct (RuntimeMetrics.runtimeStatsService self) as [s|] eqn:Hs.
  - destruct (RuntimeMetrics.handle self) as [h|] eqn:Hh.
    + destruct (listening_removeListener h w) as (w' & -> & Hl & Hf & Hd).
      eexists. split; [reflexivity|]. unfold RuntimeMetrics.listening in *. simpl.
      rewrite Hd. auto.
    + exfalso. apply Harmed; [rewrite Hs; discriminate | assumption].
  - eexists. split; [reflexivity|]. now repeat split.
Qed.

Lemma RuntimeMetrics_init_armed (config : option RuntimeMetrics.Config)
    (self : RuntimeMetrics.t) (w : Env.World) :
  RuntimeMetrics.armed self ->
  RuntimeMetrics.armed (fst (RuntimeMetrics.init config self w)).
Proof.
  intros Harmed. unfold RuntimeMetrics.armed in *.
  destruct (RuntimeMetrics_init_listeners config self w)
    as [(Hh & _ & _ & [Hs|Hs])|(n & o & Hh & _)]; rewrite Hh.
  - now rewrite Hs.
  - rewrite Hs. congruence.
  - discriminate.
Qed.

Lemma RuntimeMetrics_run_returns (calls : list RuntimeMetrics.call) :
  forall st : RuntimeMetrics.t * Env.World,
    RuntimeMetrics.armed (fst st) ->
    exists st', RuntimeMetrics.run calls st = RuntimeMetrics.Returned st' /\
                RuntimeMetrics.armed (fst st').
Proof.
  induction calls as [|[config|] calls IH]; intros [self w] Harmed; simpl in *.
  - eauto.
  - destruct (RuntimeMetrics.init config self w) as [self' w'] eqn:E.
    apply IH. change self' with (fst (self', w')). rewrite <- E.
    now apply RuntimeMetrics_init_armed.
  - destruct (RuntimeMetrics_destroy_returns self w Harmed) as (w' & -> & _).
    now apply IH.
Qed.

Section RuntimeTeardown.

Context (w0 : Env.World).
Hypothesis listeners_below :
  Forall (Env.listener_below (Env.fresh w0)) (RuntimeMetrics.listening w0).

Lemma later_handle_is_new (c n o : nat) :
  (Env.fresh w0 <= c)%nat -> Env.Handle c n o ∉ RuntimeMetrics.listening w0.
Proof.
  intros Hc Hin. rewrite Forall_forall in listeners_below.
  specialize (listeners_below _ Hin). simpl in listeners_below. lia.
Qed.

Lemma RuntimeMetrics_init_owned (config : option RuntimeMetrics.Config)
    (st : RuntimeMetrics.t * Env.World) :
  RuntimeMetrics.idle w0 st ->
  RuntimeMetrics.owned w0 (RuntimeMetrics.init config (fst st) (snd st)).
Proof.
  destruct st as [self w]. intros [(Hfresh & Harmed & Hhandle & _) Hidle].
  cbn [fst snd] in *.
  pose proof (RuntimeMetrics_init_armed config self w Harmed) as Harmed'.
  destruct (RuntimeMetrics_init_listeners config self w)
    as [(Hh & Hl & Hf & _)|(n & o & Hh & Hs & Hf & Hl)].
  - split; [rewrite Hf; assumption|]. split; [assumption|]. split.
    + intros h Hh'. rewrite Hh in Hh'. rewrite Hf. now apply Hhandle.
    + left. congruence.
  - split; [rewrite Hf; lia|]. split; [assumption|]. split.
    + intros h Hh'. rewrite Hh in Hh'. injection Hh' as <-.
      exists (Env.fresh w), n, o. split; [reflexivity|]. rewrite Hf. lia.
    + right. eexists. split; [exact Hh|]. split; [rewrite Hs; discriminate|].
      now rewrite Hl, Hidle.
Qed.

Lemma RuntimeMetrics_destroy_idle (st : RuntimeMetrics.t * Env.World) :
  RuntimeMetrics.owned w0 st ->
  exists st', RuntimeMetrics.destroy (fst st) (snd st) = RuntimeMetrics.Returned st' /\
              RuntimeMetrics.idle w0 st'.
Proof.
  destruct st as [self w]. intros (Hfresh & Harmed & Hhandle & Hls). cbn [fst snd] in *.
  destruct (RuntimeMetrics_destroy_returns self w Harmed) as (w' & -> & Hf & _ & Hl).
  eexists. split; [reflexivity|].
  assert (Hcleared : RuntimeMetrics.listening w' = RuntimeMetrics.listening w0).
  { rewrite Hl.
    destruct Hls as [Hls|(h & Hh & Hs & Hls)].
    - rewrite Hls.
      destruct (RuntimeMetrics.runtimeStatsService self); [|reflexivity].
      destruct (RuntimeMetrics.handle self) as [h|] eqn:Hh; [|reflexivity].
      destruct (Hhandle h eq_refl) as (c & n & o & -> & Hc).
      apply remove_last_absent, later_handle_is_new. lia.
    - rewrite Hh, Hls.
      destruct (RuntimeMetrics.runtimeStatsService self); [|congruence].
      apply remove_last_snoc. }
  split; [|exact Hcleared]. unfold RuntimeMetrics.owned. cbn [fst snd].
  split; [rewrite Hf; assumption|]. split; [assumption|]. split.
  - intros h Hh. rewrite Hf. now apply Hhandle.
  - left. exact Hcleared.
Qed.

Lemma RuntimeMetrics_run_owned (calls : list RuntimeMetrics.call) :
  forall (live : bool) (st : RuntimeMetrics.t * Env.World),
    (if live then RuntimeMetrics.owned w0 st else RuntimeMetrics.idle w0 st) ->
    RuntimeMetrics.disciplined live calls = true ->
    exists st', RuntimeMetrics.run calls st = RuntimeMetrics.Returned st' /\
                RuntimeMetrics.owned w0 st'.
Proof.
  induction calls as [|[config|] calls IH]; intros live st Hst Hd; simpl in *.
  - exists st. split; [reflexivity|]. destruct live; [assumption|apply Hst].
  - apply andb_prop in Hd as [Hlive Hd]. destruct live; [discriminate|].
    apply (IH true); [|assumption]. now apply RuntimeMetrics_init_owned.
  - assert (Howned : RuntimeMetrics.owned w0 st)
      by (destruct live; [assumption|apply Hst]).
    destruct (RuntimeMetrics_destroy_idle st Howned) as (st' & -> & Hidle).
    now apply (IH false).
Qed.

End RuntimeTeardown.

Lemma RuntimeMetrics_run_app (calls calls' : list RuntimeMetrics.call)
    (st st' : RuntimeMetrics.t * Env.World) :
  RuntimeMetrics.run calls st = RuntimeMetrics.Returned st' ->
  RuntimeMetrics.run (calls ++ calls') st = RuntimeMetrics.run calls' st'.
Proof.
  revert st. induction calls as [|c calls IH]; intros st H; simpl in *.
  - now injection H as ->.
  - destruct (RuntimeMetrics.step st c); [now apply IH|discriminate].
Qed.

(** C5, as stated, fails: [init] called twice and then [destroy] leaves
    the timer of the first [init] running (and the handle of the first
    [init] of the runtime probe attached), in a process that had no timer
    and no listener to begin with. *)
Lemma second_init_leaks :
  Env.well_formed Scenario.ready /\
  V8Metric.scheduled Scenario.ready = [] /\
  V8Metric.scheduled
    (snd (V8Metric.run [V8Metric.Init None; V8Metric.Init None; V8Metric.Destroy]
            (V8Metric.create, Scenario.ready)))
    = [Env.V8Sample] /\
  RuntimeMetrics.listening Scenario.ready = [] /\
  exists st',
    RuntimeMetrics.run
      [RuntimeMetrics.Init None; RuntimeMetrics.Init None; RuntimeMetrics.Destroy]
      (RuntimeMetrics.create, Scenario.ready) = RuntimeMetrics.Returned st' /\
    RuntimeMetrics.listening (snd st') = [Env.Handle 0 0 1].
Proof.
  split; [split; constructor|].
  split; [reflexivity|].
  split; [vm_compute; reflexivity|].
  split; [reflexivity|].
  eexists. split; vm_compute; reflexivity.
Qed.

(** C5, amended: provided [init] is not called again before [destroy] has
    followed the previous [init], a sequence of calls that ends in
    [destroy] leaves the timers (for the runtime probe: the ['data']
    listeners) exactly as they were before the probe was created: the
    timer the probe started has been cleared and its handle detached when
    [destroy] returns, so no callback of the probe is left to fire. *)
Theorem destroy_stops_sampling (w : Env.World) :
  Env.well_formed w ->
  (forall calls : list V8Metric.call,
     V8Metric.disciplined false calls = true ->
     Env.timers (snd (V8Metric.run (calls ++ [V8Metric.Destroy]) (V8Metric.create, w)))
       = Env.timers w) /\
  (forall calls : list RuntimeMetrics.call,
     RuntimeMetrics.disciplined false calls = true ->
     exists st',
       RuntimeMetrics.run (calls ++ [RuntimeMetrics.Destroy]) (RuntimeMetrics.create, w)
         = RuntimeMetrics.Returned st' /\
       RuntimeMetrics.listening (snd st') = RuntimeMetrics.listening w).
Proof.
  intros [Htimers Hlisteners]. split.
  - intros calls Hd.
    assert (Hidle : V8Metric.idle w (V8Metric.create, w)).
    { split; [|reflexivity]. split; [simpl; lia|].
      split; [discriminate | now left]. }
    pose proof (V8Metric_run_owned w Htimers calls false _ Hidle Hd) as Howned.
    unfold V8Metric.run in *. rewrite fold_left_app. cbn [fold_left V8Metric.step].
    apply (V8Metric_destroy_idle w Htimers _ Howned).
  - intros calls Hd.
    assert (Hidle : RuntimeMetrics.idle w (RuntimeMetrics.create, w)).
    { split; [|reflexivity]. split; [simpl; lia|].
      split; [intros H; now destruct H|].
      split; [discriminate | now left]. }
    destruct (RuntimeMetrics_run_owned w Hlisteners calls false _ Hidle Hd)
      as (st & Hrun & Howned).
    rewrite (RuntimeMetrics_run_app _ _ _ _ Hrun). cbn [RuntimeMetrics.run RuntimeMetrics.step].
    destruct (RuntimeMetrics_destroy_idle w Hlisteners st Howned) as (st' & -> & _ & Hl).
    eauto.
Qed.

Lemma destroy_stops_sampling_witness :
  Env.timers
    (snd (V8Metric.run
            [V8Metric.Init None; V8Metric.Destroy; V8Metric.Init None; V8Metric.Destroy]
            (V8Metric.create, Scenario.ready)))
    = [].
Proof.
  assert (Hwf : Env.well_formed Scenario.ready) by (split; constructor).
  exact (proj1 (destroy_stops_sampling Scenario.ready Hwf)
           [V8Metric.Init None; V8Metric.Destroy; V8Metric.Init None] eq_refl).
Defined.

(** C10: [destroy] never throws, wherever it is called in whatever
    sequence of [init] and [destroy] calls on a new probe: every such
    sequence runs to its end, and a [destroy] after it runs to its last
    statement, the ['destroy'] log line. *)
Theorem destroy_never_throws (w : Env.World) :
  (forall calls : list V8Metric.call,
     let st := V8Metric.run calls (V8Metric.create, w) in
     Env.debug (snd (V8Metric.destroy (fst st) (snd st)))
       = Env.debug (snd st) ++ [(V8Metric.namespace, "destroy")]) /\
  (forall calls : list RuntimeMetrics.call,
     exists st st',
       RuntimeMetrics.run calls (RuntimeMetrics.create, w) = RuntimeMetrics.Returned st /\
       RuntimeMetrics.destroy (fst st) (snd st) = RuntimeMetrics.Returned st' /\
       Env.debug (snd st')
         = Env.debug (snd st) ++ [(RuntimeMetrics.namespace, "destroy")]).
Proof.
  split.
  - intros calls st. unfold V8Metric.destroy. cbn [snd Env.log Env.set_debug Env.debug].
    now destruct (V8Metric.timer (fst st)).
  - intros calls.
    assert (Harmed : RuntimeMetrics.armed (fst (RuntimeMetrics.create, w)))
      by (intros H; now destruct H).
    destruct (RuntimeMetrics_run_returns calls _ Harmed) as ([self w'] & Hrun & Harmed').
    destruct (RuntimeMetrics_destroy_returns self w' Harmed') as (w'' & Hd & _ & Hlog & _).
    exists (self, w'), (self, w''). auto.
Qed.

(** [destroy] before any [init], after an [init] that found no service, and
    twice in a row. *)
Example destroy_in_a_bare_process :
  exists st,
    RuntimeMetrics.run
      [RuntimeMetrics.Destroy; RuntimeMetrics.Init None; RuntimeMetrics.Destroy;
       RuntimeMetrics.Destroy]
      (RuntimeMetrics.create, Scenario.bare) = RuntimeMetrics.Returned st /\
    Env.debug (snd st)
      = [(RuntimeMetrics.namespace, "destroy");
         (RuntimeMetrics.namespace, "Failed to load metric service");
         (RuntimeMetrics.namespace, "destroy");
         (RuntimeMetrics.namespace, "destroy")].
Proof. eexists. split; vm_compute; reflexivity. Qed.

(** * Further properties *)

(** ** The V8 probe: gauges bound by [init] *)

Lemma register_all_gauges (c : gmap string bool)
    (defs : list (string * V8Metric.Definition_)) :
  forall (self : V8Metric.t) (w : Env.World),
    Env.gauges (snd (fold_left (V8Metric.register c) defs (self, w)))
      = Env.gauges w ++
        replicate
          (length (List.filter (fun d => negb (V8Metric.skipped c (fst d))) defs))
          None.
Proof.
  induction defs as [|[k0 d0] defs IH]; intros self w.
  - simpl. now rewrite app_nil_r.
  - cbn [fold_left List.filter fst]. rewrite register_step.
    destruct (V8Metric.skipped c k0); cbn [negb]; [apply IH|].
    rewrite IH. cbn [Env.registerMetric Env.set_metrics Env.set_gauges Env.gauges
                     length replicate].
    now rewrite <- app_assoc.
Qed.

Lemma register_sound (c : gmap string bool) (st : V8Metric.t * Env.World)
    (d : string * V8Metric.Definition_) :
  V8Metric.store_sound st -> V8Metric.store_sound (V8Metric.register c st d).
Proof.
  destruct st as [self w], d as [k0 d0]. intros [Hbound Hinj].
  rewrite register_step. destruct (V8Metric.skipped c k0); [now split|].
  cbn [fst snd] in *. split; cbn [fst snd V8Metric.metricStore Env.registerMetric
                                   Env.set_metrics Env.set_gauges Env.gauges].
  - intros k g Hk. rewrite length_app. simpl.
    destruct (decide (k0 = k)) as [->|Hne].
    + rewrite lookup_insert_eq in Hk. injection Hk as <-. lia.
    + rewrite lookup_insert_ne in Hk by assumption.
      specialize (Hbound k g Hk). lia.
  - intros k k' g Hk Hk'.
    destruct (decide (k0 = k)) as [<-|Hne], (decide (k0 = k')) as [<-|Hne'];
      try reflexivity.
    + rewrite lookup_insert_eq in Hk. injection Hk as <-.
      rewrite lookup_insert_ne in Hk' by assumption.
      specialize (Hbound k' _ Hk'). lia.
    + rewrite lookup_insert_eq in Hk'. injection Hk' as <-.
      rewrite lookup_insert_ne in Hk by assumption.
      specialize (Hbound k _ Hk). lia.
    + rewrite lookup_insert_ne in Hk, Hk' by assumption. eauto.
Qed.

Lemma register_all_sound (c : gmap string bool)
    (defs : list (string * V8Metric.Definition_)) :
  forall st : V8Metric.t * Env.World,
    V8Metric.store_sound st ->
    V8Metric.store_sound (fold_left (V8Metric.register c) defs st).
Proof.
  induction defs as [|d defs IH]; intros st Hst; simpl; [assumption|].
  apply IH. now apply register_sound.
Qed.

Lemma V8Metric_init_sound (config : option V8Metric.Config) (self : V8Metric.t)
    (w : Env.World) :
  V8Metric.store_sound (self, w) ->
  V8Metric.store_sound (V8Metric.init config self w).
Proof.
  intros Hs.
  assert (Hoff : config = Some (V8Metric.Flag false) \/
                 config <> Some (V8Metric.Flag false)).
  { destruct config as [[[|]|]|]; (now left) || (right; discriminate). }
  destruct Hoff as [->|Hc]; [now rewrite V8Metric_init_disabled|].
  destruct (Env.metrics w) as [registry|] eqn:Hm.
  2:{ rewrite V8Metric_init_no_service by assumption. exact Hs. }
  destruct (Env.getHeapStatistics w) eqn:Hh.
  2:{ rewrite V8Metric_init_no_heap by eauto. exact Hs. }
  rewrite V8Metric_init_ready by eauto. cbn zeta.
  match goal with
  | |- context [fold_left (V8Metric.register ?c) ?l (?s0, ?w0)] =>
      assert (Hfold : V8Metric.store_sound (fold_left (V8Metric.register c) l (s0, w0)))
        by (apply register_all_sound; exact Hs);
      destruct (fold_left (V8Metric.register c) l (s0, w0)) as [s1 w1]
  end.
  exact Hfold.
Qed.

(** X: a successful [init] binds every definition it does not pass over to
    a gauge of its own: the gauges of the world grow by exactly one unset
    gauge for each such definition, and a store whose gauges exist and are
    pairwise distinct stays so (whatever the outcome of [init]). *)
Theorem init_binds_new_gauges (config : option V8Metric.Config)
    (self : V8Metric.t) (w : Env.World) :
  let st := V8Metric.init config self w in
  (V8Metric.store_sound (self, w) -> V8Metric.store_sound st) /\
  (is_Some (Env.metrics w) -> Env.getHeapStatistics w = true ->
   config <> Some (V8Metric.Flag false) ->
   Env.gauges (snd st)
     = Env.gauges w ++
       replicate (length (V8Metric.enabled (V8Metric.effective config))) None).
Proof.
  intros st. split; [apply V8Metric_init_sound|].
  intros Hm Hh Hc. subst st. rewrite V8Metric_init_ready by assumption. cbn zeta.
  match goal with
  | |- context [fold_left (V8Metric.register ?c) ?l (?s0, ?w0)] =>
      pose proof (register_all_gauges c l s0 w0) as Hg
  end.
  cbn [snd Env.unref Env.setInterval Env.set_timers Env.set_fresh Env.gauges].
  exact Hg.
Qed.

Lemma init_binds_new_gauges_witness :
  Env.gauges (snd (V8Metric.init (Some (V8Metric.Options V8Metric.heap_sizes_off))
                     V8Metric.create Scenario.ready))
    = [None; None].
Proof.
  assert (Hm : is_Some (Env.metrics Scenario.ready)) by (simpl; eauto).
  assert (Hc : Some (V8Metric.Options V8Metric.heap_sizes_off)
               <> Some (V8Metric.Flag false)) by discriminate.
  exact (proj2 (init_binds_new_gauges (Some (V8Metric.Options V8Metric.heap_sizes_off))
                  V8Metric.create Scenario.ready) Hm eq_refl Hc).
Defined.

(** ** The V8 probe: what a tick writes *)

Lemma refresh_frame (self : V8Metric.t) (stats : gmap string Number.number)
    (w : Env.World) (d : string * V8Metric.Definition_) :
  V8Metric.refresh self stats w d
    = Env.set_gauges (Env.gauges (V8Metric.refresh self stats w d)) w.
Proof.
  unfold V8Metric.refresh.
  destruct (stats !! fst d); [|now destruct w].
  destruct (V8Metric.metricStore self !! fst d); [reflexivity|now destruct w].
Qed.

Lemma refresh_all_frame (self : V8Metric.t) (stats : gmap string Number.number)
    (defs : list (string * V8Metric.Definition_)) :
  forall w : Env.World,
    fold_left (V8Metric.refresh self stats) defs w
      = Env.set_gauges
          (Env.gauges (fold_left (V8Metric.refresh self stats) defs w)) w.
Proof.
  induction defs as [|d defs IH]; intros w; cbn [fold_left]; [now destruct w|].
  rewrite IH at 1. rewrite (refresh_frame self stats w d) at 2. reflexivity.
Qed.

Lemma refresh_all_untouched (self : V8Metric.t) (stats : gmap string Number.number)
    (g : nat) (defs : list (string * V8Metric.Definition_)) :
  forall w : Env.World,
    (forall k d, (k, d) ∈ defs -> V8Metric.metricStore self !! k = Some g ->
                 stats !! k = None) ->
    Env.gauges (fold_left (V8Metric.refresh self stats) defs w) !! g
      = Env.gauges w !! g.
Proof.
  induction defs as [|[k0 d0] defs IH]; intros w Hdefs; cbn [fold_left];
    [reflexivity|].
  rewrite IH by (intros k d Hd; apply (Hdefs k d); now right).
  unfold V8Metric.refresh. cbn [fst].
  destruct (stats !! k0) as [x|] eqn:Hx; [|reflexivity].
  destruct (V8Metric.metricStore self !! k0) as [g0|] eqn:Hg0; [|reflexivity].
  simpl. apply list_lookup_insert_ne. intros ->.
  specialize (Hdefs k0 d0 ltac:(left) Hg0). congruence.
Qed.

Lemma tick_lookup_size (self : V8Metric.t) (stats : gmap string Number.number)
    (w : Env.World) (k : string) (g : nat) (x : Number.number) :
  k = "total_heap_size" \/ k = "used_heap_size" ->
  stats !! k = Some x ->
  V8Metric.metricStore self !! k = Some g ->
  (g < length (Env.gauges w))%nat ->
  (forall k' d, (k', d) ∈ V8Metric.metricsDefinitions -> k' <> k ->
                V8Metric.metricStore self !! k' <> Some g) ->
  Env.gauges (V8Metric.tick stats self w) !! g
    = Some (Some (JS.Str (V8Metric.formatMiBytes x))).
Proof.
  intros Hk Hx Hg Hlen Hothers. unfold V8Metric.tick.
  assert (Hloop :
    Env.gauges (fold_left (V8Metric.refresh self stats) V8Metric.metricsDefinitions w) !! g
    = Some (Some (JS.Str (V8Metric.formatMiBytes x)))).
  { rewrite (refresh_all_lookup self stats k g x Hx Hg) by assumption.
    destruct (decide (k ∈ map fst V8Metric.metricsDefinitions)) as [_|Hn];
      [reflexivity|].
    exfalso. apply Hn. apply (bool_decide_unpack _).
    destruct Hk as [-> | ->]; vm_compute; reflexivity. }
  destruct (V8Metric.metricStore self !! "heap_used_percent") as [g'|] eqn:Hg';
    [|exact Hloop].
  simpl. rewrite list_lookup_insert_ne; [exact Hloop|].
  intros ->. apply (Hothers "heap_used_percent" _
                      ltac:(unfold V8Metric.metricsDefinitions; repeat constructor));
    [|assumption].
  destruct Hk as [-> | ->]; discriminate.
Qed.

Lemma tick_lookup_usage (self : V8Metric.t) (stats : gmap string Number.number)
    (w : Env.World) (g : nat) :
  V8Metric.metricStore self !! "heap_used_percent" = Some g ->
  (g < length (Env.gauges w))%nat ->
  Env.gauges (V8Metric.tick stats self w) !! g
    = Some (Some (JS.Num (Number.parseFloat (V8Metric.usage stats)))).
Proof.
  intros Hg Hlen. unfold V8Metric.tick. rewrite Hg.
  cbn [Env.gauge_set Env.gauges Env.set_gauges].
  apply list_lookup_insert_eq. now rewrite refresh_all_length.
Qed.

(** X: a tick writes gauges and nothing else.  The world is as before but
    for the gauges, no gauge is added or removed, and a gauge keeps its
    value unless it is the usage gauge or is bound to a definition key
    whose field of the heap statistics is a number. *)
Theorem tick_writes_bound_gauges_only (self : V8Metric.t)
    (stats : gmap string Number.number) (w : Env.World) :
  let w' := V8Metric.tick stats self w in
  w' = Env.set_gauges (Env.gauges w') w /\
  length (Env.gauges w') = length (Env.gauges w) /\
  (forall g : nat,
     V8Metric.metricStore self !! "heap_used_percent" <> Some g ->
     (forall k d, (k, d) ∈ V8Metric.metricsDefinitions ->
                  V8Metric.metricStore self !! k = Some g -> stats !! k = None) ->
     Env.gauges w' !! g = Env.gauges w !! g).
Proof.
  intros w'. subst w'. unfold V8Metric.tick.
  pose proof (refresh_all_frame self stats V8Metric.metricsDefinitions w) as Hframe.
  pose proof (refresh_all_length self stats V8Metric.metricsDefinitions w) as Hlen.
  set (w1 := fold_left (V8Metric.refresh self stats) V8Metric.metricsDefinitions w) in *.
  destruct (V8Metric.metricStore self !! "heap_used_percent") as [u|] eqn:Hu.
  - repeat split.
    + rewrite Hframe at 1. reflexivity.
    + cbn [Env.gauge_set Env.gauges Env.set_gauges]. now rewrite length_insert.
    + intros g Hg Hdefs. cbn [Env.gauge_set Env.gauges Env.set_gauges].
      rewrite list_lookup_insert_ne by congruence.
      now apply refresh_all_untouched.
  - repeat split; [exact Hframe | exact Hlen |].
    intros g _ Hdefs. now apply refresh_all_untouched.
Qed.

Lemma tick_writes_bound_gauges_only_witness :
  let st := V8Metric.init None V8Metric.create Scenario.ready in
  Env.gauges
    (V8Metric.tick (<["used_heap_size" := Number.of_Z 1024]> ∅) (fst st) (snd st)) !! 0%nat
    = Some None.
Proof.
  intros st.
  refine (proj2 (proj2 (tick_writes_bound_gauges_only (fst st)
                          (<["used_heap_size" := Number.of_Z 1024]> ∅) (snd st)))
            0%nat _ _).
  - vm_compute. discriminate.
  - intros k d Hin Hg. unfold V8Metric.metricsDefinitions in Hin.
    repeat (apply elem_of_cons in Hin as [Hin|Hin];
            [apply (f_equal fst) in Hin; simpl in Hin; subst k;
             first [ reflexivity | exfalso; vm_compute in Hg; discriminate ] |]).
    now apply elem_of_nil in Hin.
Defined.

Lemma div_NaN (x y : Number.number) :
  x = Number.NaN \/ y = Number.NaN -> Number.div x y = Number.NaN.
Proof. intros [-> | ->]; [reflexivity|]. now destruct x as [| | |? ? ?]. Qed.

(** X: the heap usage is computed without a guard.  When the heap
    statistics lack [used_heap_size] or [total_heap_size], the usage gauge
    is set to [NaN]; when [total_heap_size] is zero and [used_heap_size] a
    positive number, it is set to [Infinity]. *)
Theorem usage_is_not_guarded (self : V8Metric.t)
    (stats : gmap string Number.number) (w : Env.World) (g : nat) :
  V8Metric.metricStore self !! "heap_used_percent" = Some g ->
  (g < length (Env.gauges w))%nat ->
  (stats !! "used_heap_size" = None \/ stats !! "total_heap_size" = None ->
   Env.gauges (V8Metric.tick stats self w) !! g
     = Some (Some (JS.Num Number.NaN))) /\
  (forall (m : positive) (e : Z) (s : bool),
     stats !! "used_heap_size" = Some (S754_finite false m e) ->
     stats !! "total_heap_size" = Some (S754_zero s) ->
     Env.gauges (V8Metric.tick stats self w) !! g
       = Some (Some (JS.Num (S754_infinity s)))).
Proof.
  intros Hg Hlen. split.
  - intros Hmissing. rewrite tick_lookup_usage by assumption.
    unfold V8Metric.usage, V8Metric.stat.
    rewrite div_NaN; [reflexivity|].
    destruct Hmissing as [-> | ->]; [left|right]; reflexivity.
  - intros m e s Hused Htotal. rewrite tick_lookup_usage by assumption.
    unfold V8Metric.usage, V8Metric.stat. unfold Number.number in *.
    rewrite Hused, Htotal.
    destruct s; vm_compute; reflexivity.
Qed.

Lemma usage_is_not_guarded_witness :
  let st := V8Metric.init None V8Metric.create Scenario.ready in
  Env.gauges (V8Metric.tick ∅ (fst st) (snd st)) !! 1%nat
    = Some (Some (JS.Num Number.NaN)).
Proof.
  intros st.
  refine (proj1 (usage_is_not_guarded (fst st) ∅ (snd st) 1%nat eq_refl _) _).
  - vm_compute. lia.
  - left. reflexivity.
Defined.

(** ** The V8 probe: [init] and its outcomes *)

Lemma V8Metric_init_bound (config : option V8Metric.Config) (self : V8Metric.t)
    (w : Env.World) (k : string) (d : V8Metric.Definition_) :
  is_Some (Env.metrics w) ->
  Env.getHeapStatistics w = true ->
  config <> Some (V8Metric.Flag false) ->
  (k, d) ∈ V8Metric.metricsDefinitions ->
  V8Metric.effective config !! k <> Some false ->
  exists g : nat,
    V8Metric.metricStore (fst (V8Metric.init config self w)) !! k = Some g /\
    Env.binding (V8Metric.id d) (V8Metric.registry (snd (V8Metric.init config self w)))
      = Some (V8Metric.gauge_metric d g).
Proof.
  intros Hm Hh Hc Hkd Hon.
  rewrite V8Metric_init_ready by assumption. cbn zeta.
  match goal with
  | |- context [fold_left (V8Metric.register ?c) ?l (?s0, ?w0)] =>
      pose proof (register_all c l
                    metricsDefinitions_keys_NoDup metricsDefinitions_ids_NoDup s0 w0)
        as [_ _ _ _ _ _ _ _ _ _ Hdefs];
      destruct (fold_left (V8Metric.register c) l (s0, w0)) as [s1 w1]
  end.
  cbn [fst snd V8Metric.metricStore] in *.
  specialize (Hdefs k d Hkd). unfold V8Metric.skipped in Hdefs.
  destruct (V8Metric.effective config !! k) as [[|]|]; try congruence;
    destruct Hdefs as (g & _ & Hs & Hb); exists g; (split; [exact Hs|]);
    apply Hb; exact Hm.
Qed.

(** X: [init()] and [init(true)] work with the default options, under
    which none of the three definitions is passed over: each of
    [total_heap_size], [heap_used_percent] and [used_heap_size] is bound to
    a gauge and registered under its id with the name, unit and historic
    flag of its definition. *)
Theorem init_default_registers_all (config : option V8Metric.Config)
    (self : V8Metric.t) (w : Env.World) :
  config = None \/ config = Some (V8Metric.Flag true) ->
  is_Some (Env.metrics w) ->
  Env.getHeapStatistics w = true ->
  let st := V8Metric.init config self w in
  st = V8Metric.init (Some (V8Metric.Options V8Metric.defaultOptions)) self w /\
  forall k d, (k, d) ∈ V8Metric.metricsDefinitions ->
    exists g : nat,
      V8Metric.metricStore (fst st) !! k = Some g /\
      Env.binding (V8Metric.id d) (V8Metric.registry (snd st))
        = Some {| Env.metric_name := V8Metric.name d;
                  Env.metric_id := V8Metric.id d;
                  Env.metric_unit := Some (V8Metric.unit d);
                  Env.metric_historic := Some (V8Metric.historic d);
                  Env.metric_source := Env.Gauge g |}.
Proof.
  intros Hconfig Hm Hh st. subst st. split.
  - rewrite !V8Metric_init_ready by (assumption || destruct Hconfig; subst; discriminate).
    destruct Hconfig as [-> | ->]; reflexivity.
  - intros k d Hkd.
    apply V8Metric_init_bound; try assumption.
    + destruct Hconfig as [-> | ->]; discriminate.
    + assert (Heff : V8Metric.effective config = V8Metric.defaultOptions)
        by (destruct Hconfig as [-> | ->]; reflexivity).
      rewrite Heff. unfold V8Metric.metricsDefinitions in Hkd.
      repeat (apply elem_of_cons in Hkd as [Hkd|Hkd];
              [apply (f_equal fst) in Hkd; simpl in Hkd; subst k;
               vm_compute; discriminate|]).
      now apply elem_of_nil in Hkd.
Qed.

Lemma init_default_registers_all_witness :
  V8Metric.init (Some (V8Metric.Flag true)) V8Metric.create Scenario.ready
    = V8Metric.init (Some (V8Metric.Options V8Metric.defaultOptions))
        V8Metric.create Scenario.ready.
Proof.
  assert (Hm : is_Some (Env.metrics Scenario.ready)) by (simpl; eauto).
  exact (proj1 (init_default_registers_all (Some (V8Metric.Flag true))
                  V8Metric.create Scenario.ready (or_intror eq_refl) Hm eq_refl)).
Defined.

(** X: when [v8] has no [getHeapStatistics], [init] logs ['init'] and then
    that it aborts, and stops there: the world is as before but for these
    two log lines (no metric registered, no gauge made, no timer started),
    and the probe keeps its timer and store; only its reference to the
    metric service is set. *)
Theorem init_aborts_without_getHeapStatistics (config : option V8Metric.Config)
    (self : V8Metric.t) (w : Env.World) :
  is_Some (Env.metrics w) ->
  Env.getHeapStatistics w = false ->
  config <> Some (V8Metric.Flag false) ->
  let st := V8Metric.init config self w in
  snd st = Env.set_debug
             (Env.debug w ++
                [(V8Metric.namespace, "init");
                 (V8Metric.namespace, "V8.getHeapStatistics is not available, aborting")])
             w /\
  V8Metric.timer (fst st) = V8Metric.timer self /\
  V8Metric.metricStore (fst st) = V8Metric.metricStore self /\
  V8Metric.metricService (fst st) = Some Env.MetricService.
Proof.
  intros Hm Hh Hc st. subst st. rewrite V8Metric_init_no_heap by assumption.
  split; [|now repeat split].
  unfold Env.log, Env.set_debug. simpl. now rewrite <- app_assoc.
Qed.

Lemma init_aborts_without_getHeapStatistics_witness :
  Env.timers (snd (V8Metric.init None V8Metric.create Scenario.old_v8)) = [] /\
  Env.metrics (snd (V8Metric.init None V8Metric.create Scenario.old_v8)) = Some [].
Proof.
  assert (Hm : is_Some (Env.metrics Scenario.old_v8)) by (simpl; eauto).
  assert (Hc : (None : option V8Metric.Config) <> Some (V8Metric.Flag false))
    by discriminate.
  destruct (init_aborts_without_getHeapStatistics None V8Metric.create Scenario.old_v8
              Hm eq_refl Hc) as (Hw & _).
  rewrite Hw. split; reflexivity.
Defined.

(** ** The V8 probe: [init] followed by a tick *)

(** X: the gauges [init] binds are the ones a tick writes.  After an
    [init] that found its services, on a probe whose store is sound (a new
    probe's is), a tick sets the gauge of each heap-size definition that
    was not passed over, and whose field of the heap statistics is a
    number, to that field formatted in MiB, and the gauge of the heap
    usage, if not passed over, to the parsed percentage. *)
Theorem init_then_tick (config : option V8Metric.Config) (self : V8Metric.t)
    (w : Env.World) (stats : gmap string Number.number) :
  is_Some (Env.metrics w) ->
  Env.getHeapStatistics w = true ->
  config <> Some (V8Metric.Flag false) ->
  V8Metric.store_sound (self, w) ->
  let st := V8Metric.init config self w in
  let w' := V8Metric.tick stats (fst st) (snd st) in
  (forall k x,
     k = "total_heap_size" \/ k = "used_heap_size" ->
     V8Metric.effective config !! k <> Some false ->
     stats !! k = Some x ->
     exists g : nat,
       V8Metric.metricStore (fst st) !! k = Some g /\
       Env.gauges w' !! g = Some (Some (JS.Str (V8Metric.formatMiBytes x)))) /\
  (V8Metric.effective config !! "heap_used_percent" <> Some false ->
   exists g : nat,
     V8Metric.metricStore (fst st) !! "heap_used_percent" = Some g /\
     Env.gauges w' !! g
       = Some (Some (JS.Num (Number.parseFloat (V8Metric.usage stats))))).
Proof.
  intros Hm Hh Hc Hsound st w'.
  pose proof (V8Metric_init_sound config self w Hsound) as [Hbound Hinj].
  fold st in Hbound, Hinj. split.
  - intros k x Hk Hon Hx.
    assert (Hkd : exists d, (k, d) ∈ V8Metric.metricsDefinitions).
    { destruct Hk as [-> | ->]; eexists; unfold V8Metric.metricsDefinitions;
        repeat constructor. }
    destruct Hkd as [d Hkd].
    destruct (V8Metric_init_bound config self w k d Hm Hh Hc Hkd Hon) as (g & Hg & _).
    fold st in Hg. exists g. split; [exact Hg|].
    subst w'. apply (tick_lookup_size _ _ _ k); try assumption.
    + now apply (Hbound k).
    + intros k' d' _ Hne Hg'. apply Hne. now apply (Hinj k' k g).
  - intros Hon.
    destruct (V8Metric_init_bound config self w "heap_used_percent" _ Hm Hh Hc
                ltac:(unfold V8Metric.metricsDefinitions; repeat constructor) Hon)
      as (g & Hg & _).
    fold st in Hg. exists g. split; [exact Hg|].
    subst w'. apply tick_lookup_usage; [assumption|]. now apply (Hbound "heap_used_percent").
Qed.

Lemma init_then_tick_witness :
  let st := V8Metric.init None V8Metric.create Scenario.ready in
  exists g : nat,
    V8Metric.metricStore (fst st) !! "used_heap_size" = Some g /\
    Env.gauges (V8Metric.tick Scenario.heap (fst st) (snd st)) !! g
      = Some (Some (JS.Str (V8Metric.formatMiBytes (Number.of_Z 3512345)))).
Proof.
  intros st.
  assert (Hm : is_Some (Env.metrics Scenario.ready)) by (simpl; eauto).
  assert (Hc : (None : option V8Metric.Config) <> Some (V8Metric.Flag false))
    by discriminate.
  assert (Hs : V8Metric.store_sound (V8Metric.create, Scenario.ready)).
  { split; intros k; intros; simpl in *; rewrite lookup_empty in *; discriminate. }
  refine (proj1 (init_then_tick None V8Metric.create Scenario.ready Scenario.heap
                   Hm eq_refl Hc Hs) "used_heap_size" _ (or_intror eq_refl) _ eq_refl).
  vm_compute. discriminate.
Defined.

(** ** The V8 probe: [destroy] *)

Lemma clear_idempotent (i : nat) (ts : list Env.Timer) :
  let keep := fun t => negb (Env.timer_id t =? i)%nat in
  List.filter keep (List.filter keep ts) = List.filter keep ts.
Proof.
  intros keep. induction ts as [|t ts IH]; simpl; [reflexivity|].
  destruct (keep t) eqn:E; simpl; [rewrite E; now f_equal | exact IH].
Qed.

(** X: [destroy] clears the timer the probe holds and no other: a timer is
    scheduled afterwards exactly when it was scheduled before and is not
    the one in [this.timer].  It leaves the probe itself, the registered
    metrics and the gauges as they are (the metrics stay registered), and
    calling it again changes nothing but the log. *)
Theorem destroy_clears_own_timer_only (self : V8Metric.t) (w : Env.World) :
  let st := V8Metric.destroy self w in
  fst st = self /\
  Env.metrics (snd st) = Env.metrics w /\
  Env.gauges (snd st) = Env.gauges w /\
  (forall t, t ∈ Env.timers (snd st) <->
             t ∈ Env.timers w /\ V8Metric.timer self <> Some (Env.timer_id t)) /\
  Env.timers (snd (V8Metric.destroy (fst st) (snd st))) = Env.timers (snd st).
Proof.
  intros st. subst st. unfold V8Metric.destroy. cbn [fst snd].
  destruct (V8Metric.timer self) as [i|];
    cbn [Env.log Env.set_debug Env.clearInterval Env.set_timers Env.metrics
         Env.gauges Env.timers].
  - split; [reflexivity|]. split; [reflexivity|]. split; [reflexivity|].
    split; [|apply clear_idempotent].
    intros t. split.
    + intros Ht. apply list_elem_of_In, filter_In in Ht as [Ht Hk].
      split; [now apply list_elem_of_In|].
      intros E. injection E as ->. now rewrite Nat.eqb_refl in Hk.
    + intros [Ht Hne]. apply list_elem_of_In, filter_In. split.
      * now apply list_elem_of_In.
      * destruct (Nat.eqb_spec (Env.timer_id t) i); [congruence|reflexivity].
  - split; [reflexivity|]. split; [reflexivity|]. split; [reflexivity|].
    split; [|reflexivity].
    intros t. split; [intros Ht; split; [assumption|discriminate] | tauto].
Qed.

Lemma destroy_clears_own_timer_only_witness :
  let st := V8Metric.init None V8Metric.create Scenario.ready in
  Env.metrics (snd (V8Metric.destroy (fst st) (snd st))) = Env.metrics (snd st) /\
  Env.timers (snd (V8Metric.destroy (fst st) (snd st))) = [].
Proof.
  intros st.
  destruct (destroy_clears_own_timer_only (fst st) (snd st)) as (_ & Hm & _ & _ & _).
  split; [exact Hm | reflexivity].
Defined.

(** ** The runtime probe: what [init] sets up *)

Lemma binding_bind (i : string) (m : Env.Metric) (registry : list Env.Metric) :
  Env.binding i (Env.bind_metric m registry)
    = if String.eqb (Env.metric_id m) i then Some m else Env.binding i registry.
Proof.
  destruct (String.eqb_spec (Env.metric_id m) i) as [<-|Hne].
  - apply binding_bind_eq.
  - now apply binding_bind_ne.
Qed.

Lemma RuntimeMetrics_init_effective (config : option RuntimeMetrics.Config)
    (self : RuntimeMetrics.t) (w : Env.World) :
  config <> Some (RuntimeMetrics.Flag false) ->
  RuntimeMetrics.init config self w
    = RuntimeMetrics.init
        (Some (RuntimeMetrics.Options (RuntimeMetrics.effective config))) self w.
Proof. intros Hc. destruct config as [[[|]|o]|]; congruence || reflexivity. Qed.

Ltac split_members H :=
  repeat (apply elem_of_cons in H as [H|H];
          [first [ injection H as -> -> -> | injection H as -> -> ] |]);
  try (now apply elem_of_nil in H).

Ltac close_indices :=
  rewrite ?length_app; cbn [length];
  let rec close := first [ reflexivity | lia | f_equal; close ] in close.

Ltac run_init :=
  cbn [fst snd RuntimeMetrics.metrics RuntimeMetrics.handle
       RuntimeMetrics.set_metrics_map RuntimeMetrics.gcNewPause
       RuntimeMetrics.gcOldPause RuntimeMetrics.pageFaults
       RuntimeMetrics.contextSwitchs RuntimeMetrics.register_pauses
       Env.new_histogram Env.MetricService_histogram Env.registerMetric
       Env.set_metrics Env.set_histograms Env.set_fresh Env.set_debug
       Env.set_runtimeStats Env.log Env.on_data Env.histograms Env.fresh
       Env.metrics Env.runtimeStats Env.timers Env.gauges Env.debug].

Lemma RuntimeMetrics_init_ready (config : option RuntimeMetrics.Config)
    (self : RuntimeMetrics.t) (w : Env.World) :
  is_Some (Env.metrics w) ->
  is_Some (Env.runtimeStats w) ->
  config <> Some (RuntimeMetrics.Flag false) ->
  RuntimeMetrics.set_up (RuntimeMetrics.effective config) self w (RuntimeMetrics.init config self w).
Proof.
  intros [registry Hm] [listeners Hr] Hc.
  rewrite RuntimeMetrics_init_effective by assumption.
  generalize (RuntimeMetrics.effective config). clear config Hc. intros o.
  assert (Hget : Env.ServiceManager_get "metrics" w = Some Env.MetricService).
  { unfold Env.ServiceManager_get. simpl. now rewrite Hm. }
  assert (Hget' : Env.ServiceManager_get "runtimeStats" w = Some Env.RuntimeStatsService).
  { unfold Env.ServiceManager_get. simpl. now rewrite Hr. }
  unfold RuntimeMetrics.init.
  cbn [RuntimeMetrics.metricService RuntimeMetrics.runtimeStatsService].
  rewrite Hget. cbn [RuntimeMetrics.metricService RuntimeMetrics.runtimeStatsService].
  rewrite Hget'.
  destruct o as [[|] [|] [|] [|]];
    (split;
     [ run_init; rewrite <- ?app_assoc; reflexivity
     | run_init; close_indices
     | unfold RuntimeMetrics.listening; run_init; rewrite Hr; cbn [option_map default from_option id];
       close_indices
     | reflexivity | reflexivity | reflexivity | reflexivity
     | intros name flag h Hin; unfold RuntimeMetrics.kept in Hin; simpl in Hin;
       split_members Hin; run_init;
       repeat first [ rewrite lookup_insert_eq | rewrite lookup_insert_ne by discriminate ];
       close_indices
     | intros name Hout; unfold RuntimeMetrics.kept in Hout; simpl in Hout;
       rewrite !not_elem_of_cons in Hout; run_init;
       repeat (rewrite lookup_insert_ne by (intros E; symmetry in E; tauto));
       reflexivity
     | intros flag m Hin; unfold RuntimeMetrics.registrations in Hin; simpl in Hin;
       split_members Hin; unfold RuntimeMetrics.registry; run_init; rewrite Hm;
       cbn [option_map default from_option id];
       rewrite ?binding_bind; simpl;
       unfold RuntimeMetrics.pause_metric, RuntimeMetrics.usage_metric;
       close_indices
     | intros i Hout; unfold RuntimeMetrics.registrations in Hout; simpl in Hout;
       rewrite !not_elem_of_cons in Hout;
       unfold RuntimeMetrics.registry; run_init; rewrite Hm;
       cbn [option_map default from_option id];
       repeat (rewrite binding_bind_ne by (simpl; intros E; symmetry in E; tauto));
       reflexivity ]).
Qed.

(** ** The runtime probe: the data handler *)

Section Handler.

Context (policy : Histogram.Policy).

Lemma histogram_update_lookup (h j : nat) (v : JS.value) (w : Env.World) :
  Env.histograms (Env.histogram_update policy h v w) !! j
    = if decide (h = j) then Histogram.update policy v <$> Env.histograms w !! j
      else Env.histograms w !! j.
Proof.
  cbn [Env.histogram_update Env.set_histograms Env.histograms].
  destruct (decide (h = j)) as [->|Hne].
  - apply list_lookup_alter_eq.
  - now apply list_lookup_alter_ne.
Qed.

Lemma histogram_update_frame (h : nat) (v : JS.value) (w : Env.World) :
  Env.histogram_update policy h v w
    = Env.set_histograms (Env.histograms (Env.histogram_update policy h v w)) w /\
  length (Env.histograms (Env.histogram_update policy h v w))
    = length (Env.histograms w).
Proof.
  split; [reflexivity|].
  cbn [Env.histogram_update Env.set_histograms Env.histograms]. apply length_alter.
Qed.

Lemma feed_frame (self : RuntimeMetrics.t) (usage : list (string * JS.value))
    (w : Env.World) (entry : string * string) :
  RuntimeMetrics.feed policy self usage w entry
    = Env.set_histograms
        (Env.histograms (RuntimeMetrics.feed policy self usage w entry)) w /\
  length (Env.histograms (RuntimeMetrics.feed policy self usage w entry))
    = length (Env.histograms w).
Proof.
  unfold RuntimeMetrics.feed.
  destruct (RuntimeMetrics.metrics self !! fst entry).
  - apply histogram_update_frame.
  - split; [now destruct w | reflexivity].
Qed.

Lemma feed_all_frame (self : RuntimeMetrics.t) (usage : list (string * JS.value))
    (entries : list (string * string)) :
  forall w : Env.World,
    fold_left (RuntimeMetrics.feed policy self usage) entries w
      = Env.set_histograms
          (Env.histograms (fold_left (RuntimeMetrics.feed policy self usage) entries w)) w /\
    length (Env.histograms (fold_left (RuntimeMetrics.feed policy self usage) entries w))
      = length (Env.histograms w).
Proof.
  induction entries as [|e entries IH]; intros w; cbn [fold_left].
  - split; [now destruct w | reflexivity].
  - destruct (IH (RuntimeMetrics.feed policy self usage w e)) as [Hw Hl].
    destruct (feed_frame self usage w e) as [Hw' Hl'].
    split; [|congruence].
    rewrite Hw at 1. rewrite Hw' at 2. reflexivity.
Qed.

(** The histogram at [j] after the usage entries have been fed: one update
    for every entry that [this.metrics] binds to [j], in order. *)
Lemma feed_all_lookup (self : RuntimeMetrics.t) (usage : list (string * JS.value))
    (j : nat) (entries : list (string * string)) :
  forall w : Env.World,
    Env.histograms (fold_left (RuntimeMetrics.feed policy self usage) entries w) !! j
      = fold_left
          (fun found entry =>
             if bool_decide (RuntimeMetrics.metrics self !! fst entry = Some j)
             then Histogram.update policy (JS.field (snd entry) usage) <$> found
             else found)
          entries (Env.histograms w !! j).
Proof.
  induction entries as [|e entries IH]; intros w; cbn [fold_left]; [reflexivity|].
  rewrite IH. f_equal. unfold RuntimeMetrics.feed.
  destruct (RuntimeMetrics.metrics self !! fst e) as [h|] eqn:Hh.
  - rewrite histogram_update_lookup.
    destruct (decide (h = j)) as [->|Hne].
    + now rewrite bool_decide_eq_true_2.
    + rewrite bool_decide_eq_false_2 by congruence. reflexivity.
  - rewrite bool_decide_eq_false_2 by discriminate. reflexivity.
Qed.

(** A datum whose [gc] and [usage] are objects goes all the way through
    [handle]. *)
Lemma handle_data_objects (newHistogram oldHistogram : nat) (self : RuntimeMetrics.t)
    (fields gc usage : list (string * JS.value)) (w : Env.World) :
  JS.field "gc" fields = JS.Object gc ->
  JS.field "usage" fields = JS.Object usage ->
  RuntimeMetrics.handle_data policy newHistogram oldHistogram self (JS.Object fields) w
    = RuntimeMetrics.Returned
        (fold_left (RuntimeMetrics.feed policy self usage) RuntimeMetrics.usage_fields
           (Env.histogram_update policy oldHistogram (JS.field "oldPause" gc)
              (Env.histogram_update policy newHistogram (JS.field "newPause" gc) w))).
Proof.
  intros Hgc Husage.
  unfold RuntimeMetrics.handle_data, RuntimeMetrics.reading.
  cbn [JS.typeof JS.get]. simpl (String.eqb "object" "object"). cbn [negb].
  rewrite Hgc. cbn [JS.typeof JS.get]. simpl (String.eqb "object" "object"). cbn [negb].
  rewrite Husage. cbn [JS.typeof JS.get]. simpl (String.eqb "object" "object"). cbn [negb].
  unfold RuntimeMetrics.update_metric, RuntimeMetrics.reading, RuntimeMetrics.usage_fields.
  cbn [fold_left]. unfold RuntimeMetrics.feed. cbn [fst snd JS.get].
  repeat match goal with
         | |- context [RuntimeMetrics.metrics self !! ?k] =>
             destruct (RuntimeMetrics.metrics self !! k)
         end; reflexivity.
Qed.

End Handler.

(** X: a datum whose [gc] and [usage] fields are objects is handled to the
    end: [handle] returns, having changed nothing but histograms; no
    histogram is added or removed, and a histogram that is neither of the
    two the closure captured nor bound in [this.metrics] under one of the
    four usage keys is left as it was. *)
Theorem handle_feeds_histograms_only (policy : Histogram.Policy)
    (newHistogram oldHistogram : nat) (self : RuntimeMetrics.t)
    (fields gc usage : list (string * JS.value)) (w : Env.World) :
  JS.field "gc" fields = JS.Object gc ->
  JS.field "usage" fields = JS.Object usage ->
  exists w' : Env.World,
    RuntimeMetrics.handle_data policy newHistogram oldHistogram self
      (JS.Object fields) w = RuntimeMetrics.Returned w' /\
    w' = Env.set_histograms (Env.histograms w') w /\
    length (Env.histograms w') = length (Env.histograms w) /\
    (forall j : nat,
       j <> newHistogram -> j <> oldHistogram ->
       (forall name k, (name, k) ∈ RuntimeMetrics.usage_fields ->
                       RuntimeMetrics.metrics self !! name <> Some j) ->
       Env.histograms w' !! j = Env.histograms w !! j).
Proof.
  intros Hgc Husage.
  rewrite (handle_data_objects policy newHistogram oldHistogram self fields gc usage w
             Hgc Husage).
  set (w1 := Env.histogram_update policy newHistogram (JS.field "newPause" gc) w).
  set (w2 := Env.histogram_update policy oldHistogram (JS.field "oldPause" gc) w1).
  exists (fold_left (RuntimeMetrics.feed policy self usage) RuntimeMetrics.usage_fields w2).
  split; [reflexivity|].
  destruct (feed_all_frame policy self usage RuntimeMetrics.usage_fields w2) as [Hw Hl].
  destruct (histogram_update_frame policy oldHistogram (JS.field "oldPause" gc) w1)
    as [_ Hl2].
  destruct (histogram_update_frame policy newHistogram (JS.field "newPause" gc) w)
    as [_ Hl1].
  fold w1 in Hl1. fold w2 in Hl2.
  split; [|split].
  - rewrite Hw at 1. reflexivity.
  - congruence.
  - intros j Hn Ho Hfree. rewrite feed_all_lookup.
    unfold RuntimeMetrics.usage_fields. cbn [fold_left fst snd].
    rewrite !bool_decide_eq_false_2
      by (eapply Hfree; unfold RuntimeMetrics.usage_fields; repeat constructor).
    subst w2 w1. rewrite !histogram_update_lookup.
    destruct (decide (oldHistogram = j)); [congruence|].
    destruct (decide (newHistogram = j)); [congruence|reflexivity].
Qed.

Lemma handle_feeds_histograms_only_witness :
  let st := RuntimeMetrics.init None RuntimeMetrics.create Scenario.ready in
  exists w' : Env.World,
    RuntimeMetrics.handle_data Histogram.ring 0 1 (fst st)
      (JS.Object [("gc", JS.Object []); ("usage", JS.Object [])]) (snd st)
      = RuntimeMetrics.Returned w' /\
    length (Env.histograms w') = 6%nat.
Proof.
  intros st.
  destruct (handle_feeds_histograms_only Histogram.ring 0 1 (fst st)
              [("gc", JS.Object []); ("usage", JS.Object [])] [] [] (snd st)
              eq_refl eq_refl) as (w' & Hrun & _ & Hlen & _).
  exists w'. split; [exact Hrun | exact Hlen].
Defined.

(** X: [null] gets past the [typeof] tests of [handle].  A [null] datum,
    or a datum whose [gc] is [null], makes [handle] throw a [TypeError]
    before any histogram is updated.  A datum with an object [gc] and a
    [null] usage makes it throw after the two GC-pause histograms have
    been updated, if [this.metrics] holds any of the four usage
    histograms; if it holds none, [handle] returns. *)
Theorem handle_throws_on_null (policy : Histogram.Policy)
    (newHistogram oldHistogram : nat) (self : RuntimeMetrics.t) (w : Env.World) :
  RuntimeMetrics.handle_data policy newHistogram oldHistogram self JS.Null w
    = RuntimeMetrics.Threw "TypeError" w /\
  (forall fields,
     JS.field "gc" fields = JS.Null ->
     RuntimeMetrics.handle_data policy newHistogram oldHistogram self
       (JS.Object fields) w = RuntimeMetrics.Threw "TypeError" w) /\
  (forall fields gc,
     JS.field "gc" fields = JS.Object gc ->
     JS.field "usage" fields = JS.Null ->
     let w' :=
       Env.histogram_update policy oldHistogram (JS.field "oldPause" gc)
         (Env.histogram_update policy newHistogram (JS.field "newPause" gc) w) in
     ((exists name k, (name, k) ∈ RuntimeMetrics.usage_fields /\
                      is_Some (RuntimeMetrics.metrics self !! name)) ->
      RuntimeMetrics.handle_data policy newHistogram oldHistogram self
        (JS.Object fields) w = RuntimeMetrics.Threw "TypeError" w') /\
     ((forall name k, (name, k) ∈ RuntimeMetrics.usage_fields ->
                      RuntimeMetrics.metrics self !! name = None) ->
      RuntimeMetrics.handle_data policy newHistogram oldHistogram self
        (JS.Object fields) w = RuntimeMetrics.Returned w')).
Proof.
  split; [reflexivity|]. split.
  - intros fields Hgc. unfold RuntimeMetrics.handle_data, RuntimeMetrics.reading.
    cbn [JS.typeof JS.get]. simpl (String.eqb "object" "object"). cbn [negb].
    rewrite Hgc. reflexivity.
  - intros fields gc Hgc Husage w'.
    assert (Hrun :
      RuntimeMetrics.handle_data policy newHistogram oldHistogram self (JS.Object fields) w
      = match RuntimeMetrics.metrics self !! "volontarySwitchs",
              RuntimeMetrics.metrics self !! "inVolontarySwitchs",
              RuntimeMetrics.metrics self !! "softPageFault",
              RuntimeMetrics.metrics self !! "hardPageFault" with
        | None, None, None, None => RuntimeMetrics.Returned w'
        | _, _, _, _ => RuntimeMetrics.Threw "TypeError" w'
        end).
    { unfold RuntimeMetrics.handle_data, RuntimeMetrics.reading.
      cbn [JS.typeof JS.get]. simpl (String.eqb "object" "object"). cbn [negb].
      rewrite Hgc. cbn [JS.typeof JS.get]. simpl (String.eqb "object" "object").
      cbn [negb]. rewrite Husage. cbn [JS.typeof JS.get].
      simpl (String.eqb "object" "object"). cbn [negb].
      unfold RuntimeMetrics.update_metric, RuntimeMetrics.reading. cbn [JS.get].
      repeat match goal with
             | |- context [RuntimeMetrics.metrics self !! ?k] =>
                 destruct (RuntimeMetrics.metrics self !! k)
             end; reflexivity. }
    rewrite Hrun. split.
    + intros (name & k & Hin & [h Hh]). unfold RuntimeMetrics.usage_fields in Hin.
      repeat (apply elem_of_cons in Hin as [Hin|Hin];
              [injection Hin as -> ->; rewrite Hh;
               repeat match goal with
                      | |- context [RuntimeMetrics.metrics self !! ?k] =>
                          destruct (RuntimeMetrics.metrics self !! k)
                      end; reflexivity|]).
      now apply elem_of_nil in Hin.
    + intros Hnone.
      rewrite (Hnone "volontarySwitchs" "ru_nvcsw"), (Hnone "inVolontarySwitchs" "ru_nivcsw"),
        (Hnone "softPageFault" "ru_minflt"), (Hnone "hardPageFault" "ru_majflt")
        by (unfold RuntimeMetrics.usage_fields; repeat constructor).
      reflexivity.
Qed.

Lemma handle_throws_on_null_witness :
  let st := RuntimeMetrics.init None RuntimeMetrics.create Scenario.ready in
  RuntimeMetrics.handle_data Histogram.ring 0 1 (fst st)
    (JS.Object [("gc", JS.Null)]) (snd st)
    = RuntimeMetrics.Threw "TypeError" (snd st).
Proof.
  intros st.
  exact (proj1 (proj2 (handle_throws_on_null Histogram.ring 0 1 (fst st) (snd st)))
           [("gc", JS.Null)] eq_refl).
Defined.

(** ** The runtime probe: [init] followed by a datum *)

Ltac settle_lookup Hnew :=
  repeat first
    [ rewrite bool_decide_eq_true_2 by reflexivity
    | rewrite bool_decide_eq_false_2
        by first [ discriminate | intros Hsame; injection Hsame; lia ] ];
  repeat match goal with
         | |- context [decide (?a = ?b)] =>
             destruct (decide (a = b)); try (exfalso; lia)
         end;
  rewrite Hnew by (simpl; lia); reflexivity.

Section Wiring.

Context (policy : Histogram.Policy).
Context (config : option RuntimeMetrics.Config) (self : RuntimeMetrics.t) (w : Env.World).
Context (fields gc usage : list (string * JS.value)).
Hypothesis metrics_available : is_Some (Env.metrics w).
Hypothesis runtimeStats_available : is_Some (Env.runtimeStats w).
Hypothesis enabled : config <> Some (RuntimeMetrics.Flag false).
Hypothesis sound : RuntimeMetrics.metrics_sound (self, w).
Hypothesis gc_object : JS.field "gc" fields = JS.Object gc.
Hypothesis usage_object : JS.field "usage" fields = JS.Object usage.

(** The world after [init] and one datum. *)
Lemma after_datum :
  let o := RuntimeMetrics.effective config in
  let st := RuntimeMetrics.init config self w in
  let n := length (Env.histograms w) in
  exists w' : Env.World,
    RuntimeMetrics.handle_data policy n (S n) (fst st) (JS.Object fields) (snd st)
      = RuntimeMetrics.Returned w' /\
    RuntimeMetrics.registry w' = RuntimeMetrics.registry (snd st) /\
    Env.histograms w' !! n
      = Some (Histogram.update policy (JS.field "newPause" gc) Histogram.create) /\
    Env.histograms w' !! S n
      = Some (Histogram.update policy (JS.field "oldPause" gc) Histogram.create) /\
    (forall (name : string) (h : nat) (k : string),
       (name, (true, h)) ∈ RuntimeMetrics.kept o n ->
       (name, k) ∈ RuntimeMetrics.usage_fields ->
       RuntimeMetrics.metrics (fst st) !! name = Some h /\
       Env.histograms w' !! h
         = Some (Histogram.update policy (JS.field k usage) Histogram.create)).
Proof.
  intros o st n.
  destruct (RuntimeMetrics_init_ready config self w metrics_available
              runtimeStats_available enabled)
    as [Hh _ _ _ _ _ _ Hkept _ _ _].
  fold st o n in Hh, Hkept.
  rewrite (handle_data_objects policy n (S n) (fst st) fields gc usage (snd st)
             gc_object usage_object).
  set (w2 := Env.histogram_update policy (S n) (JS.field "oldPause" gc)
               (Env.histogram_update policy n (JS.field "newPause" gc) (snd st))).
  exists (fold_left (RuntimeMetrics.feed policy (fst st) usage)
            RuntimeMetrics.usage_fields w2).
  split; [reflexivity|].
  assert (Hvol := Hkept "volontarySwitchs" (RuntimeMetrics.contextSwitchs o) _
                    ltac:(unfold RuntimeMetrics.kept; repeat constructor)).
  assert (Hinvol := Hkept "inVolontarySwitchs" (RuntimeMetrics.contextSwitchs o) _
                      ltac:(unfold RuntimeMetrics.kept; repeat constructor)).
  assert (Hsoft := Hkept "softPageFault" (RuntimeMetrics.pageFaults o) _
                     ltac:(unfold RuntimeMetrics.kept; repeat constructor)).
  assert (Hhard := Hkept "hardPageFault" (RuntimeMetrics.pageFaults o) _
                     ltac:(unfold RuntimeMetrics.kept; repeat constructor)).
  assert (Hstale : forall name h, RuntimeMetrics.metrics self !! name = Some h -> (h < n)%nat)
    by (intros name h Hn; exact (sound name h Hn)).
  assert (Hlookup : forall j : nat,
    Env.histograms
      (fold_left (RuntimeMetrics.feed policy (fst st) usage) RuntimeMetrics.usage_fields w2) !! j
    = fold_left
        (fun found entry =>
           if bool_decide (RuntimeMetrics.metrics (fst st) !! fst entry = Some j)
           then Histogram.update policy (JS.field (snd entry) usage) <$> found
           else found)
        RuntimeMetrics.usage_fields
        (if decide (S n = j)
         then Histogram.update policy (JS.field "oldPause" gc) <$>
              (if decide (n = j)
               then Histogram.update policy (JS.field "newPause" gc) <$>
                    Env.histograms (snd st) !! j
               else Env.histograms (snd st) !! j)
         else if decide (n = j)
              then Histogram.update policy (JS.field "newPause" gc) <$>
                   Env.histograms (snd st) !! j
              else Env.histograms (snd st) !! j)).
  { intros j. rewrite feed_all_lookup. subst w2.
    rewrite !histogram_update_lookup. reflexivity. }
  assert (Hnew : forall j : nat,
            (n <= j < n + RuntimeMetrics.made o)%nat ->
            Env.histograms (snd st) !! j = Some Histogram.create).
  { intros j Hj. rewrite Hh, lookup_app_r by (subst n; lia).
    apply lookup_replicate_2. subst n. lia. }
  unfold RuntimeMetrics.usage_fields in Hlookup. cbn [fold_left fst snd] in Hlookup.
  rewrite Hvol, Hinvol, Hsoft, Hhard in Hlookup.
  split.
  { destruct (feed_all_frame policy (fst st) usage RuntimeMetrics.usage_fields w2)
      as [Hw _].
    rewrite Hw. reflexivity. }
  clearbody n st. clear Hh Hkept.
  unfold RuntimeMetrics.made, RuntimeMetrics.kept in *.
  destruct (RuntimeMetrics.contextSwitchs o), (RuntimeMetrics.pageFaults o);
    revert Hlookup;
    repeat match goal with
           | |- context [RuntimeMetrics.metrics self !! ?k] =>
               let E := fresh "E" in
               destruct (RuntimeMetrics.metrics self !! k) as [?h|] eqn:E;
               [apply Hstale in E|]
           end;
    intros Hlookup;
    (split; [ (unfold RuntimeMetrics.usage_fields; cbn [fold_left]; rewrite Hlookup; settle_lookup Hnew) |];
     split; [ (unfold RuntimeMetrics.usage_fields; cbn [fold_left]; rewrite Hlookup; settle_lookup Hnew) |];
      intros name target k Hin Hk;
      repeat (apply elem_of_cons in Hin as [Hin|Hin];
              [first [ discriminate Hin | injection Hin as -> -> ] |]);
      try (now apply elem_of_nil in Hin);
      unfold RuntimeMetrics.usage_fields in Hk;
      repeat (apply elem_of_cons in Hk as [Hk|Hk];
              [first [ discriminate Hk | injection Hk as -> ] |]);
      try (now apply elem_of_nil in Hk);
      (split; [assumption|]); (unfold RuntimeMetrics.usage_fields; cbn [fold_left]; rewrite Hlookup; settle_lookup Hnew)).
Qed.

(** X: every metric that [init] registers reads the histogram that
    [handle] feeds from the matching field of the datum.  After [init] on
    a probe whose map is sound (a new probe's is) and one datum whose [gc]
    and [usage] are objects, each registered metric is bound under its id,
    and the histogram it reads holds exactly one observation: the field
    listed for it ([newPause] and [oldPause] of [gc], [ru_nvcsw],
    [ru_nivcsw], [ru_minflt] and [ru_majflt] of [usage]). *)
Theorem metrics_read_what_handle_feeds :
  let o := RuntimeMetrics.effective config in
  let st := RuntimeMetrics.init config self w in
  let n := length (Env.histograms w) in
  exists w' : Env.World,
    RuntimeMetrics.handle (fst st) = Some (Env.Handle (Env.fresh w) n (S n)) /\
    RuntimeMetrics.handle_data policy n (S n) (fst st) (JS.Object fields) (snd st)
      = RuntimeMetrics.Returned w' /\
    forall (m : Env.Metric) (object k : string),
      (true, m) ∈ RuntimeMetrics.registrations o n ->
      (Env.metric_id m, (object, k)) ∈ RuntimeMetrics.observed ->
      Env.binding (Env.metric_id m) (RuntimeMetrics.registry w') = Some m /\
      exists h : nat,
        RuntimeMetrics.histogram_of m = Some h /\
        Env.histograms w' !! h
          = Some (Histogram.update policy
                    (JS.field k (if String.eqb object "gc" then gc else usage))
                    Histogram.create).
Proof.
  intros o st n.
  destruct after_datum as (w' & Hrun & Hreg & Hnew & Hold & Husage).
  fold o st n in Hrun, Hreg, Hnew, Hold, Husage.
  destruct (RuntimeMetrics_init_ready config self w metrics_available
              runtimeStats_available enabled)
    as [_ Hhandle _ _ _ _ _ _ _ Hbound _].
  fold st o n in Hhandle, Hbound.
  exists w'. split; [exact Hhandle|]. split; [exact Hrun|].
  intros m object k Hm Hobs. split.
  { rewrite Hreg. exact (Hbound true m Hm). }
  unfold RuntimeMetrics.registrations in Hm. cbv zeta in Hm.
  unfold RuntimeMetrics.kept in Husage. cbv zeta in Husage.
  repeat (apply elem_of_cons in Hm as [Hm|Hm];
          [ injection Hm as Hflag ->;
            unfold RuntimeMetrics.observed in Hobs;
            cbn [Env.metric_id RuntimeMetrics.pause_metric RuntimeMetrics.usage_metric] in Hobs;
            repeat (apply elem_of_cons in Hobs as [Hobs|Hobs];
                    [ first [ discriminate Hobs | injection Hobs as -> -> ] |]);
            try (now apply elem_of_nil in Hobs);
            eexists; (split; [reflexivity|]);
            first [ exact Hnew | exact Hold
                  | refine (proj2 (Husage _ _ _ _ _));
                    [ rewrite <- Hflag; repeat constructor
                    | unfold RuntimeMetrics.usage_fields; repeat constructor ] ]
          |]).
  now apply elem_of_nil in Hm.
Qed.

End Wiring.

Lemma metrics_read_what_handle_feeds_witness :
  let st := RuntimeMetrics.init None RuntimeMetrics.create Scenario.ready in
  exists w' : Env.World,
    RuntimeMetrics.handle_data Histogram.ring 0 1 (fst st)
      (JS.Object [("gc", JS.Object [("newPause", JS.Num (Number.of_Z 4))]);
                  ("usage", JS.Object [("ru_majflt", JS.Num (Number.of_Z 7))])])
      (snd st) = RuntimeMetrics.Returned w' /\
    Env.histograms w' !! 5%nat
      = Some (Histogram.update Histogram.ring (JS.Num (Number.of_Z 7)) Histogram.create).
Proof.
  intros st.
  assert (Hm : is_Some (Env.metrics Scenario.ready)) by (simpl; eauto).
  assert (Hr : is_Some (Env.runtimeStats Scenario.ready)) by (simpl; eauto).
  assert (Hc : (None : option RuntimeMetrics.Config) <> Some (RuntimeMetrics.Flag false))
    by discriminate.
  assert (Hs : RuntimeMetrics.metrics_sound (RuntimeMetrics.create, Scenario.ready)).
  { intros k h Hk. simpl in Hk. rewrite lookup_empty in Hk. discriminate. }
  destruct (metrics_read_what_handle_feeds Histogram.ring None RuntimeMetrics.create
              Scenario.ready
              [("gc", JS.Object [("newPause", JS.Num (Number.of_Z 4))]);
               ("usage", JS.Object [("ru_majflt", JS.Num (Number.of_Z 7))])]
              [("newPause", JS.Num (Number.of_Z 4))]
              [("ru_majflt", JS.Num (Number.of_Z 7))]
              Hm Hr Hc Hs eq_refl eq_refl) as (w' & _ & Hrun & Hall).
  exists w'. split; [exact Hrun|].
  destruct (Hall (RuntimeMetrics.usage_metric "Major Page Fault"
                    "internal/uv/memory/pagefault/major" 5)
              "usage" "ru_majflt") as (_ & h & Hh & Hlook).
  - vm_compute. repeat constructor.
  - vm_compute. repeat constructor.
  - injection Hh as <-. exact Hlook.
Defined.

(** ** The runtime probe: registration and teardown *)

(** X: what a successful [init] registers is decided by the four options
    alone.  Each of the eight metrics of the table is bound under its id
    exactly when its option is on (bindings under other ids, and under the
    ids of options that are off, are left as they were); the two GC-pause
    histograms are made, and the handle is attached as the last listener,
    whatever the options say. *)
Theorem init_registers_by_option (config : option RuntimeMetrics.Config)
    (self : RuntimeMetrics.t) (w : Env.World) :
  is_Some (Env.metrics w) ->
  is_Some (Env.runtimeStats w) ->
  config <> Some (RuntimeMetrics.Flag false) ->
  let o := RuntimeMetrics.effective config in
  let st := RuntimeMetrics.init config self w in
  let n := length (Env.histograms w) in
  (forall (flag : bool) (m : Env.Metric),
     (flag, m) ∈ RuntimeMetrics.registrations o n ->
     Env.binding (Env.metric_id m) (RuntimeMetrics.registry (snd st))
       = if flag then Some m
         else Env.binding (Env.metric_id m) (RuntimeMetrics.registry w)) /\
  (forall i : string,
     i ∉ map (fun r => Env.metric_id (snd r)) (RuntimeMetrics.registrations o n) ->
     Env.binding i (RuntimeMetrics.registry (snd st))
       = Env.binding i (RuntimeMetrics.registry w)) /\
  Env.histograms (snd st)
    = Env.histograms w ++ replicate (RuntimeMetrics.made o) Histogram.create /\
  (2 <= RuntimeMetrics.made o)%nat /\
  RuntimeMetrics.listening (snd st)
    = RuntimeMetrics.listening w ++ [Env.Handle (Env.fresh w) n (S n)].
Proof.
  intros Hm Hr Hc o st n.
  destruct (RuntimeMetrics_init_ready config self w Hm Hr Hc)
    as [Hh _ Hl _ _ _ _ _ _ Hbound Hother].
  repeat split; try assumption.
  unfold RuntimeMetrics.made. lia.
Qed.

Lemma init_registers_by_option_witness :
  let st := RuntimeMetrics.init
              (Some (RuntimeMetrics.Options RuntimeMetrics.nothing))
              RuntimeMetrics.create Scenario.ready in
  Env.histograms (snd st) = [Histogram.create; Histogram.create] /\
  RuntimeMetrics.listening (snd st) = [Env.Handle 0 0 1].
Proof.
  intros st.
  assert (Hm : is_Some (Env.metrics Scenario.ready)) by (simpl; eauto).
  assert (Hr : is_Some (Env.runtimeStats Scenario.ready)) by (simpl; eauto).
  assert (Hc : Some (RuntimeMetrics.Options RuntimeMetrics.nothing)
               <> Some (RuntimeMetrics.Flag false)) by discriminate.
  destruct (init_registers_by_option
              (Some (RuntimeMetrics.Options RuntimeMetrics.nothing))
              RuntimeMetrics.create Scenario.ready Hm Hr Hc)
    as (_ & _ & Hh & _ & Hl).
  split; [exact Hh | exact Hl].
Defined.

(** X: [init] never removes an entry of [this.metrics].  A key that is
    there stays there, and after a successful [init] the entry under the
    key of an option that is off is the very entry that was there before,
    so the handle goes on feeding a histogram kept from an earlier
    [init]. *)
Theorem init_keeps_entries (config : option RuntimeMetrics.Config)
    (self : RuntimeMetrics.t) (w : Env.World) :
  let st := RuntimeMetrics.init config self w in
  (forall name : string,
     is_Some (RuntimeMetrics.metrics self !! name) ->
     is_Some (RuntimeMetrics.metrics (fst st) !! name)) /\
  (is_Some (Env.metrics w) -> is_Some (Env.runtimeStats w) ->
   config <> Some (RuntimeMetrics.Flag false) ->
   forall (name : string) (h : nat),
     (name, (false, h))
       ∈ RuntimeMetrics.kept (RuntimeMetrics.effective config) (length (Env.histograms w)) ->
     RuntimeMetrics.metrics (fst st) !! name = RuntimeMetrics.metrics self !! name).
Proof.
  intros st. subst st. split.
  - intros name Hname.
    assert (Hoff : config = Some (RuntimeMetrics.Flag false) \/
                   config <> Some (RuntimeMetrics.Flag false)).
    { destruct config as [[[|]|]|]; (now left) || (right; discriminate). }
    destruct Hoff as [->|Hc]; [now rewrite RuntimeMetrics_init_disabled|].
    destruct (Env.metrics w) as [registry|] eqn:Hm.
    2:{ now rewrite RuntimeMetrics_init_no_metrics by assumption. }
    destruct (Env.runtimeStats w) as [listeners|] eqn:Hr.
    2:{ now rewrite RuntimeMetrics_init_no_runtimeStats by congruence. }
    destruct (RuntimeMetrics_init_ready config self w) as [_ _ _ _ _ _ _ Hkept Hother _ _];
      [rewrite Hm; eauto | rewrite Hr; eauto | assumption |].
    destruct (decide (name ∈ map fst (RuntimeMetrics.kept (RuntimeMetrics.effective config)
                                          (length (Env.histograms w))))) as [Hin|Hout].
    + apply list_elem_of_fmap in Hin as ([name' [flag h]] & -> & Hin).
      cbn [fst] in *. rewrite (Hkept _ _ _ Hin). destruct flag; eauto.
    + now rewrite Hother.
  - intros Hm Hr Hc name h Hin.
    destruct (RuntimeMetrics_init_ready config self w Hm Hr Hc)
      as [_ _ _ _ _ _ _ Hkept _ _ _].
    exact (Hkept name false h Hin).
Qed.

Lemma init_keeps_entries_witness :
  let first := RuntimeMetrics.init None RuntimeMetrics.create Scenario.ready in
  let second := RuntimeMetrics.init
                  (Some (RuntimeMetrics.Options RuntimeMetrics.nothing))
                  (fst first) (snd first) in
  is_Some (RuntimeMetrics.metrics (fst second) !! "softPageFault").
Proof.
  intros first second.
  refine (proj1 (init_keeps_entries
                   (Some (RuntimeMetrics.Options RuntimeMetrics.nothing))
                   (fst first) (snd first)) "softPageFault" _).
  vm_compute. eauto.
Defined.

Lemma remove_last_splits (l : Env.listener) (before after : list Env.listener) :
  l ∉ after -> Env.remove_last l (before ++ l :: after) = before ++ after.
Proof.
  intros Hafter. induction before as [|x before IH]; simpl.
  - destruct (decide (l ∈ after)); [contradiction|].
    destruct (decide (l = l)); [reflexivity|contradiction].
  - destruct (decide (l ∈ before ++ l :: after)) as [_|Hn]; [now rewrite IH|].
    exfalso. apply Hn. apply elem_of_app. right. left.
Qed.

(** X: [destroy] detaches the probe's handle and nothing else.  With the
    service and the handle set, the most recently attached occurrence of
    the handle is removed and every other listener stays attached, in
    order; the registered metrics, the histograms and the timers are left
    as they are, and the probe keeps its fields. *)
Theorem destroy_detaches_own_handle_only (self : RuntimeMetrics.t) (w : Env.World)
    (h : Env.listener) (before after : list Env.listener) :
  RuntimeMetrics.runtimeStatsService self <> None ->
  RuntimeMetrics.handle self = Some h ->
  RuntimeMetrics.listening w = before ++ h :: after ->
  h ∉ after ->
  exists w' : Env.World,
    RuntimeMetrics.destroy self w = RuntimeMetrics.Returned (self, w') /\
    RuntimeMetrics.listening w' = before ++ after /\
    Env.metrics w' = Env.metrics w /\
    Env.histograms w' = Env.histograms w /\
    Env.timers w' = Env.timers w /\
    Env.debug w' = Env.debug w ++ [(RuntimeMetrics.namespace, "destroy")].
Proof.
  intros Hs Hh Hl Hafter. unfold RuntimeMetrics.destroy.
  destruct (RuntimeMetrics.runtimeStatsService self); [|congruence].
  rewrite Hh. cbn [Env.removeListener]. eexists. split; [reflexivity|].
  repeat split.
  unfold RuntimeMetrics.listening in *. cbn [Env.log Env.set_debug Env.set_runtimeStats
                                             Env.runtimeStats].
  destruct (Env.runtimeStats w) as [ls|]; cbn [option_map default from_option id] in *.
  - rewrite Hl. now apply remove_last_splits.
  - now destruct before.
Qed.

Lemma destroy_detaches_own_handle_only_witness :
  let st := RuntimeMetrics.init None RuntimeMetrics.create Scenario.ready in
  exists w' : Env.World,
    RuntimeMetrics.destroy (fst st) (snd st) = RuntimeMetrics.Returned (fst st, w') /\
    RuntimeMetrics.listening w' = [] /\
    Env.metrics w' = Env.metrics (snd st).
Proof.
  intros st.
  destruct (destroy_detaches_own_handle_only (fst st) (snd st) (Env.Handle 0 0 1) [] [])
    as (w' & Hrun & Hl & Hm & _).
  - discriminate.
  - reflexivity.
  - reflexivity.
  - apply not_elem_of_nil.
  - exists w'. repeat split; assumption.
Defined.

(** ** Numbers: what [parseFloat] reads in the output of [toFixed] *)

Lemma digit_of_plain (c : ascii) (d : Z) :
  Number.digit_of c = Some d ->
  Number.is_space c = false /\ c <> "-"%char /\ c <> "+"%char /\
  c <> "."%char /\ c <> "I"%char /\ 0 <= d <= 9.
Proof.
  destruct c as [[|] [|] [|] [|] [|] [|] [|] [|]]; intros H;
    vm_compute in H; try discriminate H;
    injection H as <-; repeat split; try discriminate; try reflexivity.
Qed.

Lemma read_digits_app (a rest : string) (acc : Z) (count : nat) :
  Number.all_digits a = true ->
  Number.read_digits (a +:+ rest) acc count
    = Number.read_digits rest (Number.value_of a acc) (count + String.length a).
Proof.
  revert acc count. induction a as [|c a IH]; intros acc count Ha;
    [change (EmptyString +:+ rest) with rest
    |change (String c a +:+ rest) with (String c (a +:+ rest))];
    cbn [Number.read_digits Number.all_digits Number.value_of String.length] in *.
  - now rewrite Nat.add_0_r.
  - destruct (Number.digit_of c); [|discriminate].
    rewrite IH by assumption. f_equal. lia.
Qed.

Lemma read_digits_all (a : string) (acc : Z) (count : nat) :
  Number.all_digits a = true ->
  Number.read_digits a acc count
    = (Number.value_of a acc, (count + String.length a)%nat, EmptyString).
Proof.
  intros Ha. pose proof (read_digits_app a EmptyString acc count Ha) as H.
  replace (a +:+ EmptyString) with a in H; [exact H|].
  clear. induction a as [|c a IH]; [reflexivity|].
  change (String c a +:+ EmptyString) with (String c (a +:+ EmptyString)).
  congruence.
Qed.

Lemma value_of_app (a b : string) (acc : Z) :
  Number.all_digits a = true ->
  Number.value_of (a +:+ b) acc = Number.value_of b (Number.value_of a acc).
Proof.
  revert acc. induction a as [|c a IH]; intros acc Ha; [reflexivity|].
  change (String c a +:+ b) with (String c (a +:+ b)).
  cbn [Number.all_digits Number.value_of] in *.
  destruct (Number.digit_of c); [|discriminate]. now apply IH.
Qed.

Lemma all_digits_app (a b : string) :
  Number.all_digits (a +:+ b) = Number.all_digits a && Number.all_digits b.
Proof.
  induction a as [|c a IH]; [reflexivity|].
  change (String c a +:+ b) with (String c (a +:+ b)).
  cbn [Number.all_digits]. now destruct (Number.digit_of c).
Qed.

Lemma length_append (a b : string) :
  String.length (a +:+ b) = (String.length a + String.length b)%nat.
Proof.
  induction a as [|c a IH]; [reflexivity|].
  change (String c a +:+ b) with (String c (a +:+ b)).
  cbn [String.length Nat.add]. now rewrite IH.
Qed.

Lemma all_digits_zeros (k : nat) : Number.all_digits (Number.zeros k) = true.
Proof. induction k; cbn; [reflexivity|assumption]. Qed.

Lemma value_of_zeros (k : nat) : Number.value_of (Number.zeros k) 0 = 0.
Proof. induction k; cbn; [reflexivity|assumption]. Qed.

Lemma length_zeros (k : nat) : String.length (Number.zeros k) = k.
Proof. induction k as [|k IH]; [reflexivity|]. cbn [Number.zeros String.length]. now rewrite IH. Qed.

Lemma append_cons (c : ascii) (a b : string) :
  String c a +:+ b = String c (a +:+ b).
Proof. reflexivity. Qed.

Lemma substring_all (s : string) : String.substring 0 (String.length s) s = s.
Proof.
  induction s as [|c s IH]; [reflexivity|].
  cbn [String.length String.substring]. now rewrite IH.
Qed.

(** A string is its first [n] characters followed by the others. *)
Lemma substring_split (n : nat) (s : string) :
  (n <= String.length s)%nat ->
  s = String.substring 0 n s +:+ Number.substring_from n s /\
  String.length (String.substring 0 n s) = n /\
  String.length (Number.substring_from n s) = (String.length s - n)%nat.
Proof.
  unfold Number.substring_from. revert n.
  induction s as [|c s IH]; intros [|n] Hn;
    cbn [String.length String.substring Nat.sub] in *; try lia.
  - repeat split; reflexivity.
  - change (String.substring 0 (S (String.length s)) (String c s))
      with (String c (String.substring 0 (String.length s) s)).
    rewrite substring_all. repeat split; reflexivity.
  - destruct (IH n ltac:(lia)) as (H1 & H2 & H3).
    rewrite append_cons, <- H1. cbn [String.length]. rewrite H2.
    repeat split. exact H3.
Qed.

Lemma string_of_uint_digits (d : Decimal.uint) (acc : Z) :
  Number.all_digits (NilEmpty.string_of_uint d) = true /\
  Number.value_of (NilEmpty.string_of_uint d) acc = Number.uint_value d acc.
Proof.
  revert acc. induction d as [|d IH|d IH|d IH|d IH|d IH|d IH|d IH|d IH|d IH|d IH];
    intros acc;
    cbn [NilEmpty.string_of_uint Number.all_digits Number.value_of Number.uint_value];
    try (split; reflexivity);
    match goal with
    | |- context [Number.digit_of ?c] =>
        let v := eval vm_compute in (Number.digit_of c) in
        change (Number.digit_of c) with v
    end;
    cbv beta iota;
    (split; [apply (IH 0) | rewrite (proj2 (IH _)); f_equal; lia]).
Qed.

Lemma of_uint_acc_value (d : Decimal.uint) (p : positive) :
  Zpos (Pos.of_uint_acc d p) = Number.uint_value d (Zpos p).
Proof.
  revert p. induction d as [|d IH|d IH|d IH|d IH|d IH|d IH|d IH|d IH|d IH|d IH];
    intros p; cbn [Pos.of_uint_acc Number.uint_value]; try reflexivity;
    rewrite IH; f_equal; lia.
Qed.

Lemma of_uint_value (d : Decimal.uint) :
  Z.of_N (Pos.of_uint d) = Number.uint_value d 0.
Proof.
  induction d as [|d IH|d IH|d IH|d IH|d IH|d IH|d IH|d IH|d IH|d IH];
    cbn [Pos.of_uint Number.uint_value]; try reflexivity; try exact IH;
    cbn [Z.of_N]; rewrite of_uint_acc_value; f_equal.
Qed.

(** The decimal digits of a natural number denote it. *)
Lemma digits_of_Z_digits (n : Z) :
  0 <= n ->
  Number.all_digits (Number.digits_of_Z n) = true /\
  Number.value_of (Number.digits_of_Z n) 0 = n /\
  (1 <= String.length (Number.digits_of_Z n))%nat.
Proof.
  intros Hn. unfold Number.digits_of_Z.
  pose proof (DecimalN.Unsigned.of_to (Z.to_N n)) as Hback.
  unfold N.of_uint in Hback.
  destruct (N.to_uint (Z.to_N n)) as [|d|d|d|d|d|d|d|d|d|d] eqn:Hd.
  1: { exfalso. cbn in Hback. rewrite <- Hback in Hd. discriminate Hd. }
  all: match goal with
       | |- context [NilZero.string_of_uint ?u] =>
           change (NilZero.string_of_uint u) with (NilEmpty.string_of_uint u);
           destruct (string_of_uint_digits u 0) as [Hall Hval];
           split; [exact Hall|]; split;
           [ rewrite Hval, <- of_uint_value, Hback; lia | cbn; lia ]
       end.
Qed.

Lemma digits_start (a : string) :
  Number.all_digits a = true -> (1 <= String.length a)%nat ->
  exists (c : ascii) (a' : string) (d : Z),
    a = String c a' /\ Number.digit_of c = Some d.
Proof.
  destruct a as [|c a']; cbn [String.length Number.all_digits]; [lia|].
  destruct (Number.digit_of c) as [d|] eqn:Hc; [|discriminate].
  intros _ _. now exists c, a', d.
Qed.

Lemma read_sign_digit (c : ascii) (rest : string) (d : Z) :
  Number.digit_of c = Some d ->
  Number.read_sign (String c rest) = (false, String c rest) /\
  String.prefix "Infinity" (String c rest) = false.
Proof.
  destruct c as [[|] [|] [|] [|] [|] [|] [|] [|]]; intros H;
    vm_compute in H; try discriminate H; split; reflexivity.
Qed.

(** Before a digit string, [parseFloat] reads the sign and nothing else. *)
Lemma sign_then_digits (neg : bool) (a rest : string) :
  Number.all_digits a = true -> (1 <= String.length a)%nat ->
  Number.read_sign (Number.skip_spaces ((if neg then "-" else "") +:+ a +:+ rest))
    = (neg, a +:+ rest) /\
  String.prefix "Infinity" (a +:+ rest) = false.
Proof.
  intros Ha Hlen. destruct (digits_start a Ha Hlen) as (c & a' & d & -> & Hc).
  rewrite append_cons.
  destruct (read_sign_digit c (a' +:+ rest) d Hc) as [Hsign Hprefix].
  split; [|exact Hprefix].
  destruct neg.
  - reflexivity.
  - change ("" +:+ String c (a' +:+ rest)) with (String c (a' +:+ rest)).
    cbn [Number.skip_spaces].
    rewrite (proj1 (digit_of_plain c d Hc)). exact Hsign.
Qed.

Lemma parseFloat_decimal (neg : bool) (a b : string) :
  Number.all_digits a = true -> Number.all_digits b = true ->
  (1 <= String.length a)%nat ->
  Number.parseFloat ((if neg then "-" else "") +:+ a +:+ "." +:+ b)
    = let '(p, q) :=
        Number.decimal (Number.value_of (a +:+ b) 0) (- Z.of_nat (String.length b)) in
      Number.of_ratio neg p q.
Proof.
  intros Ha Hb Hlen. unfold Number.parseFloat.
  destruct (sign_then_digits neg a ("." +:+ b) Ha Hlen) as [-> ->].
  rewrite read_digits_app by assumption.
  change ("." +:+ b) with (String "."%char b).
  cbn [Number.read_digits].
  change (Number.digit_of ".") with (@None Z). cbv beta iota.
  rewrite read_digits_all by assumption.
  rewrite value_of_app by assumption.
  replace ((0 + String.length a + (0 + String.length b))%nat =? 0)%nat with false
    by (symmetry; apply Nat.eqb_neq; lia).
  cbn [Number.read_exponent Nat.add].
  now replace (0 - Z.of_nat (String.length b)) with (- Z.of_nat (String.length b)) by lia.
Qed.

Lemma parseFloat_integer (neg : bool) (a : string) :
  Number.all_digits a = true -> (1 <= String.length a)%nat ->
  Number.parseFloat ((if neg then "-" else "") +:+ a)
    = let '(p, q) := Number.decimal (Number.value_of a 0) 0 in
      Number.of_ratio neg p q.
Proof.
  intros Ha Hlen. unfold Number.parseFloat.
  assert (Hnil : a +:+ "" = a).
  { clear. induction a as [|c a IH]; [reflexivity|]. rewrite append_cons. congruence. }
  destruct (sign_then_digits neg a "" Ha Hlen) as [Hsign Hprefix].
  rewrite Hnil in Hsign, Hprefix. rewrite Hsign, Hprefix.
  rewrite read_digits_all by assumption.
  replace ((0 + String.length a + 0)%nat =? 0)%nat with false
    by (symmetry; apply Nat.eqb_neq; lia).
  reflexivity.
Qed.

Lemma scaled_round_nonneg (f : nat) (m : positive) (e : Z) :
  0 <= Number.scaled_round f m e.
Proof.
  unfold Number.scaled_round. cbv zeta.
  assert (0 < 10 ^ Z.of_nat f) by (apply Z.pow_pos_nonneg; lia).
  destruct (0 <=? e) eqn:He.
  - apply Z.leb_le in He. assert (0 < 2 ^ e) by (apply Z.pow_pos_nonneg; lia). nia.
  - apply Z.leb_gt in He.
    assert (0 < 2 ^ (- e)) by (apply Z.pow_pos_nonneg; lia).
    assert (0 < 2 ^ (1 - e)) by (apply Z.pow_pos_nonneg; lia).
    apply Z.div_pos; nia.
Qed.

(** [scaled_round f m e] is the integer nearest to [m * 2^e * 10^f]. *)
Lemma scaled_round_nearest (f : nat) (m : positive) (e : Z) :
  let '(p, q) := Number.magnitude m e in
  let n := Number.scaled_round f m e in
  (2 * n - 1) * q <= 2 * 10 ^ Z.of_nat f * p < (2 * n + 1) * q.
Proof.
  unfold Number.magnitude, Number.scaled_round. cbv zeta.
  assert (0 < 10 ^ Z.of_nat f) by (apply Z.pow_pos_nonneg; lia).
  destruct (0 <=? e) eqn:He.
  - apply Z.leb_le in He. lia.
  - apply Z.leb_gt in He.
    assert (Hq : 0 < 2 ^ (- e)) by (apply Z.pow_pos_nonneg; lia).
    replace (2 ^ (1 - e)) with (2 * 2 ^ (- e))
      by (replace (1 - e) with (Z.succ (- e)) by lia; rewrite Z.pow_succ_r; lia).
    set (q := 2 ^ (- e)) in *. set (p := Z.pos m * 10 ^ Z.of_nat f).
    pose proof (Z.div_mod (2 * p + q) (2 * q) ltac:(lia)) as Hdiv.
    pose proof (Z.mod_pos_bound (2 * p + q) (2 * q) ltac:(lia)) as Hmod.
    nia.
Qed.

(** The digits [fixed_digits] works on: those of [n], with zeros in front
    until there is one more than [f]. *)
Lemma fixed_digits_padded (f : nat) (n : Z) :
  0 <= n ->
  let ds := Number.digits_of_Z n in
  let ds' := if (String.length ds <=? f)%nat
             then Number.zeros (f + 1 - String.length ds) +:+ ds else ds in
  Number.all_digits ds' = true /\ Number.value_of ds' 0 = n /\
  (f + 1 <= String.length ds')%nat.
Proof.
  intros Hn. destruct (digits_of_Z_digits n Hn) as (Hall & Hval & Hlen). cbv zeta.
  destruct (String.length (Number.digits_of_Z n) <=? f)%nat eqn:Hle.
  - apply Nat.leb_le in Hle.
    rewrite all_digits_app, all_digits_zeros, Hall.
    rewrite value_of_app, value_of_zeros, Hval by apply all_digits_zeros.
    rewrite length_append, length_zeros. repeat split; lia.
  - apply Nat.leb_gt in Hle. repeat split; [assumption..|lia].
Qed.

(** With [f] positive, [fixed_digits f n] is the digits of [n] with a point
    before the last [f] of them, and at least one digit before the point. *)
Lemma fixed_digits_shape (f : nat) (n : Z) :
  0 <= n -> (1 <= f)%nat ->
  exists a b : string,
    Number.fixed_digits f n = a +:+ "." +:+ b /\
    Number.all_digits a = true /\ Number.all_digits b = true /\
    (1 <= String.length a)%nat /\ String.length b = f /\
    Number.value_of (a +:+ b) 0 = n.
Proof.
  intros Hn Hf. unfold Number.fixed_digits.
  pose proof (fixed_digits_padded f n Hn) as Hpad. cbv zeta in Hpad |- *.
  set (ds' := if (String.length (Number.digits_of_Z n) <=? f)%nat
              then _ else _) in *.
  destruct Hpad as (Hall & Hval & Hlen). clearbody ds'.
  replace (f =? 0)%nat with false by (symmetry; apply Nat.eqb_neq; lia).
  destruct (substring_split (String.length ds' - f) ds' ltac:(lia))
    as (Hsplit & Hla & Hlb).
  exists (String.substring 0 (String.length ds' - f) ds'),
         (Number.substring_from (String.length ds' - f) ds').
  assert (Hab := Hall). rewrite Hsplit, all_digits_app in Hab.
  apply andb_true_iff in Hab. destruct Hab as [Ha Hb].
  rewrite <- Hsplit. repeat split; try assumption; lia.
Qed.

Lemma fixed_digits_reads_back (neg : bool) (f : nat) (n : Z) :
  0 <= n ->
  Number.parseFloat ((if neg then "-" else "") +:+ Number.fixed_digits f n)
    = let '(p, q) := Number.decimal n (- Z.of_nat f) in Number.of_ratio neg p q.
Proof.
  intros Hn. destruct f as [|f].
  - pose proof (fixed_digits_padded 0 n Hn) as Hpad. cbv zeta in Hpad.
    unfold Number.fixed_digits. cbv zeta. cbn [Nat.eqb].
    destruct Hpad as (Hall & Hval & Hlen).
    rewrite parseFloat_integer by (assumption || lia). now rewrite Hval.
  - destruct (fixed_digits_shape (S f) n Hn ltac:(lia))
      as (a & b & -> & Ha & Hb & Hla & Hlb & Hval).
    rewrite parseFloat_decimal by assumption. now rewrite Hval, Hlb.
Qed.

(** Reading back what [toFixed] prints gives the number nearest to the
    printed decimal. *)
Lemma toFixed_reads_back (f : nat) (s : bool) (m : positive) (e : Z) :
  Number.ge_1e21 m e = false ->
  Number.parseFloat (Number.toFixed f (S754_finite s m e))
    = let '(p, q) := Number.decimal (Number.scaled_round f m e) (- Z.of_nat f) in
      Number.of_ratio s p q.
Proof.
  intros Hsmall. unfold Number.toFixed. rewrite Hsmall.
  apply fixed_digits_reads_back, scaled_round_nonneg.
Qed.

(** X: the usage gauge holds the percentage rounded to two decimals.  When
    [used / total * 100] is a finite non-zero number [(-1)^s * m * 2^e]
    below [10^21], the tick sets the gauge to the number nearest to
    [n / 100], where [n] is the integer nearest to [m * 2^e * 100]. *)
Theorem usage_gauge_has_two_decimals (self : V8Metric.t)
    (stats : gmap string Number.number) (w : Env.World) (g : nat)
    (s : bool) (m : positive) (e : Z) :
  V8Metric.metricStore self !! "heap_used_percent" = Some g ->
  (g < length (Env.gauges w))%nat ->
  Number.mul
    (Number.div (V8Metric.stat stats "used_heap_size")
                (V8Metric.stat stats "total_heap_size"))
    (Number.of_Z 100) = S754_finite s m e ->
  Number.ge_1e21 m e = false ->
  let n := Number.scaled_round 2 m e in
  Env.gauges (V8Metric.tick stats self w) !! g
    = Some (Some (JS.Num (Number.of_ratio s n 100))) /\
  (let '(p, q) := Number.magnitude m e in
   (2 * n - 1) * q <= 2 * 100 * p < (2 * n + 1) * q).
Proof.
  intros Hg Hlen Hvalue Hsmall n. split.
  - rewrite tick_lookup_usage by assumption.
    unfold V8Metric.usage. unfold Number.number in *. rewrite Hvalue.
    rewrite toFixed_reads_back by assumption. reflexivity.
  - exact (scaled_round_nearest 2 m e).
Qed.

Lemma usage_gauge_has_two_decimals_witness :
  let st := V8Metric.init None V8Metric.create Scenario.ready in
  Env.gauges (V8Metric.tick Scenario.heap (fst st) (snd st)) !! 1%nat
    = Some (Some (JS.Num (Number.of_ratio false 3350 100))).
Proof.
  intros st.
  refine (proj1 (usage_gauge_has_two_decimals (fst st) Scenario.heap (snd st) 1%nat
                   false 4714189658521600 (-47) eq_refl _ _ _)).
  - vm_compute. lia.
  - vm_compute. reflexivity.
  - vm_compute. reflexivity.
Defined.

(** X: the heap sizes are printed with two decimals.  When
    [val / 1024 / 1024] is a finite non-zero number [(-1)^s * m * 2^e] below
    [10^21], [formatMiBytes val] is the sign, at least one digit, a point
    and two digits, the digits being those of the integer nearest to
    [m * 2^e * 100]. *)
Theorem formatMiBytes_has_two_decimals (val : Number.number)
    (s : bool) (m : positive) (e : Z) :
  Number.div (Number.div val (Number.of_Z 1024)) (Number.of_Z 1024)
    = S754_finite s m e ->
  Number.ge_1e21 m e = false ->
  exists a b : string,
    V8Metric.formatMiBytes val = (if s then "-" else "") +:+ a +:+ "." +:+ b /\
    Number.all_digits a = true /\ Number.all_digits b = true /\
    (1 <= String.length a)%nat /\ String.length b = 2%nat /\
    Number.value_of (a +:+ b) 0 = Number.scaled_round 2 m e.
Proof.
  intros Hvalue Hsmall. unfold V8Metric.formatMiBytes.
  unfold Number.number in *. rewrite Hvalue.
  unfold Number.toFixed. rewrite Hsmall.
  destruct (fixed_digits_shape 2 (Number.scaled_round 2 m e)
              (scaled_round_nonneg 2 m e) ltac:(lia))
    as (a & b & -> & Hrest).
  now exists a, b.
Qed.

Lemma formatMiBytes_has_two_decimals_witness :
  exists a b : string,
    V8Metric.formatMiBytes (Number.of_Z 3512345) = "" +:+ a +:+ "." +:+ b /\
    Number.all_digits a = true /\ Number.all_digits b = true /\
    (1 <= String.length a)%nat /\ String.length b = 2%nat /\
    Number.value_of (a +:+ b) 0 = 335.
Proof.
  refine (formatMiBytes_has_two_decimals (Number.of_Z 3512345)
            false 7542703453634560 (-51) _ _).
  - vm_compute. reflexivity.
  - vm_compute. reflexivity.
Defined.

(** ** The timer callback: what the gauges are set to *)


